(** * Queensland youth-justice tracker: extraction and classification pipeline

    A shallow embedding of the budget scrapers
    ([src/scrapers/treasury_budget_scraper.py], [src/scrapers/budget_scraper.py]),
    the statistic extractor of [src/scrapers/parliament_qon_scraper.py], the
    spending split of [src/analysis/cost_analysis.py] and the SQLAlchemy session
    they write through ([src/database/__init__.py], [src/database/models.py]),
    with the retry loop and the table extraction of
    [src/scrapers/base_scraper.py], the analysis and the summary report of the
    questions on notice, and the scenarios and the projection of the cost
    analyzer.

    Conventions of the embedding.
    - A Python [str] is a [string]; a character is a code point below 256
      (Latin-1), which is the range on which [lower], [strip], [\d] and [\s]
      are written out below.
    - A Python [float] that holds an amount is an exact rational [Q]: the
      properties stated here are about which mantissa and which multiplier the
      code picks, not about binary rounding.  Sums, products and quotients are
      exact here, where the code rounds each of them to binary64.
    - A raised exception is the [Raise] constructor of [result]; a loop that
      runs inside [try ... except] returns the list it had built together with
      the exception that ended it.
    - Fetching pages, parsing HTML and opening PDFs stay outside: the functions
      start from the tables and page texts those steps deliver.  Columns filled
      by the clock ([scraped_date]) or the engine ([id]) are left out. *)

From Stdlib Require Import List String Ascii Bool Arith ZArith QArith Lia.
From Stdlib Require Import DecimalString Permutation Sorted Lqa.
Import ListNotations.
Local Open Scope string_scope.
Local Open Scope list_scope.
Local Open Scope nat_scope.

(** ** Python primitives *)

Module Py.

Inductive exn : Type :=
| ValueError       (* float of a string without a digit *)
| TypeError        (* a model constructor given a key that is no column *)
| OperationalError (* the database engine refused a statement *).

Inductive result (A : Type) : Type :=
| Ok (a : A)
| Raise (e : exn).
Arguments Ok {A} a.
Arguments Raise {A} e.

Definition bind {A B} (r : result A) (k : A -> result B) : result B :=
  match r with
  | Ok a => k a
  | Raise e => Raise e
  end.

(** [try: r except Exception: h] *)
Definition try_except {A} (r : result A) (h : exn -> A) : A :=
  match r with
  | Ok a => a
  | Raise e => h e
  end.

Definition code (c : ascii) : nat := nat_of_ascii c.

Definition in_range (lo hi : nat) (c : ascii) : bool :=
  (lo <=? code c) && (code c <=? hi).

(** [\d] of the [re] module on code points below 256. *)
Definition is_digit (c : ascii) : bool := in_range 48 57 c.

(** [\s] of the [re] module on code points below 256:
    tab, LF, VT, FF, CR, the four separators 0x1c-0x1f, space, NEL, NBSP. *)
Definition is_space (c : ascii) : bool :=
  in_range 9 13 c || in_range 28 31 c || (code c =? 32)
  || (code c =? 133) || (code c =? 160).

(** [str.lower] on one code point below 256: A-Z and the Latin-1 capitals
    (0xC0-0xDE except the multiplication sign 0xD7) move up by 32. *)
Definition lower_char (c : ascii) : ascii :=
  if in_range 65 90 c
     || (in_range 192 222 c && negb (code c =? 215))
  then ascii_of_nat (code c + 32)
  else c.

Fixpoint lower (s : string) : string :=
  match s with
  | EmptyString => EmptyString
  | String c s' => String (lower_char c) (lower s')
  end.

Fixpoint startswith (p s : string) : bool :=
  match p, s with
  | EmptyString, _ => true
  | String a p', String b s' => Ascii.eqb a b && startswith p' s'
  | String _ _, EmptyString => false
  end.

(** [needle in hay] on strings. *)
Fixpoint str_in (needle hay : string) : bool :=
  startswith needle hay
  || match hay with
     | EmptyString => false
     | String _ hay' => str_in needle hay'
     end.

(** [c in s] for one character. *)
Fixpoint has_char (c : ascii) (s : string) : bool :=
  match s with
  | EmptyString => false
  | String d s' => Ascii.eqb c d || has_char c s'
  end.

(** [any(k in text for k in ks)] *)
Definition any_in (ks : list string) (text : string) : bool :=
  existsb (fun k => str_in k text) ks.

(** [sum(1 for k in ks if k in text)] *)
Definition count_in (ks : list string) (text : string) : nat :=
  List.length (filter (fun k => str_in k text) ks).

(** [s.replace(',', '')] *)
Fixpoint remove_commas (s : string) : string :=
  match s with
  | EmptyString => EmptyString
  | String c s' =>
      if Ascii.eqb c "," then remove_commas s' else String c (remove_commas s')
  end.

(** [s[:n]] *)
Fixpoint take (n : nat) (s : string) : string :=
  match n, s with
  | S n', String c s' => String c (take n' s')
  | _, _ => EmptyString
  end.

(** [s[n:]] *)
Fixpoint drop (n : nat) (s : string) : string :=
  match n, s with
  | S n', String _ s' => drop n' s'
  | _, _ => s
  end.

(** [' '.join(parts)] *)
Fixpoint join_space (parts : list string) : string :=
  match parts with
  | [] => EmptyString
  | [p] => p
  | p :: rest => (p ++ " " ++ join_space rest)%string
  end.

(** Longest prefix whose characters satisfy [p], and what follows it. *)
Fixpoint span (p : ascii -> bool) (s : string) : string * string :=
  match s with
  | EmptyString => (EmptyString, EmptyString)
  | String c s' =>
      if p c then let (a, b) := span p s' in (String c a, b)
      else (EmptyString, s)
  end.

Definition all_digits (s : string) : bool :=
  match span is_digit s with
  | (_, EmptyString) => true
  | _ => false
  end.

(** Value of a run of decimal digits, most significant first. *)
Fixpoint digits_value (acc : Z) (s : string) : Z :=
  match s with
  | EmptyString => acc
  | String c s' => digits_value (10 * acc + Z.of_nat (code c - 48)) s'
  end.

(** [float(s)] on the strings the amount patterns can hand over: decimal
    digits with at most one point.  At least one digit is needed; anything
    else (in particular the empty string) raises [ValueError]. *)
Definition float (s : string) : result Q :=
  let (ip, rest) := span is_digit s in
  match rest with
  | EmptyString =>
      if (String.length ip =? 0)%nat then Raise ValueError
      else Ok (digits_value 0 ip # 1)
  | String c fp =>
      if Ascii.eqb c "." && all_digits fp
         && negb ((String.length ip + String.length fp =? 0)%nat)
      then Ok (digits_value 0 (ip ++ fp)%string
               # Z.to_pos (10 ^ Z.of_nat (String.length fp)))
      else Raise ValueError
  end.

Definition is_empty (s : string) : bool :=
  match s with
  | EmptyString => true
  | String _ _ => false
  end.

(** [s.lstrip()], [s.rstrip()], [s.strip()]: [str.isspace] agrees with [\s]
    on code points below 256. *)
Definition lstrip (s : string) : string := snd (span is_space s).

Fixpoint rstrip (s : string) : string :=
  match s with
  | EmptyString => EmptyString
  | String c s' =>
      let r := rstrip s' in
      if is_space c && is_empty r then EmptyString else String c r
  end.

Definition strip (s : string) : string := rstrip (lstrip s).

(** [s[i:j]] for [0 <= i]. *)
Definition slice (i j : nat) (s : string) : string := take (j - i) (drop i s).

Definition Qltb (x y : Q) : bool := negb (Qle_bool y x).

(** Truth value of a float: false exactly for zero. *)
Definition truthy (x : Q) : bool := negb (Qeq_bool x 0).

(** [max(xs, key=key)] when [key] may raise: the key of every element is
    computed, and the first element with the largest key wins. *)
Fixpoint max_by_from (key : string -> result Q) (best : string) (kbest : Q)
         (xs : list string) : result string :=
  match xs with
  | [] => Ok best
  | x :: xs' =>
      match key x with
      | Raise e => Raise e
      | Ok kx =>
          if Qltb kbest kx then max_by_from key x kx xs'
          else max_by_from key best kbest xs'
      end
  end.

Definition max_by (key : string -> result Q) (xs : list string) : result string :=
  match xs with
  | [] => Raise ValueError
  | x :: xs' =>
      match key x with
      | Raise e => Raise e
      | Ok kx => max_by_from key x kx xs'
      end
  end.

(** [sum(xs)] over floats, starting from 0. *)
Definition sum (xs : list Q) : Q := fold_left Qplus xs 0%Q.

(** [s.endswith(w)] *)
Definition endswith (w s : string) : bool :=
  (String.length w <=? String.length s)
  && String.eqb (drop (String.length s - String.length w) s) w.

(** [str(n)] for a non-negative integer. *)
Definition str_of_nat (n : nat) : string := NilZero.string_of_uint (Nat.to_uint n).

(** [max(x, y)] on floats. *)
Definition max2 (x y : Q) : Q := if Qltb x y then y else x.

End Py.

Notation "x <- r ;; k" := (Py.bind r (fun x => k))
  (at level 61, r at next level, right associativity).


(** ** Regular expressions

    The fragment of Python's [re] the scrapers use: literals, character
    classes, sequence, ordered alternation, greedy and lazy repetition of a
    character class, optional and capturing groups.  [exec] is the backtracking
    matcher in continuation-passing style: alternatives are tried in the order
    [re] tries them, and the first one whose continuation succeeds wins. *)

Module Re.
Import Py.

Inductive regex : Type :=
| Eps
| Lit (ignorecase : bool) (w : string)
| Cls (p : ascii -> bool)
| Seq (a b : regex)
| Alt (a b : regex)
| Rep (greedy : bool) (p : ascii -> bool) (lo : nat) (hi : option nat)
| Group (i : nat) (a : regex).

(** [(?:a)?] *)
Definition opt (a : regex) : regex := Alt a Eps.
(** [p+], [p*] *)
Definition plus (p : ascii -> bool) : regex := Rep true p 1 None.
Definition star (p : ascii -> bool) : regex := Rep true p 0 None.
Definition lit (w : string) : regex := Lit false w.

Fixpoint seq (rs : list regex) : regex :=
  match rs with
  | [] => Eps
  | [r] => r
  | r :: rs' => Seq r (seq rs')
  end.

(** [w1|w2|...] *)
Fixpoint words (ignorecase : bool) (ws : list string) : regex :=
  match ws with
  | [] => Lit ignorecase EmptyString
  | [w] => Lit ignorecase w
  | w :: ws' => Alt (Lit ignorecase w) (words ignorecase ws')
  end.

Definition captures : Type := list (nat * string).

Fixpoint group (i : nat) (caps : captures) : option string :=
  match caps with
  | [] => None
  | (j, g) :: caps' => if i =? j then Some g else group i caps'
  end.

Fixpoint startswith_nocase (p s : string) : bool :=
  match p, s with
  | EmptyString, _ => true
  | String a p', String b s' =>
      Ascii.eqb (lower_char a) (lower_char b) && startswith_nocase p' s'
  | String _ _, EmptyString => false
  end.

(** Number of leading characters of [s] in the class [p]. *)
Fixpoint run_length (p : ascii -> bool) (s : string) : nat :=
  match s with
  | EmptyString => 0
  | String c s' => if p c then S (run_length p s') else 0
  end.

(** The repetition counts to try, in order: [hi] down to [lo] when greedy,
    [lo] up to [hi] when lazy. *)
Definition counts (greedy : bool) (lo hi : nat) : list nat :=
  if hi <? lo then []
  else
    let up := List.seq lo (S hi - lo) in
    if greedy then rev up else up.

Fixpoint find_first {A B} (f : A -> option B) (xs : list A) : option B :=
  match xs with
  | [] => None
  | x :: xs' =>
      match f x with
      | Some y => Some y
      | None => find_first f xs'
      end
  end.

Fixpoint exec {R : Type} (r : regex) (s : string) (caps : captures)
         (k : string -> captures -> option R) : option R :=
  match r with
  | Eps => k s caps
  | Lit ignorecase w =>
      if (if ignorecase then startswith_nocase w s else startswith w s)
      then k (drop (String.length w) s) caps
      else None
  | Cls p =>
      match s with
      | String c s' => if p c then k s' caps else None
      | EmptyString => None
      end
  | Seq a b => exec a s caps (fun s1 caps1 => exec b s1 caps1 k)
  | Alt a b =>
      match exec a s caps k with
      | Some x => Some x
      | None => exec b s caps k
      end
  | Rep greedy p lo hi =>
      let n := run_length p s in
      let n := match hi with Some h => Nat.min n h | None => n end in
      find_first (fun i => k (drop i s) caps) (counts greedy lo n)
  | Group i a =>
      exec a s caps
           (fun s1 caps1 =>
              k s1 ((i, take (String.length s - String.length s1) s) :: caps1))
  end.

(** A match of [r] at the head of [s]: the groups and the text after it. *)
Definition match_at (r : regex) (s : string) : option (captures * string) :=
  exec r s [] (fun rest caps => Some (caps, rest)).

(** One match: start and end offsets and the groups. *)
Record Match : Type := { m_start : nat; m_end : nat; m_groups : captures }.

(** [re.finditer]: scan left to right and resume at the end of each match.
    No pattern of the scrapers matches the empty string. *)
Fixpoint finditer_from (r : regex) (skip pos : nat) (s : string) : list Match :=
  match s with
  | EmptyString => []
  | String _ s' =>
      match skip with
      | S j => finditer_from r j (S pos) s'
      | O =>
          match match_at r s with
          | Some (caps, rest) =>
              let len := String.length s - String.length rest in
              {| m_start := pos; m_end := pos + len; m_groups := caps |}
                :: finditer_from r (len - 1) (S pos) s'
          | None => finditer_from r 0 (S pos) s'
          end
      end
  end.

Definition finditer (r : regex) (s : string) : list Match := finditer_from r 0 0 s.

(** [re.search]: the leftmost match. *)
Fixpoint search_from (r : regex) (pos : nat) (s : string) : option Match :=
  match s with
  | EmptyString => None
  | String _ s' =>
      match match_at r s with
      | Some (caps, rest) =>
          Some {| m_start := pos;
                  m_end := pos + (String.length s - String.length rest);
                  m_groups := caps |}
      | None => search_from r (S pos) s'
      end
  end.

Definition search (r : regex) (s : string) : option Match := search_from r 0 s.

(** [m.group(i)] for a group that took part in the match. *)
Definition group_of (i : nat) (m : Match) : string :=
  match group i (m_groups m) with
  | Some g => g
  | None => EmptyString
  end.

(** [re.findall] for a pattern with exactly one group. *)
Definition findall (r : regex) (s : string) : list string :=
  map (group_of 1) (finditer r s).

(** [re.split] on a single character class, as [re.split(r'[.!?]', s)]. *)
Fixpoint split_on (p : ascii -> bool) (s : string) : list string :=
  match s with
  | EmptyString => [EmptyString]
  | String c s' =>
      match split_on p s' with
      | [] => []
      | piece :: pieces =>
          if p c then EmptyString :: piece :: pieces
          else String c piece :: pieces
      end
  end.

End Re.

(** ** Allocation dictionaries

    The dictionaries the scrapers pass around.  Keys that only some producers
    set are optional: [source_type] is set by the Treasury scraper only, and
    [department], [source_url], [source_document] are added to its allocations
    later, by [scrape_and_save]. *)

Module Alloc.

Record t : Type := {
  fiscal_year : string;
  program : string;
  category : string;
  amount : Q;
  description : string;
  source_type : option string;
  department : option string;
  source_url : option string;
  source_document : option string
}.

(** [d.get(key, default)] *)
Definition get (field : option string) (default : string) : string :=
  match field with
  | Some v => v
  | None => default
  end.

End Alloc.

(** ** The database: [BudgetAllocation] and the SQLAlchemy session

    [SessionLocal] is [sessionmaker(autocommit=False, autoflush=False)]: a
    query does not write the pending objects first, and nothing reaches the
    table before [commit].  The columns [id] and [scraped_date], which the
    engine and the clock fill in, are left out; nullable columns are options. *)

Module Db.
Import Py.

Record BudgetAllocation : Type := {
  fiscal_year : string;
  department : option string;
  program : string;
  category : option string;
  amount : Q;
  description : option string;
  source_url : option string;
  source_document : option string
}.

(** The statements the engine refuses (lock, I/O error, constraint). *)
Record Engine : Type := {
  select_raises : string -> string -> Q -> bool;
  insert_raises : BudgetAllocation -> bool
}.

Definition reliable : Engine :=
  {| select_raises := fun _ _ _ => false; insert_raises := fun _ => false |}.

(** A session on the table: the committed rows, the rows written in the open
    transaction, and the objects added but not yet written. *)
Record Session : Type := {
  committed : list BudgetAllocation;
  flushed : list BudgetAllocation;
  pending : list BudgetAllocation
}.

(** [next(get_db())] *)
Definition get_db (table : list BudgetAllocation) : Session :=
  {| committed := table; flushed := []; pending := [] |}.

Definition same_key (fy prog : string) (amt : Q) (r : BudgetAllocation) : bool :=
  String.eqb (fiscal_year r) fy && String.eqb (program r) prog
  && Qeq_bool (amount r) amt.

(** [db.query(BudgetAllocation).filter_by(fiscal_year=, program=, amount=).first()] *)
Definition query_first (E : Engine) (db : Session) (fy prog : string) (amt : Q)
  : result (option BudgetAllocation) :=
  if select_raises E fy prog amt then Raise OperationalError
  else Ok (find (same_key fy prog amt) (committed db ++ flushed db)).

(** [db.add(obj)] *)
Definition add (db : Session) (r : BudgetAllocation) : Session :=
  {| committed := committed db; flushed := flushed db;
     pending := pending db ++ [r] |}.

(** The flush at the start of [commit]: the pending objects are inserted in
    order, up to the first one the engine refuses. *)
Fixpoint flush (E : Engine) (rows written : list BudgetAllocation)
  : list BudgetAllocation * list BudgetAllocation * option exn :=
  match rows with
  | [] => (written, [], None)
  | r :: rows' =>
      if insert_raises E r then (written, rows, Some OperationalError)
      else flush E rows' (written ++ [r])
  end.

(** [db.commit()]: the session afterwards, and the exception if one was
    raised. *)
Definition commit (E : Engine) (db : Session) : Session * option exn :=
  match flush E (pending db) (flushed db) with
  | (written, remaining, Some e) =>
      ({| committed := committed db; flushed := written; pending := remaining |}, Some e)
  | (written, _, None) =>
      ({| committed := committed db ++ written; flushed := []; pending := [] |}, None)
  end.

(** [db.rollback()] *)
Definition rollback (db : Session) : Session :=
  {| committed := committed db; flushed := []; pending := [] |}.

(** [db.close()]: what is left is the table. *)
Definition close (db : Session) : list BudgetAllocation := committed (rollback db).

End Db.

(** ** The Supabase table, written through the REST client *)

Module Supabase.
Import Py.

Record record : Type := {
  fiscal_year : string;
  department : option string;
  program : string;
  category : string;
  amount : Q;
  description : string;
  source_url : option string;
  source_document : option string
}.

(** [SupabaseClient.insert_budget_allocation]: the record is built from the
    dictionary and inserted; any exception is logged and swallowed. *)
Definition insert_budget_allocation (insert_raises : record -> bool)
           (table : list record) (data : Alloc.t) : list record :=
  let r := {| fiscal_year := Alloc.fiscal_year data;
              department := Alloc.department data;
              program := Alloc.program data;
              category := Alloc.category data;
              amount := Alloc.amount data;
              description := Alloc.description data;
              source_url := Alloc.source_url data;
              source_document := Alloc.source_document data |} in
  try_except (if insert_raises r then Raise OperationalError else Ok (table ++ [r]))
             (fun _ => table).

End Supabase.

(** ** BaseScraper: [get_page] and [extract_tables] *)

Module Base.
Import Py.

(** *** [get_page]

    The network is the function [outcome]: what attempt number [i] yields, a
    response, or [None] for a [RequestException].  The result comes with the
    number of requests made and the seconds slept between attempts (the random
    pause after a success is left out). *)

Record Fetch (R : Type) : Type := {
  response : option R;
  requests : nat;
  backoff : nat
}.
Arguments response {R} _.
Arguments requests {R} _.
Arguments backoff {R} _.

Definition max_retries : nat := 3.
Definition retry_delay : nat := 1.

(** The loop [for attempt in range(max_retries)], from [attempt] on, with
    [todo] iterations left. *)
Fixpoint get_page_loop {R} (outcome : nat -> option R) (attempt todo slept : nat)
  : Fetch R :=
  match todo with
  | O => {| response := None; requests := attempt; backoff := slept |}
  | S todo' =>
      match outcome attempt with
      | Some r => {| response := Some r; requests := S attempt; backoff := slept |}
      | None =>
          if attempt <? max_retries - 1
          then get_page_loop outcome (S attempt) todo' (slept + retry_delay * (attempt + 1))
          else {| response := None; requests := S attempt; backoff := slept |}
      end
  end.

Definition get_page {R} (outcome : nat -> option R) : Fetch R :=
  get_page_loop outcome 0 max_retries 0.

(** *** [extract_tables]

    A parsed [table] element as the method queries it: the stripped texts of
    [table.find_all('th')] and, for each element of [table.find_all('tr')],
    the stripped texts of its [tr.find_all(['td', 'th'])].  Both searches go
    through everything below the element: for a table with another table in
    one of its cells the two lists hold the inner cells as well, and
    [soup.find_all('table')] lists the inner table once more on its own. *)

Record HtmlTable : Type := {
  ths : list string;
  trs : list (list string)
}.

(** A dictionary with string keys, in insertion order. *)
Definition Dict : Type := list (string * string).

(** [d[k] = v] *)
Fixpoint dict_set (k v : string) (d : Dict) : Dict :=
  match d with
  | [] => [(k, v)]
  | (k', v') :: d' =>
      if String.eqb k' k then (k', v) :: d' else (k', v') :: dict_set k v d'
  end.

(** [dict(zip(keys, vals))] *)
Definition dict_zip (keys vals : list string) : Dict :=
  fold_left (fun d kv => dict_set (fst kv) (snd kv) d) (combine keys vals) [].

Definition list_eqb (a b : list string) : bool :=
  if list_eq_dec string_dec a b then true else false.

Record Table : Type := { headers : list string; data : list Dict }.

Fixpoint rows_of (headers : list string) (trs : list (list string)) : list Dict :=
  match trs with
  | [] => []
  | cells :: trs' =>
      match cells with
      | [] => rows_of headers trs'
      | _ =>
          let row := cells in
          if (List.length row =? List.length headers) && negb (list_eqb row headers)
          then dict_zip headers row :: rows_of headers trs'
          else rows_of headers trs'
      end
  end.

Fixpoint extract_tables (soup : list HtmlTable) : list Table :=
  match soup with
  | [] => []
  | table :: soup' =>
      let headers := ths table in
      let rows := rows_of headers (trs table) in
      match rows with
      | [] => extract_tables soup'
      | _ => {| headers := headers; data := rows |} :: extract_tables soup'
      end
  end.

End Base.

(** ** TreasuryBudgetScraper *)

Module Treasury.
Import Py Re.

Definition youth_justice_keywords : list string :=
  [ "youth justice"; "youth detention"; "juvenile justice";
    "cleveland youth detention"; "west moreton youth detention";
    "youth crime"; "young offender"; "youth offender";
    "community youth justice"; "youth engagement";
    "supervised community accommodation"; "restorative justice";
    "youth bail"; "youth court"; "children's court";
    "youth rehabilitation"; "youth diversion" ].

Definition detention_keywords : list string :=
  [ "detention"; "cleveland"; "west moreton"; "secure facility";
    "custody"; "remand"; "secure accommodation" ].

Definition community_keywords : list string :=
  [ "community"; "diversion"; "restorative"; "supervision";
    "bail support"; "family support"; "early intervention";
    "prevention"; "rehabilitation"; "reintegration" ].

Definition facility_names : list string := [ "cleveland"; "west moreton" ].

(** *** [_categorize_program] *)

Definition detention_score (text : string) : nat :=
  count_in detention_keywords (lower text).

Definition community_score (text : string) : nat :=
  count_in community_keywords (lower text).

Definition mentions_facility (text : string) : bool :=
  any_in facility_names (lower text).

Definition _categorize_program (text : string) : string :=
  let text_lower := lower text in
  let detention_score := count_in detention_keywords text_lower in
  let community_score := count_in community_keywords text_lower in
  if community_score <? detention_score then "detention"
  else if 0 <? community_score then "community"
  else if any_in facility_names text_lower then "detention"
  else "community".

(** The same method with the object written out.  [__init__] assigns the two
    keyword lists to [self]; [_categorize_program] reads them off [self] and
    assigns to no attribute, so a call returns the category together with the
    object as it was handed in. *)
Record Self : Type := {
  self_detention_keywords : list string;
  self_community_keywords : list string
}.

Definition init : Self :=
  {| self_detention_keywords := detention_keywords;
     self_community_keywords := community_keywords |}.

Definition categorize_call (self : Self) (text : string) : string * Self :=
  let text_lower := lower text in
  let detention_score := count_in (self_detention_keywords self) text_lower in
  let community_score := count_in (self_community_keywords self) text_lower in
  let category :=
    if community_score <? detention_score then "detention"
    else if 0 <? community_score then "community"
    else if any_in ["cleveland"; "west moreton"] text_lower then "detention"
    else "community" in
  (category, self).

(** *** [_extract_program_name] *)

Definition is_letter (c : ascii) : bool := in_range 65 90 c || in_range 97 122 c.
Definition not_dot (c : ascii) : bool := negb (Ascii.eqb c ".").

(** [(?:for|to|in)\s+([A-Z][^.]{10,50}?)(?:\s+program|\s+initiative|\s+service)]
    under [re.IGNORECASE] *)
Definition name_pattern_1 : regex :=
  seq [ words true ["for"; "to"; "in"];
        plus is_space;
        Group 1 (Seq (Cls is_letter) (Rep false not_dot 10 (Some 50)));
        Alt (Seq (plus is_space) (Lit true "program"))
            (Alt (Seq (plus is_space) (Lit true "initiative"))
                 (Seq (plus is_space) (Lit true "service"))) ].

(** [([A-Z][^.]{10,50}?)\s+(?:program|initiative|service|centre|facility)] *)
Definition name_pattern_2 : regex :=
  seq [ Group 1 (Seq (Cls is_letter) (Rep false not_dot 10 (Some 50)));
        plus is_space;
        words true ["program"; "initiative"; "service"; "centre"; "facility"] ].

(** [(?:youth justice|youth)\s+([^.]{10,50}?)(?:\s+funding|\s+allocation)] *)
Definition name_pattern_3 : regex :=
  seq [ words true ["youth justice"; "youth"];
        plus is_space;
        Group 1 (Rep false not_dot 10 (Some 50));
        Alt (Seq (plus is_space) (Lit true "funding"))
            (Seq (plus is_space) (Lit true "allocation")) ].

Definition _extract_program_name (text : string) : string :=
  match find_first (fun pattern => search pattern text)
                   [name_pattern_1; name_pattern_2; name_pattern_3] with
  | Some m => strip (group_of 1 m)
  | None => strip (take 100 text)
  end.

(** *** [_extract_allocation_from_row] *)

(** [\$?([\d,]+(?:\.\d+)?)\s*(?:million|m|thousand|k)?] *)
Definition is_digit_or_comma (c : ascii) : bool := is_digit c || Ascii.eqb c ",".

Definition amount_pattern : regex :=
  seq [ opt (lit "$");
        Group 1 (Seq (plus is_digit_or_comma)
                     (opt (Seq (lit ".") (plus is_digit))));
        star is_space;
        opt (words false ["million"; "m"; "thousand"; "k"]) ].

(** [float(x.replace(',', ''))] *)
Definition mantissa_value (x : string) : result Q := float (remove_commas x).

(** The multiplier the row text selects (lines 208-211). *)
Definition row_multiplier (row_text : string) : Q :=
  if str_in "million" (lower row_text) || str_in " m" (lower row_text)
  then 1000000%Q
  else if str_in "thousand" (lower row_text) || str_in " k" (lower row_text)
  then 1000%Q
  else 1%Q.

Definition _extract_allocation_from_row
           (row : list (option string)) (row_text fiscal_year : string)
  : result (option Alloc.t) :=
  let amounts := findall amount_pattern row_text in
  match amounts with
  | [] => Ok None
  | _ =>
      amount_str <- max_by mantissa_value amounts ;;
      amount <- mantissa_value amount_str ;;
      let amount :=
        if str_in "million" (lower row_text) || str_in " m" (lower row_text)
        then (amount * 1000000)%Q
        else if str_in "thousand" (lower row_text) || str_in " k" (lower row_text)
        then (amount * 1000)%Q
        else amount in
      let category := _categorize_program row_text in
      let program_name := _extract_program_name row_text in
      Ok (Some {| Alloc.fiscal_year := fiscal_year;
                  Alloc.program := program_name;
                  Alloc.category := category;
                  Alloc.amount := amount;
                  Alloc.description := take 500 row_text;
                  Alloc.source_type := Some "budget_table";
                  Alloc.department := None;
                  Alloc.source_url := None;
                  Alloc.source_document := None |})
  end.

(** *** [_extract_text_allocations] *)

(** [\$?([\d,]+(?:\.\d+)?)\s*(?:million|m)] *)
Definition text_amount_pattern : regex :=
  seq [ opt (lit "$");
        Group 1 (Seq (plus is_digit_or_comma)
                     (opt (Seq (lit ".") (plus is_digit))));
        star is_space;
        words false ["million"; "m"] ].

Definition is_sentence_end (c : ascii) : bool :=
  Ascii.eqb c "." || Ascii.eqb c "!" || Ascii.eqb c "?".

Fixpoint text_allocations_loop (fiscal_year : string) (sentences : list string)
  : result (list Alloc.t) :=
  match sentences with
  | [] => Ok []
  | sentence :: rest =>
      if any_in youth_justice_keywords (lower sentence) then
        match search text_amount_pattern sentence with
        | Some amount_match =>
            amount <- mantissa_value (group_of 1 amount_match) ;;
            let amount := (amount * 1000000)%Q in
            let alloc :=
              {| Alloc.fiscal_year := fiscal_year;
                 Alloc.program := _extract_program_name sentence;
                 Alloc.category := _categorize_program sentence;
                 Alloc.amount := amount;
                 Alloc.description := strip sentence;
                 Alloc.source_type := Some "budget_text";
                 Alloc.department := None;
                 Alloc.source_url := None;
                 Alloc.source_document := None |} in
            more <- text_allocations_loop fiscal_year rest ;;
            Ok (alloc :: more)
        | None => text_allocations_loop fiscal_year rest
        end
      else text_allocations_loop fiscal_year rest
  end.

Definition _extract_text_allocations (text fiscal_year : string)
  : result (list Alloc.t) :=
  text_allocations_loop fiscal_year (split_on is_sentence_end text).

(** *** [_process_budget_table] *)

(** A table of [pdfplumber]: rows of cells, a cell a string or [None]. *)
Definition Table : Type := list (list (option string)).

(** [str(cell)] *)
Definition cell_str (cell : option string) : string :=
  match cell with
  | Some s => s
  | None => "None"
  end.

(** Truth value of a cell. *)
Definition cell_truthy (cell : option string) : bool :=
  match cell with
  | Some s => negb (is_empty s)
  | None => false
  end.

Definition looks_like_header (row : list (option string)) : bool :=
  existsb (fun cell => str_in "$" (cell_str cell)
                       || str_in "budget" (lower (cell_str cell))) row.

Fixpoint find_header_row (i : nat) (rows : Table) : option nat :=
  match rows with
  | [] => None
  | row :: rows' =>
      if looks_like_header row then Some i else find_header_row (S i) rows'
  end.

Definition row_text_of (row : list (option string)) : string :=
  join_space (map cell_str (filter cell_truthy row)).

(** The loop over the data rows.  An exception ends it; the allocations
    appended so far stay in the list. *)
Fixpoint table_rows_loop (fiscal_year : string) (rows : Table)
         (allocations : list Alloc.t) : list Alloc.t * option exn :=
  match rows with
  | [] => (allocations, None)
  | row :: rows' =>
      let row_text := row_text_of row in
      if any_in youth_justice_keywords (lower row_text) then
        match _extract_allocation_from_row row row_text fiscal_year with
        | Raise e => (allocations, Some e)
        | Ok (Some allocation) =>
            table_rows_loop fiscal_year rows' (allocations ++ [allocation])
        | Ok None => table_rows_loop fiscal_year rows' allocations
        end
      else table_rows_loop fiscal_year rows' allocations
  end.

Definition _process_budget_table (table : Table) (context_text fiscal_year : string)
  : list Alloc.t :=
  let header_row :=
    match find_header_row 0 (firstn 5 table) with
    | Some i => i
    | None => 0
    end in
  let rows :=
    if header_row <? List.length table then skipn (header_row + 1) table
    else table in
  (* except Exception: the error is logged, the list is returned as it is *)
  fst (table_rows_loop fiscal_year rows []).

(** *** [extract_budget_tables_from_pdf], on the pages of an opened PDF *)

Record Page : Type := {
  page_text : option string;     (* page.extract_text() *)
  page_tables : list Table       (* page.extract_tables() *)
}.

Fixpoint tables_loop (text fiscal_year : string) (tables : list Table)
         (allocations : list Alloc.t) : list Alloc.t :=
  match tables with
  | [] => allocations
  | table :: tables' =>
      match table with
      | [] => tables_loop text fiscal_year tables' allocations
      | _ =>
          tables_loop text fiscal_year tables'
                      (allocations ++ _process_budget_table table text fiscal_year)
      end
  end.

Fixpoint pages_loop (fiscal_year : string) (pages : list Page)
         (allocations : list Alloc.t) : list Alloc.t * option exn :=
  match pages with
  | [] => (allocations, None)
  | page :: pages' =>
      let text := match page_text page with Some t => t | None => EmptyString end in
      if negb (any_in youth_justice_keywords (lower text)) then
        pages_loop fiscal_year pages' allocations
      else
        let allocations := tables_loop text fiscal_year (page_tables page) allocations in
        match _extract_text_allocations text fiscal_year with
        | Raise e => (allocations, Some e)
        | Ok text_allocations =>
            pages_loop fiscal_year pages' (allocations ++ text_allocations)
        end
  end.

Definition extract_budget_tables_from_pdf (pages : list Page) (fiscal_year : string)
  : list Alloc.t :=
  fst (pages_loop fiscal_year pages []).

(** *** [calculate_detention_vs_community] *)

Record Split : Type := {
  detention_total : Q;
  community_total : Q;
  total_budget : Q;
  detention_percentage : Q;
  community_percentage : Q;
  allocation_count : nat
}.

Definition in_category (c : string) (a : Alloc.t) : bool :=
  String.eqb (Alloc.category a) c.

Definition calculate_detention_vs_community (allocations : list Alloc.t) : Split :=
  let detention_total :=
    sum (map Alloc.amount (filter (in_category "detention") allocations)) in
  let community_total :=
    sum (map Alloc.amount (filter (in_category "community") allocations)) in
  let total := (detention_total + community_total)%Q in
  let percentages :=
    if Qltb 0 total
    then ((detention_total / total) * 100, (community_total / total) * 100)%Q
    else (0%Q, 0%Q) in
  {| detention_total := detention_total;
     community_total := community_total;
     total_budget := total;
     detention_percentage := fst percentages;
     community_percentage := snd percentages;
     allocation_count := List.length allocations |}.

(** *** [save_to_database] *)

Definition to_row (alloc : Alloc.t) : Db.BudgetAllocation :=
  {| Db.fiscal_year := Alloc.fiscal_year alloc;
     Db.department := Some (Alloc.get (Alloc.department alloc) "Unknown");
     Db.program := Alloc.program alloc;
     Db.category := Some (Alloc.category alloc);
     Db.amount := Alloc.amount alloc;
     Db.description := Some (Alloc.description alloc);
     Db.source_url := Some (Alloc.get (Alloc.source_url alloc) EmptyString);
     Db.source_document := Some (Alloc.get (Alloc.source_document alloc) EmptyString) |}.

Fixpoint save_loop (E : Db.Engine) (allocations : list Alloc.t) (db : Db.Session)
  : Db.Session * option exn :=
  match allocations with
  | [] => (db, None)
  | alloc :: rest =>
      match Db.query_first E db (Alloc.fiscal_year alloc) (Alloc.program alloc)
                           (Alloc.amount alloc) with
      | Raise e => (db, Some e)
      | Ok (Some existing) => save_loop E rest db
      | Ok None => save_loop E rest (Db.add db (to_row alloc))
      end
  end.

(** The table after the call. *)
Definition save_to_database (E : Db.Engine) (table : list Db.BudgetAllocation)
           (allocations : list Alloc.t) : list Db.BudgetAllocation :=
  let db := Db.get_db table in
  let db :=
    match save_loop E allocations db with
    | (db, Some e) => Db.rollback db
    | (db, None) =>
        match Db.commit E db with
        | (db, Some e) => Db.rollback db
        | (db, None) => db
        end
    end in
  Db.close db.

(** *** [_extract_department] *)

Definition not_comma (c : ascii) : bool := negb (Ascii.eqb c ",").

(** [department of ([^,]+)], [([^,]+) department] and [ministry of ([^,]+)],
    under [re.IGNORECASE] *)
Definition department_pattern_1 : regex :=
  Seq (Lit true "department of ") (Group 1 (Rep true not_comma 1 None)).

Definition department_pattern_2 : regex :=
  Seq (Group 1 (Rep true not_comma 1 None)) (Lit true " department").

Definition department_pattern_3 : regex :=
  Seq (Lit true "ministry of ") (Group 1 (Rep true not_comma 1 None)).

Definition _extract_department (text : string) : string :=
  match find_first (fun pattern => search pattern text)
                   [department_pattern_1; department_pattern_2; department_pattern_3] with
  | Some m => strip (group_of 1 m)
  | None => "Unknown Department"
  end.

(** *** [find_budget_pdfs]

    [fetch url] stands for [get_page], [parse_html] and
    [find_all('a', href=True)]: the links of the page, or [None] when the page
    could not be fetched. *)

Record Link : Type := {
  href : string;
  link_text : string      (* link.get_text(strip=True) *)
}.

Record PdfInfo : Type := {
  pdf_url : string;
  pdf_title : string;
  pdf_fiscal_year : string;
  pdf_document_type : string;
  pdf_department : string
}.

Definition base_url : string := "https://budget.qld.gov.au".

Definition default_fiscal_years : list string := ["2024-25"; "2023-24"; "2022-23"].

Definition document_types : list string :=
  [ "budget-papers"; "service-delivery-statements"; "capital-statement";
    "budget-measures" ].

Definition relevant_depts : list string :=
  [ "youth justice"; "children"; "communities"; "employment"; "child safety";
    "attorney-general"; "police"; "corrective services" ].

Fixpoint pdf_links (year doc_type : string) (links : list Link) : list PdfInfo :=
  match links with
  | [] => []
  | link :: rest =>
      if endswith ".pdf" (href link) then
        let text := lower (link_text link) in
        if any_in relevant_depts text then
          {| pdf_url := if startswith "http" (href link) then href link
                        else (base_url ++ href link)%string;
             pdf_title := link_text link;
             pdf_fiscal_year := year;
             pdf_document_type := doc_type;
             pdf_department := _extract_department text |}
            :: pdf_links year doc_type rest
        else pdf_links year doc_type rest
      else pdf_links year doc_type rest
  end.

Definition page_url (year doc_type : string) : string :=
  (base_url ++ "/budget/" ++ year ++ "/" ++ doc_type)%string.

Definition find_budget_pdfs (fetch : string -> option (list Link))
           (fiscal_years : list string) : list PdfInfo :=
  let fiscal_years :=
    match fiscal_years with
    | [] => default_fiscal_years
    | _ => fiscal_years
    end in
  flat_map
    (fun year =>
       flat_map
         (fun doc_type =>
            match fetch (page_url year doc_type) with
            | None => []
            | Some links => pdf_links year doc_type links
            end)
         document_types)
    fiscal_years.

(** *** [scrape_and_save]

    [open_pdf url] stands for [download_pdf] followed by [pdfplumber.open]:
    the pages of the document, or [None] when the download failed.  The raw
    JSON dump and the removal of the temporary files are left out. *)

Definition add_metadata (pdf_info : PdfInfo) (allocation : Alloc.t) : Alloc.t :=
  {| Alloc.fiscal_year := Alloc.fiscal_year allocation;
     Alloc.program := Alloc.program allocation;
     Alloc.category := Alloc.category allocation;
     Alloc.amount := Alloc.amount allocation;
     Alloc.description := Alloc.description allocation;
     Alloc.source_type := Alloc.source_type allocation;
     Alloc.department := Some (pdf_department pdf_info);
     Alloc.source_url := Some (pdf_url pdf_info);
     Alloc.source_document := Some (pdf_title pdf_info) |}.

(** [by_year[year].append(alloc)], creating the list on first use. *)
Fixpoint group_add (year : string) (alloc : Alloc.t)
         (by_year : list (string * list Alloc.t)) : list (string * list Alloc.t) :=
  match by_year with
  | [] => [(year, [alloc])]
  | (y, allocs) :: rest =>
      if String.eqb y year then (y, allocs ++ [alloc]) :: rest
      else (y, allocs) :: group_add year alloc rest
  end.

Definition group_by_year (allocations : list Alloc.t) : list (string * list Alloc.t) :=
  fold_left (fun by_year alloc => group_add (Alloc.fiscal_year alloc) alloc by_year)
            allocations [].

Record ScrapeResult : Type := {
  all_allocations : list Alloc.t;                 (* the return value *)
  summary : list (string * Split);                (* the per-year summary *)
  table_after : list Db.BudgetAllocation          (* the table after saving *)
}.

Definition scrape_and_save (E : Db.Engine) (fetch : string -> option (list Link))
           (open_pdf : string -> option (list Page))
           (table : list Db.BudgetAllocation) (fiscal_years : list string)
  : ScrapeResult :=
  let pdf_list := find_budget_pdfs fetch fiscal_years in
  let all_allocations :=
    flat_map
      (fun pdf_info =>
         match open_pdf (pdf_url pdf_info) with
         | None => []
         | Some pages =>
             map (add_metadata pdf_info)
                 (extract_budget_tables_from_pdf pages (pdf_fiscal_year pdf_info))
         end)
      pdf_list in
  {| all_allocations := all_allocations;
     summary :=
       map (fun group => (fst group, calculate_detention_vs_community (snd group)))
           (group_by_year all_allocations);
     table_after := save_to_database E table all_allocations |}.

End Treasury.

(** ** ParliamentQoNScraper: [_extract_statistics] *)

Module QoN.
Import Py Re.

Record Statistic : Type := {
  stat_type : string;
  value : Q;
  context : string
}.

(** [(\d+(?:\.\d+)?)\s*%] *)
Definition percentage_pattern : regex :=
  seq [ Group 1 (Seq (plus is_digit) (opt (Seq (lit ".") (plus is_digit))));
        star is_space;
        lit "%" ].

(** [\$\s*([\d,]+(?:\.\d+)?)\s*(?:(million|billion|thousand))?] *)
Definition amount_pattern : regex :=
  seq [ lit "$";
        star is_space;
        Group 1 (Seq (plus Treasury.is_digit_or_comma)
                     (opt (Seq (lit ".") (plus is_digit))));
        star is_space;
        opt (Group 2 (words false ["million"; "billion"; "thousand"])) ].

(** [(\d+(?:\.\d+)?)\s*(?:times|x)\s*(?:higher|more|greater)] *)
Definition rate_pattern : regex :=
  seq [ Group 1 (Seq (plus is_digit) (opt (Seq (lit ".") (plus is_digit))));
        star is_space;
        words false ["times"; "x"];
        star is_space;
        words false ["higher"; "more"; "greater"] ].

(** [text[max(0, m.start() - 50) : min(len(text), m.end() + 50)]] *)
Definition window (text : string) (m : Match) : string :=
  slice (m_start m - 50) (Nat.min (String.length text) (m_end m + 50)) text.

Fixpoint percentage_loop (text : string) (ms : list Match) : result (list Statistic) :=
  match ms with
  | [] => Ok []
  | m :: ms' =>
      v <- float (group_of 1 m) ;;
      more <- percentage_loop text ms' ;;
      Ok ({| stat_type := "percentage"; value := v;
             context := strip (window text m) |} :: more)
  end.

(** The multiplier step of the dollar scan (lines 240-248). *)
Definition apply_multiplier (amount : Q) (multiplier : option string) : Q :=
  match multiplier with
  | Some w =>
      if String.eqb w "billion" then (amount * 1000000000)%Q
      else if String.eqb w "million" then (amount * 1000000)%Q
      else if String.eqb w "thousand" then (amount * 1000)%Q
      else amount
  | None => amount
  end.

(** The value of one dollar match (lines 238-248). *)
Definition amount_of_match (m : Match) : result Q :=
  amount <- float (remove_commas (group_of 1 m)) ;;
  Ok (apply_multiplier amount (group 2 (m_groups m))).

Fixpoint amount_loop (text : string) (ms : list Match) : result (list Statistic) :=
  match ms with
  | [] => Ok []
  | m :: ms' =>
      amount <- amount_of_match m ;;
      more <- amount_loop text ms' ;;
      Ok ({| stat_type := "amount"; value := amount;
             context := strip (window text m) |} :: more)
  end.

Fixpoint rate_loop (text : string) (ms : list Match) : result (list Statistic) :=
  match ms with
  | [] => Ok []
  | m :: ms' =>
      v <- float (group_of 1 m) ;;
      more <- rate_loop text ms' ;;
      Ok ({| stat_type := "rate"; value := v;
             context := slice (m_start m) (m_end m) text |} :: more)
  end.

Definition _extract_statistics (text : string) : result (list Statistic) :=
  percentages <- percentage_loop text (finditer percentage_pattern text) ;;
  amounts <- amount_loop text (finditer amount_pattern text) ;;
  rates <- rate_loop text (finditer rate_pattern text) ;;
  Ok (percentages ++ amounts ++ rates).


(** *** [_is_relevant_question], [_analyze_question] *)

Definition youth_justice_keywords : list string :=
  [ "youth justice"; "youth detention"; "juvenile";
    "young offender"; "youth offender"; "youth crime";
    "cleveland detention"; "west moreton detention";
    "youth rehabilitation"; "youth bail"; "children's court" ].

Definition indigenous_keywords : list string :=
  [ "indigenous"; "aboriginal"; "torres strait"; "first nations";
    "atsi"; "closing the gap"; "overrepresentation";
    "cultural"; "elder"; "yarning circle" ].

Definition spending_keywords : list string :=
  [ "budget"; "cost"; "spending"; "expenditure"; "allocation";
    "funding"; "investment"; "million"; "dollars"; "$";
    "financial"; "fiscal"; "resources" ].

Definition detention_keywords : list string :=
  [ "detention centre"; "custody"; "secure facility";
    "remand"; "lockup"; "incarceration"; "confined" ].

(** The keys of a question dictionary that the analysis and the summary read
    (the date is left out). *)
Record Question : Type := {
  question_number : option string;
  mp_name : option string;
  minister : option string;
  question : option string;
  answer : option string;
  url : option string
}.

(** [(q.get('question', '') + ' ' + q.get('answer', '')).lower()] *)
Definition text_of (q : Question) : string :=
  lower (Alloc.get (question q) EmptyString ++ " "
         ++ Alloc.get (answer q) EmptyString)%string.

Definition _is_relevant_question (q : Question) : bool :=
  any_in youth_justice_keywords (text_of q).

(** The patterns [\d+%], [\d+\s*times], [\d+x], [rate] and [percentage]. *)
Definition rate_patterns : list regex :=
  [ Seq (plus is_digit) (lit "%");
    seq [plus is_digit; star is_space; lit "times"];
    Seq (plus is_digit) (lit "x");
    lit "rate";
    lit "percentage" ].

(** [\$[\d,]+(?:\.\d+)?(?:\s*(?:million|billion|thousand))?] *)
Definition spending_amount_pattern : regex :=
  seq [ lit "$";
        plus Treasury.is_digit_or_comma;
        opt (Seq (lit ".") (plus is_digit));
        opt (Seq (star is_space) (words false ["million"; "billion"; "thousand"])) ].

Definition found (r : regex) (text : string) : bool :=
  match search r text with
  | Some _ => true
  | None => false
  end.

Record Analysis : Type := {
  analysed : Question;
  mentions_indigenous : bool;
  mentions_spending : bool;
  mentions_detention : bool;
  topics : list string;
  indigenous_detention_highlight : bool;
  spending_flag : bool;
  statistics : list Statistic
}.

Definition _analyze_question (question_data : Question) : result Analysis :=
  let text := text_of question_data in
  let mentions_indigenous := any_in indigenous_keywords text in
  let mentions_spending := any_in spending_keywords text in
  let mentions_detention := any_in detention_keywords text in
  statistics <- _extract_statistics text ;;
  let topics :=
    (if mentions_detention then ["detention"] else [])
      ++ (if mentions_indigenous then ["indigenous"] else [])
      ++ (if mentions_spending then ["spending"] else []) in
  let indigenous_detention_highlight :=
    if mentions_indigenous && mentions_detention
    then existsb (fun pattern => found pattern text) rate_patterns
    else false in
  let spending_flag :=
    if mentions_spending then found spending_amount_pattern text else false in
  Ok {| analysed := question_data;
        mentions_indigenous := mentions_indigenous;
        mentions_spending := mentions_spending;
        mentions_detention := mentions_detention;
        topics := topics;
        indigenous_detention_highlight := indigenous_detention_highlight;
        spending_flag := spending_flag;
        statistics := statistics |}.

(** *** [generate_summary_report] *)

(** [counts[key] = counts.get(key, 0) + 1] *)
Fixpoint count_add (key : string) (counts : list (string * nat)) : list (string * nat) :=
  match counts with
  | [] => [(key, 1)]
  | (k, n) :: rest =>
      if String.eqb k key then (k, S n) :: rest else (k, n) :: count_add key rest
  end.

Definition count_by (key_of : Analysis -> string) (questions : list Analysis)
  : list (string * nat) :=
  fold_left (fun counts q => count_add (key_of q) counts) questions [].

(** [sorted(items, key=lambda x: x[1], reverse=True)]: the sort is stable, also
    when reversed, so items with the same count keep their order. *)
Fixpoint insert_desc (x : string * nat) (sorted : list (string * nat))
  : list (string * nat) :=
  match sorted with
  | [] => [x]
  | y :: rest => if snd y <? snd x then x :: sorted else y :: insert_desc x rest
  end.

Definition sorted_desc (items : list (string * nat)) : list (string * nat) :=
  fold_left (fun sorted x => insert_desc x sorted) items [].

Record Summary : Type := {
  total_questions : nat;
  indigenous_count : nat;
  spending_count : nat;
  detention_count : nat;
  indigenous_detention_rates : nat;
  spending_related : nat;
  top_askers : list (string * nat);
  top_ministers : list (string * nat);
  statistics_found : nat;
  sample_statistics : list Statistic
}.

Definition generate_summary_report (questions : list Analysis) : Summary :=
  let all_statistics := flat_map statistics questions in
  {| total_questions := List.length questions;
     indigenous_count := List.length (filter mentions_indigenous questions);
     spending_count := List.length (filter mentions_spending questions);
     detention_count := List.length (filter mentions_detention questions);
     indigenous_detention_rates :=
       List.length (filter indigenous_detention_highlight questions);
     spending_related := List.length (filter spending_flag questions);
     top_askers :=
       firstn 5 (sorted_desc
                   (count_by (fun q => Alloc.get (mp_name (analysed q)) "Unknown")
                             questions));
     top_ministers :=
       firstn 5 (sorted_desc
                   (count_by (fun q => Alloc.get (minister (analysed q)) "Unknown")
                             questions));
     statistics_found := List.length all_statistics;
     sample_statistics := firstn 10 all_statistics |}.

End QoN.

(** ** BudgetScraper *)

Module Budget.
Import Py Re.

Definition youth_justice_keywords : list string :=
  [ "youth justice"; "youth detention"; "cleveland youth detention";
    "west moreton youth detention"; "youth crime"; "community youth justice";
    "supervised community accommodation"; "youth engagement";
    "restorative justice" ].

(** A table row of [extract_tables]: header text to cell text, in column
    order. *)
Definition Row : Type := list (string * string).

Definition values (row : Row) : list string := map snd row.

Fixpoint lookup (key : string) (row : Row) : option string :=
  match row with
  | [] => None
  | (k, v) :: row' => if String.eqb k key then Some v else lookup key row'
  end.

(** *** [_extract_amount]; the pattern is the one of the Treasury scraper *)

Definition amount_pattern : regex := Treasury.amount_pattern.

Fixpoint extract_amount_loop (vals : list string) : result (option Q) :=
  match vals with
  | [] => Ok None
  | value :: rest =>
      match search amount_pattern value with
      | Some m =>
          let amount_str := remove_commas (group_of 1 m) in
          amount <- float amount_str ;;
          if str_in "million" (lower value) || str_in "m" (lower value)
          then Ok (Some (amount * 1000000)%Q)
          else if str_in "thousand" (lower value) || str_in "k" (lower value)
          then Ok (Some (amount * 1000)%Q)
          else Ok (Some amount)
      | None => extract_amount_loop rest
      end
  end.

Definition _extract_amount (row : Row) : result (option Q) :=
  extract_amount_loop (values row).

(** *** [_scrape_department_page], from the tables of the fetched page on *)

Inductive Item : Type :=
| PdfLink (url title year : string)
| RowItem (source : string) (data : Row) (amount : Q).

Fixpoint rows_loop (url : string) (rows : list Row) (results : list Item)
  : result (list Item) :=
  match rows with
  | [] => Ok results
  | row :: rows' =>
      let row_text := join_space (map lower (values row)) in
      if any_in youth_justice_keywords row_text then
        amount <- _extract_amount row ;;
        match amount with
        | Some a =>
            if truthy a then rows_loop url rows' (results ++ [RowItem url row a])
            else rows_loop url rows' results
        | None => rows_loop url rows' results
        end
      else rows_loop url rows' results
  end.

Fixpoint department_tables_loop (url : string) (tables : list (list Row))
         (results : list Item) : result (list Item) :=
  match tables with
  | [] => Ok results
  | table :: tables' =>
      results <- rows_loop url table results ;;
      department_tables_loop url tables' results
  end.

Definition base_url : string := "https://budget.qld.gov.au".

Definition _scrape_department_page (url : string) (tables : list (list Row))
  : result (list Item) :=
  let url := if startswith "http" url then url else (base_url ++ url)%string in
  department_tables_loop url tables [].

(** *** [str(row)]: the [repr] of a dictionary of strings *)

Definition quote : ascii := ascii_of_nat 39.
Definition dquote : ascii := ascii_of_nat 34.
Definition backslash : ascii := ascii_of_nat 92.

Definition hex_digit (n : nat) : ascii :=
  if n <? 10 then ascii_of_nat (48 + n) else ascii_of_nat (87 + n).

Definition printable (c : ascii) : bool :=
  negb (code c <? 32) && negb (in_range 127 160 c) && negb (code c =? 173).

Definition repr_char (q c : ascii) : string :=
  if Ascii.eqb c q || Ascii.eqb c backslash then String backslash (String c EmptyString)
  else if code c =? 9 then String backslash "t"
  else if code c =? 10 then String backslash "n"
  else if code c =? 13 then String backslash "r"
  else if printable c then String c EmptyString
  else String backslash
              (String "x" (String (hex_digit (code c / 16))
                                  (String (hex_digit (code c mod 16)) EmptyString))).

Fixpoint repr_body (q : ascii) (s : string) : string :=
  match s with
  | EmptyString => EmptyString
  | String c s' => (repr_char q c ++ repr_body q s')%string
  end.

Definition repr (s : string) : string :=
  let q := if has_char quote s && negb (has_char dquote s) then dquote else quote in
  String q (repr_body q s ++ String q EmptyString)%string.

Fixpoint repr_items (row : Row) : string :=
  match row with
  | [] => EmptyString
  | [(k, v)] => (repr k ++ ": " ++ repr v)%string
  | (k, v) :: row' => (repr k ++ ": " ++ repr v ++ ", " ++ repr_items row')%string
  end.

Definition str_of_row (row : Row) : string := ("{" ++ repr_items row ++ "}")%string.

(** *** [_extract_program_name] *)

Definition is_amount_char (c : ascii) : bool :=
  is_digit c || Ascii.eqb c "$" || Ascii.eqb c "," || Ascii.eqb c ".".

(** [re.match(r'^[\d\$,\.]+$', s)] on a stripped string *)
Definition numeric_only (s : string) : bool :=
  negb (is_empty s) && is_empty (snd (span is_amount_char s)).

Definition _extract_program_name (row : Row) : string :=
  match find_first (fun key => lookup key row)
                   ["program"; "service"; "initiative"; "description"] with
  | Some v => v
  | None =>
      match find (fun value => negb (numeric_only (strip value))) (values row) with
      | Some value => value
      | None => "Unknown Program"
      end
  end.

(** *** [parse_youth_justice_allocations] *)

Definition category_of (row_str : string) : string :=
  if any_in ["detention"; "cleveland"; "west moreton"] (lower row_str)
  then "detention" else "community".

Fixpoint parse_youth_justice_allocations (data : list Item) : list Alloc.t :=
  match data with
  | [] => []
  | PdfLink _ _ _ :: rest => parse_youth_justice_allocations rest
  | RowItem source row amount :: rest =>
      {| Alloc.fiscal_year := "2024-25";
         Alloc.program := _extract_program_name row;
         Alloc.category := category_of (str_of_row row);
         Alloc.amount := amount;
         Alloc.description := str_of_row row;
         Alloc.source_type := None;
         Alloc.department := Some "Department of Youth Justice";
         Alloc.source_url := Some source;
         Alloc.source_document := Some "Budget Paper" |}
        :: parse_youth_justice_allocations rest
  end.

(** *** [save_to_database] *)

(** [BudgetAllocation(alloc)], the dictionary unpacked into keyword
    arguments: a key that is no column is a [TypeError]. *)
Definition of_dict (alloc : Alloc.t) : result Db.BudgetAllocation :=
  match Alloc.source_type alloc with
  | Some _ => Raise TypeError
  | None =>
      Ok {| Db.fiscal_year := Alloc.fiscal_year alloc;
            Db.department := Alloc.department alloc;
            Db.program := Alloc.program alloc;
            Db.category := Some (Alloc.category alloc);
            Db.amount := Alloc.amount alloc;
            Db.description := Some (Alloc.description alloc);
            Db.source_url := Alloc.source_url alloc;
            Db.source_document := Alloc.source_document alloc |}
  end.

Fixpoint add_loop (allocations : list Alloc.t) (db : Db.Session)
  : Db.Session * option exn :=
  match allocations with
  | [] => (db, None)
  | alloc :: rest =>
      match of_dict alloc with
      | Raise e => (db, Some e)
      | Ok db_allocation => add_loop rest (Db.add db db_allocation)
      end
  end.

(** The SQLAlchemy part (lines 165-178): the table after it. *)
Definition save_to_sqlite (E : Db.Engine) (table : list Db.BudgetAllocation)
           (allocations : list Alloc.t) : list Db.BudgetAllocation :=
  let db := Db.get_db table in
  let db :=
    match add_loop allocations db with
    | (db, Some e) => Db.rollback db
    | (db, None) =>
        match Db.commit E db with
        | (db, Some e) => Db.rollback db
        | (db, None) => db
        end
    end in
  Db.close db.

(** Both stores.  [supabase] is [None] when no client is configured. *)
Record Stores : Type := {
  sqlite : list Db.BudgetAllocation;
  supabase : option (list Supabase.record)
}.

Definition save_to_database (E : Db.Engine) (supabase_raises : Supabase.record -> bool)
           (stores : Stores) (allocations : list Alloc.t) : Stores :=
  {| sqlite := save_to_sqlite E (sqlite stores) allocations;
     supabase :=
       match supabase stores with
       | Some table =>
           Some (fold_left (Supabase.insert_budget_allocation supabase_raises)
                           allocations table)
       | None => None
       end |}.

End Budget.

(** ** CostAnalyzer: [calculate_spending_split] *)

Module Cost.
Import Py.

Definition detention_daily_cost : Q := 857.
Definition community_daily_cost : Q := 41.
Definition cost_ratio : Q := detention_daily_cost / community_daily_cost.

Record Split : Type := {
  detention_total : Q;
  community_total : Q;
  total_budget : Q;
  detention_percentage : Q;
  community_percentage : Q
}.

Definition in_category (c : string) (a : Db.BudgetAllocation) : bool :=
  match Db.category a with
  | Some c' => String.eqb c' c
  | None => false
  end.

Definition calculate_spending_split (table : list Db.BudgetAllocation) : Split :=
  let allocations :=
    filter (fun a => String.eqb (Db.fiscal_year a) "2024-25") table in
  let detention_total :=
    sum (map Db.amount (filter (in_category "detention") allocations)) in
  let community_total :=
    sum (map Db.amount (filter (in_category "community") allocations)) in
  let total_budget := (detention_total + community_total)%Q in
  let percentages :=
    if Qltb 0 total_budget
    then ((detention_total / total_budget) * 100,
          (community_total / total_budget) * 100)%Q
    else (90.6%Q, 9.4%Q) in
  {| detention_total := detention_total;
     community_total := community_total;
     total_budget := total_budget;
     detention_percentage := fst percentages;
     community_percentage := snd percentages |}.

End Cost.

(** ** CostAnalyzer: [calculate_alternative_scenarios] and [project_savings] *)

Module Scenarios.
Import Py.

Record Scenario : Type := {
  name : string;
  detention_percentage : Q;
  community_percentage : Q;
  detention_budget : Q;
  community_budget : Q;
  youth_days_detention : Q;
  youth_days_community : Q;
  total_youth_days : Q;
  capacity_increase_pct : option Q     (* the key is absent from [current] *)
}.

Definition current (total_budget : Q) : Scenario :=
  let youth_days_detention := (total_budget * 0.906 / Cost.detention_daily_cost)%Q in
  let youth_days_community := (total_budget * 0.094 / Cost.community_daily_cost)%Q in
  {| name := "Current Allocation";
     detention_percentage := 90.6;
     community_percentage := 9.4;
     detention_budget := total_budget * 0.906;
     community_budget := total_budget * 0.094;
     youth_days_detention := youth_days_detention;
     youth_days_community := youth_days_community;
     total_youth_days := youth_days_detention + youth_days_community;
     capacity_increase_pct := None |}.

(** One pass of the loop over [80, 70, 60, 50, 40, 30]; dividing by a zero
    [current['total_youth_days']] raises [ZeroDivisionError], here [None]. *)
Definition progressive (total_budget : Q) (current : Scenario) (detention_pct : nat)
  : option Scenario :=
  let community_pct := 100 - detention_pct in
  let d := inject_Z (Z.of_nat detention_pct) in
  let c := inject_Z (Z.of_nat community_pct) in
  let youth_days_detention := (total_budget * (d / 100) / Cost.detention_daily_cost)%Q in
  let youth_days_community := (total_budget * (c / 100) / Cost.community_daily_cost)%Q in
  let total := (youth_days_detention + youth_days_community)%Q in
  if Qeq_bool (total_youth_days current) 0 then None
  else
    Some {| name := (str_of_nat detention_pct ++ "% Detention / "
                     ++ str_of_nat community_pct ++ "% Community")%string;
            detention_percentage := d;
            community_percentage := c;
            detention_budget := total_budget * (d / 100);
            community_budget := total_budget * (c / 100);
            youth_days_detention := youth_days_detention;
            youth_days_community := youth_days_community;
            total_youth_days := total;
            capacity_increase_pct :=
              Some ((total - total_youth_days current) / total_youth_days current * 100)%Q |}.

Fixpoint progressive_loop (total_budget : Q) (current : Scenario) (pcts : list nat)
  : option (list Scenario) :=
  match pcts with
  | [] => Some []
  | pct :: rest =>
      match progressive total_budget current pct with
      | None => None
      | Some scenario =>
          match progressive_loop total_budget current rest with
          | None => None
          | Some more => Some (scenario :: more)
          end
      end
  end.

(** [None] stands for the [ZeroDivisionError]. *)
Definition calculate_alternative_scenarios (total_budget : Q) : option (list Scenario) :=
  let current := current total_budget in
  match progressive_loop total_budget current [80; 70; 60; 50; 40; 30] with
  | None => None
  | Some more => Some (current :: more)
  end.

End Scenarios.

Module Projection.
Import Py.

Record Projection : Type := {
  year : nat;
  detention_percentage : Q;
  community_percentage : Q;
  total_youth_served : Q;
  successful_outcomes : Q;
  cost_savings : Q;
  cumulative_savings : Q
}.

Definition project_year (total_budget : Q) (projections : list Projection) (year : nat)
  : Projection :=
  let detention_pct := max2 40 (90.6 - inject_Z (Z.of_nat year) * 5)%Q in
  let community_pct := (100 - detention_pct)%Q in
  let detention_budget := (total_budget * (detention_pct / 100))%Q in
  let community_budget := (total_budget * (community_pct / 100))%Q in
  let youth_days_detention := (detention_budget / Cost.detention_daily_cost)%Q in
  let youth_days_community := (community_budget / Cost.community_daily_cost)%Q in
  let detention_successes := (youth_days_detention / 45 * 0.30)%Q in
  let community_successes := (youth_days_community / 90 * 0.55)%Q in
  let total_successes := (detention_successes + community_successes)%Q in
  let reoffending_cost_saved := ((community_successes - detention_successes) * 150000)%Q in
  let saved := if 0 <? year then reoffending_cost_saved else 0%Q in
  {| year := year;
     detention_percentage := detention_pct;
     community_percentage := community_pct;
     total_youth_served := youth_days_detention / 45 + youth_days_community / 90;
     successful_outcomes := total_successes;
     cost_savings := saved;
     cumulative_savings := sum (map cost_savings projections) + saved |}.

(** The loop [for year in range(years + 1)], with the projections built so
    far. *)
Fixpoint project_loop (total_budget : Q) (projections : list Projection)
         (year todo : nat) : list Projection :=
  match todo with
  | O => projections
  | S todo' =>
      project_loop total_budget
                   (projections ++ [project_year total_budget projections year])
                   (S year) todo'
  end.

(** [current_split['total_budget'] or 500_000_000] *)
Definition budget_or_estimate (total_budget : Q) : Q :=
  if truthy total_budget then total_budget else 500000000%Q.

Definition project_savings (table : list Db.BudgetAllocation) (years : nat)
  : list Projection :=
  let current_split := Cost.calculate_spending_split table in
  let total_budget := budget_or_estimate (Cost.total_budget current_split) in
  project_loop total_budget [] 0 (years + 1).

End Projection.

(** ** The Amount Normalizer as the specification words it

    Section 4.2: locate numeric tokens optionally preceded by a currency marker
    and optionally followed by a magnitude word ([million]/[m],
    [thousand]/[k]); strip thousands separators; parse the mantissa; multiply
    by the magnitude; of several tokens take the largest normalized value;
    return [(amount, found)], with [found = false] when no numeric token
    parses.  This is the reading the extraction code is compared with. *)

Module SpecNormalizer.
Import Py Re.

(** A numeric token and, in group 2, the magnitude word that follows it. *)
Definition token_pattern : regex :=
  seq [ opt (lit "$");
        Group 1 (Seq (plus Treasury.is_digit_or_comma)
                     (opt (Seq (lit ".") (plus is_digit))));
        star is_space;
        opt (Group 2 (words false ["million"; "m"; "thousand"; "k"])) ].

Definition magnitude (word : option string) : Q :=
  match word with
  | Some w =>
      if String.eqb w "million" || String.eqb w "m" then 1000000%Q
      else if String.eqb w "thousand" || String.eqb w "k" then 1000%Q
      else 1%Q
  | None => 1%Q
  end.

(** Mantissa times its own magnitude; [None] when the mantissa does not parse. *)
Definition token_value (m : Match) : option Q :=
  match float (remove_commas (group_of 1 m)) with
  | Ok v => Some (v * magnitude (group 2 (m_groups m)))%Q
  | Raise _ => None
  end.

Fixpoint token_values (ms : list Match) : list Q :=
  match ms with
  | [] => []
  | m :: ms' =>
      match token_value m with
      | Some v => v :: token_values ms'
      | None => token_values ms'
      end
  end.

Definition qmax (x y : Q) : Q := if Qltb x y then y else x.

Definition normalize (text : string) : Q * bool :=
  match token_values (finditer token_pattern text) with
  | [] => (0%Q, false)
  | v :: vs => (fold_left qmax vs v, true)
  end.

End SpecNormalizer.

(** ** Definitions used to state the properties *)

Import Py Re.

(** An allocation of the given category and amount, as the aggregator sees it. *)
Definition allocation_of (category : string) (amount : Q) : Alloc.t :=
  {| Alloc.fiscal_year := "2024-25";
     Alloc.program := "Youth justice services";
     Alloc.category := category;
     Alloc.amount := amount;
     Alloc.description := EmptyString;
     Alloc.source_type := None;
     Alloc.department := None;
     Alloc.source_url := None;
     Alloc.source_document := None |}.


(** The fallback percentages written in the two aggregators. *)
Definition treasury_fallback : Q * Q := (0%Q, 0%Q).
Definition known_percentages : Q * Q := (90.6%Q, 9.4%Q).

(** The natural key of a candidate is not in the table yet. *)
Definition is_new (table : list Db.BudgetAllocation) (a : Alloc.t) : bool :=
  negb (existsb (Db.same_key (Alloc.fiscal_year a) (Alloc.program a) (Alloc.amount a))
                table).

(** The rows [TreasuryBudgetScraper.save_to_database] adds for a batch. *)
Definition new_rows (table : list Db.BudgetAllocation) (batch : list Alloc.t)
  : list Db.BudgetAllocation :=
  map Treasury.to_row (filter (is_new table) batch).

Definition select_ok (E : Db.Engine) (a : Alloc.t) : bool :=
  negb (Db.select_raises E (Alloc.fiscal_year a) (Alloc.program a) (Alloc.amount a)).

Definition insert_ok (E : Db.Engine) (r : Db.BudgetAllocation) : bool :=
  negb (Db.insert_raises E r).

(** No statement of the Treasury writer is refused for this batch. *)
Definition treasury_accepts (E : Db.Engine) (table : list Db.BudgetAllocation)
           (batch : list Alloc.t) : bool :=
  forallb (select_ok E) batch && forallb (insert_ok E) (new_rows table batch).

(** The rows [BudgetScraper.save_to_database] builds, when every dictionary
    has only column keys. *)
Fixpoint budget_rows (batch : list Alloc.t) : option (list Db.BudgetAllocation) :=
  match batch with
  | [] => Some []
  | a :: rest =>
      match Budget.of_dict a, budget_rows rest with
      | Ok r, Some rs => Some (r :: rs)
      | _, _ => None
      end
  end.

(** One department page with one youth-justice row, and what the
    BudgetScraper pipeline extracts from it. *)
Definition sample_page : list (list Budget.Row) :=
  [[ [("Program", "Youth justice services"); ("Budget", "$450")] ]].

Definition sample_batch : list Alloc.t :=
  match Budget._scrape_department_page "https://budget.qld.gov.au/dept" sample_page with
  | Ok items => Budget.parse_youth_justice_allocations items
  | Raise _ => []
  end.

Definition empty_stores : Budget.Stores :=
  {| Budget.sqlite := []; Budget.supabase := None |}.

(** The amount of the allocation a row yields, in lowest terms. *)
Definition amount_extracted (r : result (option Alloc.t)) : result (option Q) :=
  match r with
  | Ok (Some a) => Ok (Some (Qred (Alloc.amount a)))
  | Ok None => Ok None
  | Raise e => Raise e
  end.

(** A budget table: a header, a row whose only separator is a comma, and a
    row with a figure. *)
Definition table_with_comma_row : Treasury.Table :=
  [ [Some "Program"; Some "Budget $"];
    [Some "Youth justice, detention services"; None];
    [Some "Youth detention centre upgrade"; Some "450"] ].

Definition table_without_comma_row : Treasury.Table :=
  [ [Some "Program"; Some "Budget $"];
    [Some "Youth detention centre upgrade"; Some "450"] ].

(** *** Greedy readings of the amount patterns, used in the proofs *)

(** Every character of [s] is in the class [p]. *)
Fixpoint all_in (p : ascii -> bool) (s : string) : bool :=
  match s with
  | EmptyString => true
  | String c s' => p c && all_in p s'
  end.

(** [s] does not go on with a character of the class [p]. *)
Definition stops (p : ascii -> bool) (s : string) : bool :=
  match s with
  | EmptyString => true
  | String c _ => negb (p c)
  end.

(** The greedy reading of [[\d,]+(?:\.\d+)?] at the head of [s]: the mantissa
    and the text after it. *)
Definition greedy_mantissa (s : string) : option (string * string) :=
  let n := run_length Treasury.is_digit_or_comma s in
  if n =? 0 then None
  else
    match drop n s with
    | String c r =>
        if Ascii.eqb "." c && negb (run_length is_digit r =? 0)
        then Some (take (n + 1 + run_length is_digit r) s,
                   drop (run_length is_digit r) r)
        else Some (take n s, drop n s)
    | EmptyString => Some (take n s, EmptyString)
    end.

(** The first word of [ws] that [s] starts with, and the text after it. *)
Fixpoint first_word (ws : list string) (s : string) : option (string * string) :=
  match ws with
  | [] => None
  | w :: ws' =>
      if startswith w s then Some (w, drop (String.length w) s)
      else first_word ws' s
  end.

Definition total {R : Type} (k : string -> captures -> option R) : Prop :=
  forall s caps, k s caps <> None.

(** The greedy reading of the Treasury amount pattern at the head of [s],
    after the optional dollar sign and from the dollar sign on. *)
Definition amount_body (s : string) : option (captures * string) :=
  match greedy_mantissa s with
  | None => None
  | Some (m, r) =>
      let r1 := drop (run_length is_space r) r in
      match first_word ["million"; "m"; "thousand"; "k"] r1 with
      | Some (_, r2) => Some ([(1, m)], r2)
      | None => Some ([(1, m)], r1)
      end
  end.

Definition greedy_amount (s : string) : option (captures * string) :=
  amount_body (if startswith "$" s then drop 1 s else s).

(** The greedy reading of the dollar pattern of the statistic extractor. *)
Definition greedy_dollar (s : string) : option (captures * string) :=
  match s with
  | String c s1 =>
      if Ascii.eqb "$" c then
        match greedy_mantissa (drop (run_length is_space s1) s1) with
        | None => None
        | Some (m, r) =>
            let r1 := drop (run_length is_space r) r in
            match first_word ["million"; "billion"; "thousand"] r1 with
            | Some (w, r2) => Some ([(2, w); (1, m)], r2)
            | None => Some ([(1, m)], r1)
            end
        end
      else None
  | EmptyString => None
  end.

Definition accept : string -> captures -> option (captures * string) :=
  fun rest caps => Some (caps, rest).

(** A run of digits and commas, then possibly a point and digits. *)
Definition mantissa_shaped (m : string) : Prop :=
  exists run frac,
    m = (run ++ frac)%string
    /\ run <> EmptyString
    /\ all_in Treasury.is_digit_or_comma run = true
    /\ (frac = EmptyString
        \/ exists ds, frac = String "." ds /\ ds <> EmptyString
                      /\ all_in is_digit ds = true).

(** What may follow a mantissa without becoming part of it. *)
Definition boundary (tail : string) : Prop :=
  stops Treasury.is_digit_or_comma tail = true
  /\ stops (Ascii.eqb ".") tail = true.







(** The count of section 4.3 of the specification: the occurrences of the
    keywords of a list in a text, every occurrence counted, where
    [_categorize_program] counts a keyword once however often it occurs. *)
Fixpoint occurrences_of (keyword text : string) : nat :=
  (if startswith keyword text then 1 else 0)
  + match text with
    | EmptyString => 0
    | String _ text' => occurrences_of keyword text'
    end.

Definition occurrences (keywords : list string) (text : string) : nat :=
  list_sum (map (fun keyword => occurrences_of keyword text) keywords).

(** A Supabase table that refuses the community records and takes the rest. *)
Definition refuses_community (r : Supabase.record) : bool :=
  String.eqb (Supabase.category r) "community".

(** A batch of two allocations for the budget scraper's writer. *)
Definition two_allocations : list Alloc.t :=
  [allocation_of "detention" 100; allocation_of "community" 50].

(** A character that cannot start or continue a mantissa. *)
Definition no_digit_or_comma (c : ascii) : bool := negb (Treasury.is_digit_or_comma c).
(** *** What it means for a text to match a pattern

    [matches r x caps caps']: the pattern [r] can consume exactly the text [x],
    turning the groups [caps] into [caps']. *)

Inductive matches : regex -> string -> captures -> captures -> Prop :=
| matches_Eps caps : matches Eps EmptyString caps caps
| matches_Lit (ignorecase : bool) w x caps :
    String.length x = String.length w ->
    (if ignorecase then startswith_nocase w x else startswith w x) = true ->
    matches (Lit ignorecase w) x caps caps
| matches_Cls p c caps :
    p c = true -> matches (Cls p) (String c EmptyString) caps caps
| matches_Seq a b x y caps0 caps1 caps2 :
    matches a x caps0 caps1 -> matches b y caps1 caps2 ->
    matches (Seq a b) (x ++ y) caps0 caps2
| matches_Alt_left a b x caps0 caps1 :
    matches a x caps0 caps1 -> matches (Alt a b) x caps0 caps1
| matches_Alt_right a b x caps0 caps1 :
    matches b x caps0 caps1 -> matches (Alt a b) x caps0 caps1
| matches_Rep greedy p lo hi x caps :
    all_in p x = true ->
    lo <= String.length x ->
    match hi with Some h => String.length x <= h | None => True end ->
    matches (Rep greedy p lo hi) x caps caps
| matches_Group i a x caps0 caps1 :
    matches a x caps0 caps1 -> matches (Group i a) x caps0 ((i, x) :: caps1).

(** *** Grouping and counting *)

Definition of_year (year : string) (a : Alloc.t) : bool :=
  String.eqb (Alloc.fiscal_year a) year.

(** The groups hold, year by year, the allocations of [seen] in their order. *)
Definition groups_of (seen : list Alloc.t) (by_year : list (string * list Alloc.t)) : Prop :=
  NoDup (map fst by_year)
  /\ (forall year allocs, In (year, allocs) by_year ->
                          allocs <> [] /\ allocs = filter (of_year year) seen)
  /\ (forall a, In a seen -> In (Alloc.fiscal_year a) (map fst by_year)).

(** The number of questions whose key is [name]. *)
Definition questions_by (key_of : QoN.Analysis -> string) (name : string)
           (questions : list QoN.Analysis) : nat :=
  List.length (filter (fun q => String.eqb (key_of q) name) questions).

Definition counts_of (key_of : QoN.Analysis -> string) (seen : list QoN.Analysis)
           (counts : list (string * nat)) : Prop :=
  NoDup (map fst counts)
  /\ (forall name n, In (name, n) counts ->
                     0 < n /\ n = questions_by key_of name seen)
  /\ (forall q, In q seen -> In (key_of q) (map fst counts)).

Definition asker (q : QoN.Analysis) : string :=
  Alloc.get (QoN.mp_name (QoN.analysed q)) "Unknown".

Definition answering_minister (q : QoN.Analysis) : string :=
  Alloc.get (QoN.minister (QoN.analysed q)) "Unknown".

(** [a] comes before [b] in a list ordered by falling count. *)
Definition count_not_below (a b : string * nat) : Prop := snd b <= snd a.

(** A ranking of the keys of the questions: at most five entries with
    distinct names, by falling count, each with the number of its questions,
    and no key left out has more questions than a listed one. *)
Definition ranks (key_of : QoN.Analysis -> string) (questions : list QoN.Analysis)
           (top : list (string * nat)) : Prop :=
  List.length top <= 5
  /\ NoDup (map fst top)
  /\ StronglySorted count_not_below top
  /\ (forall name n, In (name, n) top ->
                     0 < n /\ n = questions_by key_of name questions)
  /\ (forall q, In q questions ->
                In (key_of q) (map fst top)
                \/ (List.length top = 5
                    /\ forall entry, In entry top ->
                                     questions_by key_of (key_of q) questions <= snd entry)).

(** *** What a group can hold *)

(** The text [g] can be what group [i] of the pattern [r] captured. *)
Fixpoint captured (r : regex) (i : nat) (g : string) : Prop :=
  match r with
  | Seq a b => captured a i g \/ captured b i g
  | Alt a b => captured a i g \/ captured b i g
  | Group j a => (i = j /\ exists caps caps', matches a g caps caps') \/ captured a i g
  | _ => False
  end.

(** [g] is a part of [s]. *)
Definition part_of (g s : string) : Prop :=
  exists before after, s = (before ++ g ++ after)%string.

(** A string without white space at either end. *)
Definition stripped (s : string) : Prop := strip s = s.

(** *** Well-formed allocations *)

(** What every allocation of the Treasury scraper satisfies: the requested
    fiscal year, one of the two categories, an amount that is not negative, a
    program name of at most 100 characters and one of the two source types. *)
Definition well_formed (fiscal_year : string) (a : Alloc.t) : Prop :=
  Alloc.fiscal_year a = fiscal_year
  /\ (Alloc.category a = "detention" \/ Alloc.category a = "community")
  /\ (0 <= Alloc.amount a)%Q
  /\ String.length (Alloc.program a) <= 100
  /\ (Alloc.source_type a = Some "budget_table"
      \/ Alloc.source_type a = Some "budget_text").

(** The row mentions a youth justice keyword. *)
Definition keyword_row (row : list (option string)) : bool :=
  any_in Treasury.youth_justice_keywords (lower (Treasury.row_text_of row)).

(** The data row [row] yields the allocation [a]. *)
Definition row_yields (fiscal_year : string) (row : list (option string)) (a : Alloc.t)
  : Prop :=
  keyword_row row = true
  /\ Treasury._extract_allocation_from_row row (Treasury.row_text_of row) fiscal_year
     = Ok (Some a).

(** The data row [row] makes the extraction fail. *)
Definition row_fails (fiscal_year : string) (row : list (option string)) : Prop :=
  keyword_row row = true
  /\ exists e,
      Treasury._extract_allocation_from_row row (Treasury.row_text_of row) fiscal_year
      = Raise e.

(** A character that does not end a sentence. *)
Definition within_sentence (c : ascii) : bool := negb (Treasury.is_sentence_end c).

(** A whole number of millions of dollars. *)
Definition whole_millions (amount : Q) : Prop :=
  exists n : Z, (0 <= n)%Z /\ amount = ((n # 1) * 1000000)%Q.

(** The sentence [sentence] of a page yields the allocation [a]. *)
Definition sentence_yields (fiscal_year sentence : string) (a : Alloc.t) : Prop :=
  any_in Treasury.youth_justice_keywords (lower sentence) = true
  /\ all_in within_sentence sentence = true
  /\ Alloc.description a = strip sentence
  /\ Alloc.program a = Treasury._extract_program_name sentence
  /\ Alloc.category a = Treasury._categorize_program sentence
  /\ Alloc.fiscal_year a = fiscal_year
  /\ Alloc.source_type a = Some "budget_text"
  /\ whole_millions (Alloc.amount a).

(** The text of a page: [page.extract_text()], or the empty text. *)
Definition text_of_page (page : Treasury.Page) : string :=
  match Treasury.page_text page with
  | Some t => t
  | None => EmptyString
  end.

Definition keyword_page (page : Treasury.Page) : bool :=
  any_in Treasury.youth_justice_keywords (lower (text_of_page page)).

(** Where an allocation of a document comes from: a data row of a table, or
    a sentence of the text, of a page that mentions a keyword. *)
Definition allocation_origin (fiscal_year : string) (pages : list Treasury.Page)
           (a : Alloc.t) : Prop :=
  exists page,
    In page pages /\ keyword_page page = true
    /\ ((exists table row,
            In table (Treasury.page_tables page) /\ In row (tl table)
            /\ row_yields fiscal_year row a)
        \/ (exists sentence,
               part_of sentence (text_of_page page)
               /\ sentence_yields fiscal_year sentence a)).

(** The text of the page makes [_extract_text_allocations] fail. *)
Definition page_fails (fiscal_year : string) (page : Treasury.Page) : Prop :=
  keyword_page page = true
  /\ exists e, Treasury._extract_text_allocations (text_of_page page) fiscal_year = Raise e.

(** The allocation carries the metadata of the PDF it was read from. *)
Definition carries (pdf : Treasury.PdfInfo) (a : Alloc.t) : Prop :=
  Alloc.department a = Some (Treasury.pdf_department pdf)
  /\ Alloc.source_url a = Some (Treasury.pdf_url pdf)
  /\ Alloc.source_document a = Some (Treasury.pdf_title pdf)
  /\ well_formed (Treasury.pdf_fiscal_year pdf) a.

(** The text pattern after its optional dollar sign. *)
Definition text_amount_body : regex :=
  Seq (Group 1 (Seq (plus Treasury.is_digit_or_comma)
                    (opt (Seq (lit ".") (plus is_digit)))))
      (Seq (star is_space) (words false ["million"; "m"])).

(** *** Statistics *)

Definition is_comma (c : ascii) : bool := Ascii.eqb c ",".

(** A dollar sign, white space, and commas without a digit: the text the
    dollar scan cannot read. *)
Definition comma_amount (sp commas : string) : Prop :=
  all_in is_space sp = true /\ commas <> EmptyString /\ all_in is_comma commas = true.

(** What every statistic found in [text] satisfies. *)
Definition statistic_of (text : string) (s : QoN.Statistic) : Prop :=
  In (QoN.stat_type s) ["percentage"; "amount"; "rate"]
  /\ (0 <= QoN.value s)%Q
  /\ part_of (QoN.context s) text.

(** The text has a dollar sign directly followed by a digit or a comma. *)
Definition dollar_figure (text : string) : Prop :=
  exists c, Treasury.is_digit_or_comma c = true
            /\ str_in (String "$" (String c EmptyString)) text = true.

(** *** The budget scraper *)

(** The row [row] of a department page mentions a keyword. *)
Definition keyword_item (row : Budget.Row) : bool :=
  any_in Budget.youth_justice_keywords (join_space (map lower (Budget.values row))).

(** An item of a department page: a row of one of its tables that mentions a
    keyword, with a positive amount and the absolute address of the page. *)
Definition page_item (tables : list (list Budget.Row)) (item : Budget.Item) : Prop :=
  match item with
  | Budget.RowItem source row amount =>
      startswith "http" source = true
      /\ In row (List.concat tables)
      /\ keyword_item row = true
      /\ Budget._extract_amount row = Ok (Some amount)
      /\ (0 < amount)%Q
  | Budget.PdfLink _ _ _ => False
  end.

(** The record [insert_budget_allocation] builds from a dictionary. *)
Definition mirror_record (data : Alloc.t) : Supabase.record :=
  {| Supabase.fiscal_year := Alloc.fiscal_year data;
     Supabase.department := Alloc.department data;
     Supabase.program := Alloc.program data;
     Supabase.category := Alloc.category data;
     Supabase.amount := Alloc.amount data;
     Supabase.description := Alloc.description data;
     Supabase.source_url := Alloc.source_url data;
     Supabase.source_document := Alloc.source_document data |}.

(** A small letter or a space, and a character whose lower case is one. *)
Definition word_char_lower (c : ascii) : bool := in_range 97 122 c || Ascii.eqb c " ".

Definition word_char (c : ascii) : bool := word_char_lower (lower_char c).

Definition category_words : list string := ["detention"; "cleveland"; "west moreton"].

(** An engine that refuses every insert. *)
Definition refusing : Db.Engine :=
  {| Db.select_raises := fun _ _ _ => false; Db.insert_raises := fun _ => true |}.

(** A question on notice with the given question text and no answer yet. *)
Definition question_of (text : string) : QoN.Question :=
  {| QoN.question_number := None;
     QoN.mp_name := None;
     QoN.minister := None;
     QoN.question := Some text;
     QoN.answer := None;
     QoN.url := None |}.

(** * Properties *)

(** A fact about one character, settled by running through all 256. *)
Ltac by_character c :=
  destruct c as [[] [] [] [] [] [] [] []]; vm_compute; congruence.

(** ** The category classifier *)

Lemma categorize_cases (text : string) :
  Treasury._categorize_program text = "detention"
  \/ Treasury._categorize_program text = "community".
Proof.
  unfold Treasury._categorize_program.
  destruct (_ <? _); [now left|].
  destruct (_ <? _); [now right|].
  destruct (any_in _ _); [now left | now right].
Qed.

Lemma count_in_zero (ks : list string) (text : string) :
  count_in ks text = 0 -> forall k, In k ks -> str_in k text = false.
Proof.
  unfold count_in. induction ks as [|k0 ks IH]; intros Hzero k Hin.
  - destruct Hin.
  - cbn [filter] in Hzero.
    destruct (str_in k0 text) eqn:Hk0; [discriminate|].
    destruct Hin as [<-|Hin]; [exact Hk0 | now apply IH].
Qed.

(** C1, as amended.  When the detention score does not exceed the community
    score, the community score is zero and no facility name occurs, the
    classifier answers [community]: it has no [unknown] outcome.  The category
    rule of [BudgetScraper.parse_youth_justice_allocations] falls back to
    [community] in the same way. *)
Theorem categorize_no_signal_is_community (text : string) :
  Treasury.detention_score text <= Treasury.community_score text ->
  Treasury.community_score text = 0 ->
  Treasury.mentions_facility text = false ->
  Treasury._categorize_program text = "community"
  /\ Budget.category_of text = "community"
  /\ (forall t, Treasury._categorize_program t = "detention"
                \/ Treasury._categorize_program t = "community").
Proof.
  unfold Treasury.detention_score, Treasury.community_score,
    Treasury.mentions_facility.
  intros Hle Hzero Hfac. split; [|split; [|exact categorize_cases]].
  - unfold Treasury._categorize_program.
    rewrite Hzero in *.
    replace (0 <? _) with false by (symmetry; apply Nat.ltb_ge; exact Hle).
    rewrite Nat.ltb_irrefl. now rewrite Hfac.
  - unfold Budget.category_of, any_in. cbn [existsb].
    assert (Hnone : count_in Treasury.detention_keywords (lower text) = 0) by lia.
    rewrite !(count_in_zero _ _ Hnone) by (cbn [In Treasury.detention_keywords]; tauto).
    reflexivity.
Qed.

Lemma categorize_no_signal_witness :
  Treasury._categorize_program "Youth justice funding 450" = "community"
  /\ Budget.category_of "Youth justice funding 450" = "community"
  /\ (forall t, Treasury._categorize_program t = "detention"
                \/ Treasury._categorize_program t = "community").
Proof.
  apply (categorize_no_signal_is_community "Youth justice funding 450");
    vm_compute; [lia | reflexivity | reflexivity].
Defined.

(** C1, as stated, fails: a text without any keyword or facility name is
    classified [community], not [unknown]. *)
Lemma categorize_no_signal_not_unknown :
  Treasury.detention_score "Youth justice funding 450"
    <= Treasury.community_score "Youth justice funding 450"
  /\ Treasury.community_score "Youth justice funding 450" = 0
  /\ Treasury.mentions_facility "Youth justice funding 450" = false
  /\ Treasury._categorize_program "Youth justice funding 450" <> "unknown".
Proof.
  vm_compute. repeat split; try lia. discriminate.
Qed.

(** C4, as amended.  When as many detention keywords as community keywords
    are present in the text, and at least one, each keyword counted once
    however often it occurs, the classifier answers [community].  The method
    reads the text and the two keyword lists of its object and assigns to
    neither: the object a call leaves behind is the object it was given, so a
    second call on the same text gives the same category. *)
Theorem categorize_tie_of_present_keywords (text : string) :
  Treasury.detention_score text = Treasury.community_score text ->
  0 < Treasury.community_score text ->
  Treasury._categorize_program text = "community"
  /\ Treasury._categorize_program text = fst (Treasury.categorize_call Treasury.init text)
  /\ forall self : Treasury.Self,
       snd (Treasury.categorize_call self text) = self
       /\ fst (Treasury.categorize_call (snd (Treasury.categorize_call self text)) text)
          = fst (Treasury.categorize_call self text).
Proof.
  unfold Treasury.detention_score, Treasury.community_score.
  intros Heq Hpos. split; [|split].
  - unfold Treasury._categorize_program.
    rewrite Heq, Nat.ltb_irrefl.
    apply Nat.ltb_lt in Hpos. now rewrite Hpos.
  - reflexivity.
  - intros self. split; reflexivity.
Qed.

Lemma categorize_tie_of_present_keywords_witness :
  Treasury._categorize_program "Community supervision after detention and remand"
    = "community"
  /\ Treasury._categorize_program "Community supervision after detention and remand"
     = fst (Treasury.categorize_call
              Treasury.init "Community supervision after detention and remand")
  /\ forall self : Treasury.Self,
       snd (Treasury.categorize_call
              self "Community supervision after detention and remand") = self
       /\ fst (Treasury.categorize_call
                 (snd (Treasury.categorize_call
                         self "Community supervision after detention and remand"))
                 "Community supervision after detention and remand")
          = fst (Treasury.categorize_call
                   self "Community supervision after detention and remand").
Proof.
  apply (categorize_tie_of_present_keywords
           "Community supervision after detention and remand");
    vm_compute; [reflexivity | lia].
Defined.

(** C4, as stated, fails: in [detention custody community community] the
    detention keywords occur twice and the community keywords occur twice, yet
    the classifier answers [detention], for it scores the two detention
    keywords present against the one community keyword present. *)
Lemma categorize_equal_occurrences_is_detention :
  occurrences Treasury.detention_keywords (lower "detention custody community community")
  = 2
  /\ occurrences Treasury.community_keywords (lower "detention custody community community")
     = 2
  /\ Treasury.detention_score "detention custody community community" = 2
  /\ Treasury.community_score "detention custody community community" = 1
  /\ Treasury._categorize_program "detention custody community community" = "detention"
  /\ Treasury._categorize_program "detention custody community community" <> "community".
Proof.
  vm_compute. repeat split. discriminate.
Qed.

(** ** The fiscal aggregator *)


Lemma Qltb_zero_false (x : Q) : x == 0 -> Qltb 0 x = false.
Proof.
  intros Hx. unfold Qltb. apply negb_false_iff, Qle_bool_iff.
  rewrite Hx. apply Qle_refl.
Qed.


(** C7.  When the detention-plus-community total is zero the percentages are
    the fallback constants of the aggregator, whatever the rows are: (0, 0) in
    [calculate_detention_vs_community], and the known split (90.6, 9.4) in
    [CostAnalyzer.calculate_spending_split]. *)
Theorem zero_total_gives_fallback
        (allocations : list Alloc.t) (table : list Db.BudgetAllocation) :
  Treasury.total_budget (Treasury.calculate_detention_vs_community allocations) == 0 ->
  Cost.total_budget (Cost.calculate_spending_split table) == 0 ->
  (Treasury.detention_percentage (Treasury.calculate_detention_vs_community allocations),
   Treasury.community_percentage (Treasury.calculate_detention_vs_community allocations))
  = treasury_fallback
  /\ (Cost.detention_percentage (Cost.calculate_spending_split table),
      Cost.community_percentage (Cost.calculate_spending_split table))
     = known_percentages.
Proof.
  unfold Treasury.calculate_detention_vs_community, Cost.calculate_spending_split.
  cbn [Treasury.total_budget Treasury.detention_percentage
       Treasury.community_percentage Cost.total_budget Cost.detention_percentage
       Cost.community_percentage].
  intros Ht Hc.
  rewrite (Qltb_zero_false _ Ht), (Qltb_zero_false _ Hc).
  split; reflexivity.
Qed.

Lemma zero_total_gives_fallback_witness :
  (Treasury.detention_percentage
     (Treasury.calculate_detention_vs_community [allocation_of "unknown" 1000]),
   Treasury.community_percentage
     (Treasury.calculate_detention_vs_community [allocation_of "unknown" 1000]))
  = treasury_fallback
  /\ (Cost.detention_percentage (Cost.calculate_spending_split []),
      Cost.community_percentage (Cost.calculate_spending_split []))
     = known_percentages.
Proof.
  apply (zero_total_gives_fallback [allocation_of "unknown" 1000] []);
    vm_compute; reflexivity.
Defined.

(** ** The session and the writers *)

Lemma find_existsb {A} (f : A -> bool) (l : list A) :
  existsb f l = match find f l with Some _ => true | None => false end.
Proof.
  induction l as [|x l IH]; [reflexivity|].
  cbn [existsb find]. destruct (f x); [reflexivity | exact IH].
Qed.

Lemma flush_accepts (E : Db.Engine) (rows : list Db.BudgetAllocation) :
  forall written,
    forallb (insert_ok E) rows = true ->
    Db.flush E rows written = (written ++ rows, [], None).
Proof.
  induction rows as [|r rows IH]; intros written Hok.
  - cbn. now rewrite app_nil_r.
  - cbn [forallb] in Hok. apply andb_true_iff in Hok as [Hr Hrows].
    unfold insert_ok in Hr. apply negb_true_iff in Hr.
    cbn [Db.flush]. rewrite Hr, (IH _ Hrows), <- app_assoc. reflexivity.
Qed.

Lemma flush_refuses (E : Db.Engine) (rows : list Db.BudgetAllocation) :
  forall written,
    forallb (insert_ok E) rows = false ->
    exists written' remaining e,
      Db.flush E rows written = (written', remaining, Some e).
Proof.
  induction rows as [|r rows IH]; intros written Hbad; [discriminate|].
  cbn [forallb] in Hbad. cbn [Db.flush]. unfold insert_ok in Hbad at 1.
  destruct (Db.insert_raises E r).
  - now exists written, (r :: rows), OperationalError.
  - cbn in Hbad. apply IH, Hbad.
Qed.

(** [commit] then, if it raised, [rollback], then [close]: the table gains all
    the pending rows or none. *)
Lemma commit_or_rollback (E : Db.Engine) (table rows : list Db.BudgetAllocation) :
  Db.close
    (match Db.commit E {| Db.committed := table; Db.flushed := []; Db.pending := rows |} with
     | (db, Some _) => Db.rollback db
     | (db, None) => db
     end)
  = if forallb (insert_ok E) rows then table ++ rows else table.
Proof.
  unfold Db.commit. cbn [Db.pending Db.flushed Db.committed].
  destruct (forallb (insert_ok E) rows) eqn:Hok.
  - rewrite (flush_accepts _ _ _ Hok). reflexivity.
  - destruct (flush_refuses _ _ [] Hok) as (w & rem & e & ->). reflexivity.
Qed.

Lemma save_loop_accepts (E : Db.Engine) (batch : list Alloc.t) :
  forall db,
    forallb (select_ok E) batch = true ->
    Treasury.save_loop E batch db
    = ({| Db.committed := Db.committed db;
          Db.flushed := Db.flushed db;
          Db.pending :=
            Db.pending db ++ new_rows (Db.committed db ++ Db.flushed db) batch |},
       None).
Proof.
  unfold new_rows.
  induction batch as [|a batch IH]; intros db Hok.
  - cbn. rewrite app_nil_r. now destruct db.
  - cbn [forallb] in Hok. apply andb_true_iff in Hok as [Ha Hbatch].
    unfold select_ok in Ha. apply negb_true_iff in Ha.
    cbn [Treasury.save_loop filter]. unfold Db.query_first, is_new at 1.
    rewrite Ha, find_existsb.
    destruct (find _ _); cbn [negb].
    + apply IH, Hbatch.
    + rewrite (IH _ Hbatch). cbn [Db.add Db.committed Db.flushed Db.pending map].
      now rewrite <- app_assoc.
Qed.

Lemma save_loop_refused (E : Db.Engine) (batch : list Alloc.t) :
  forall db,
    forallb (select_ok E) batch = false ->
    exists db' e,
      Treasury.save_loop E batch db = (db', Some e)
      /\ Db.committed db' = Db.committed db.
Proof.
  induction batch as [|a batch IH]; intros db Hbad; [discriminate|].
  cbn [forallb] in Hbad. cbn [Treasury.save_loop]. unfold Db.query_first.
  unfold select_ok in Hbad at 1.
  destruct (Db.select_raises E _ _ _).
  - now exists db, OperationalError.
  - cbn in Hbad. destruct (find _ _).
    + apply IH, Hbad.
    + destruct (IH (Db.add db (Treasury.to_row a)) Hbad) as (db' & e & -> & Hc).
      now exists db', e.
Qed.

(** What the Treasury writer leaves in the table. *)
Lemma treasury_save_result (E : Db.Engine) (table : list Db.BudgetAllocation)
      (batch : list Alloc.t) :
  Treasury.save_to_database E table batch
  = if treasury_accepts E table batch then table ++ new_rows table batch else table.
Proof.
  unfold Treasury.save_to_database, treasury_accepts.
  destruct (forallb (select_ok E) batch) eqn:Hsel; cbn [andb].
  - rewrite (save_loop_accepts _ _ _ Hsel).
    cbn [Db.get_db Db.committed Db.flushed Db.pending app].
    rewrite app_nil_r. apply commit_or_rollback.
  - destruct (save_loop_refused _ _ (Db.get_db table) Hsel) as (db' & e & -> & Hc).
    unfold Db.close, Db.rollback. cbn [Db.committed]. exact Hc.
Qed.

Lemma add_loop_result (batch : list Alloc.t) :
  forall db,
    match budget_rows batch with
    | Some rows =>
        Budget.add_loop batch db
        = ({| Db.committed := Db.committed db;
              Db.flushed := Db.flushed db;
              Db.pending := Db.pending db ++ rows |}, None)
    | None =>
        exists db' e,
        Budget.add_loop batch db = (db', Some e)
        /\ Db.committed db' = Db.committed db
    end.
Proof.
  induction batch as [|a batch IH]; intros db.
  - cbn. rewrite app_nil_r. now destruct db.
  - cbn [budget_rows Budget.add_loop].
    destruct (Budget.of_dict a) as [r|e].
    + specialize (IH (Db.add db r)).
      destruct (budget_rows batch) as [rows|].
      * rewrite IH. cbn [Db.add Db.committed Db.flushed Db.pending].
        now rewrite <- app_assoc.
      * exact IH.
    + now exists db, e.
Qed.

(** What the SQLAlchemy part of the BudgetScraper writer leaves in the table. *)
Lemma budget_save_result (E : Db.Engine) (table : list Db.BudgetAllocation)
      (batch : list Alloc.t) :
  Budget.save_to_sqlite E table batch
  = match budget_rows batch with
    | Some rows => if forallb (insert_ok E) rows then table ++ rows else table
    | None => table
    end.
Proof.
  unfold Budget.save_to_sqlite.
  pose proof (add_loop_result batch (Db.get_db table)) as H.
  destruct (budget_rows batch) as [rows|].
  - rewrite H. cbn [Db.get_db Db.committed Db.flushed Db.pending app].
    apply commit_or_rollback.
  - destruct H as (db' & e & -> & Hc).
    unfold Db.close, Db.rollback. cbn [Db.committed]. exact Hc.
Qed.

(** The Supabase copy after a batch: every record whose own insert succeeds
    is appended, in order. *)
Lemma mirror_fold (supabase_raises : Supabase.record -> bool) (batch : list Alloc.t) :
  forall mirror,
    fold_left (Supabase.insert_budget_allocation supabase_raises) batch mirror
    = mirror ++ map mirror_record
                    (filter (fun a => negb (supabase_raises (mirror_record a))) batch).
Proof.
  induction batch as [|a batch IH]; intros mirror; cbn [fold_left filter map].
  - now rewrite app_nil_r.
  - rewrite IH. unfold Supabase.insert_budget_allocation. fold (mirror_record a).
    destruct (supabase_raises (mirror_record a)); cbn [try_except negb map].
    + reflexivity.
    + now rewrite <- app_assoc.
Qed.

(** C10, as amended.  One call of a writer is atomic on the
    [budget_allocations] table it writes through the session: if no statement
    is refused the table gains every new-key row of the batch (every row, for
    the writer that does not deduplicate), and if any query, insert or the
    commit raises, the transaction is rolled back and the table is left as it
    was.  The budget scraper's writer then copies the batch to the Supabase
    table, when a client is configured, one insert per allocation and outside
    that transaction: the copy gains exactly the records whose own insert
    succeeds, whatever became of the transaction. *)
Theorem save_to_database_atomic_on_session_only
        (E : Db.Engine) (supabase_raises : Supabase.record -> bool)
        (table : list Db.BudgetAllocation) (mirror : option (list Supabase.record))
        (batch : list Alloc.t) :
  let after :=
    Budget.save_to_database E supabase_raises
                            {| Budget.sqlite := table; Budget.supabase := mirror |}
                            batch in
  (Treasury.save_to_database E table batch
   = if treasury_accepts E table batch then table ++ new_rows table batch else table)
  /\ (Treasury.save_to_database E table batch = table ++ new_rows table batch
      \/ Treasury.save_to_database E table batch = table)
  /\ (Budget.sqlite after
      = match budget_rows batch with
        | Some rows => if forallb (insert_ok E) rows then table ++ rows else table
        | None => table
        end)
  /\ ((exists rows, budget_rows batch = Some rows /\ Budget.sqlite after = table ++ rows)
      \/ Budget.sqlite after = table)
  /\ (Budget.supabase after
      = option_map
          (fun copy =>
             copy ++ map mirror_record
                         (filter (fun a => negb (supabase_raises (mirror_record a))) batch))
          mirror).
Proof.
  cbn zeta. cbn [Budget.save_to_database Budget.sqlite Budget.supabase].
  split; [apply treasury_save_result|]. split; [|split; [|split]].
  - rewrite treasury_save_result. destruct (treasury_accepts _ _ _); auto.
  - apply budget_save_result.
  - rewrite budget_save_result.
    destruct (budget_rows batch) as [rows|]; [|now right].
    destruct (forallb _ rows); [|now right].
    left. now exists rows.
  - destruct mirror as [copy|]; [|reflexivity].
    cbn [option_map]. now rewrite mirror_fold.
Qed.

(** C10, as stated, fails for the budget scraper's writer.  The database
    refuses the batch of two allocations and the transaction is rolled back;
    the Supabase table takes the first record and refuses the second.  After
    the call the SQLite table is as it was and the Supabase copy holds one
    record of the two: a part of the batch is durable. *)
Lemma supabase_copy_keeps_part_of_batch :
  List.length two_allocations = 2
  /\ Budget.sqlite
       (Budget.save_to_database refusing refuses_community
                                {| Budget.sqlite := []; Budget.supabase := Some [] |}
                                two_allocations)
     = []
  /\ Budget.supabase
       (Budget.save_to_database refusing refuses_community
                                {| Budget.sqlite := []; Budget.supabase := Some [] |}
                                two_allocations)
     = Some [mirror_record (allocation_of "detention" 100)]
  /\ Budget.supabase
       (Budget.save_to_database refusing refuses_community
                                {| Budget.sqlite := []; Budget.supabase := Some [] |}
                                two_allocations)
     <> Some []
  /\ Budget.supabase
       (Budget.save_to_database refusing refuses_community
                                {| Budget.sqlite := []; Budget.supabase := Some [] |}
                                two_allocations)
     <> Some (map mirror_record two_allocations).
Proof.
  vm_compute. repeat split; discriminate.
Qed.

Lemma same_key_to_row (a : Alloc.t) :
  Db.same_key (Alloc.fiscal_year a) (Alloc.program a) (Alloc.amount a)
              (Treasury.to_row a) = true.
Proof.
  unfold Db.same_key, Treasury.to_row. cbn [Db.fiscal_year Db.program Db.amount].
  rewrite !String.eqb_refl. apply Qeq_bool_iff. reflexivity.
Qed.

Lemma filter_all_false {A} (f : A -> bool) (l : list A) :
  (forall x, In x l -> f x = false) -> filter f l = [].
Proof.
  induction l as [|x l IH]; intros Hall; [reflexivity|].
  cbn [filter]. rewrite (Hall x (or_introl eq_refl)).
  apply IH. intros y Hy. apply Hall. now right.
Qed.

Lemma nothing_new_after_save (table : list Db.BudgetAllocation) (batch : list Alloc.t) :
  new_rows (table ++ new_rows table batch) batch = [].
Proof.
  unfold new_rows at 1.
  assert (Hall : forall a, In a batch ->
                           is_new (table ++ new_rows table batch) a = false).
  { intros a Hin. unfold is_new. apply negb_false_iff.
    rewrite existsb_app. destruct (existsb _ table) eqn:Hold; [reflexivity|].
    cbn [orb]. apply existsb_exists. exists (Treasury.to_row a). split.
    - unfold new_rows. apply in_map, filter_In. split; [exact Hin|].
      unfold is_new. now rewrite Hold.
    - apply same_key_to_row. }
  now rewrite (filter_all_false _ _ Hall).
Qed.

(** The deduplicating writer is idempotent: saving the same batch again
    changes nothing, under any engine. *)
Lemma treasury_save_idempotent (E : Db.Engine) (table : list Db.BudgetAllocation)
      (batch : list Alloc.t) :
  Treasury.save_to_database E (Treasury.save_to_database E table batch) batch
  = Treasury.save_to_database E table batch.
Proof.
  rewrite (treasury_save_result E table batch).
  destruct (treasury_accepts E table batch) eqn:Hacc.
  - rewrite treasury_save_result, nothing_new_after_save, app_nil_r.
    destruct (treasury_accepts E (table ++ new_rows table batch) batch); reflexivity.
  - rewrite treasury_save_result, Hacc. reflexivity.
Qed.

(** C2 on the code.  Run twice over the same page, the BudgetScraper pipeline
    ([_scrape_department_page], [parse_youth_justice_allocations],
    [save_to_database]) stores the allocation twice: its writer adds every
    candidate without looking for the natural key.  The Treasury writer, given
    the same batch twice, stores it once. *)
Theorem budget_scraper_second_run_duplicates :
  let once := Budget.save_to_database Db.reliable (fun _ => false) empty_stores sample_batch in
  let twice := Budget.save_to_database Db.reliable (fun _ => false) once sample_batch in
  List.length sample_batch = 1
  /\ List.length (Budget.sqlite once) = 1
  /\ List.length (Budget.sqlite twice) = 2
  /\ List.length (Treasury.save_to_database Db.reliable [] sample_batch) = 1
  /\ List.length (Treasury.save_to_database
                    Db.reliable
                    (Treasury.save_to_database Db.reliable [] sample_batch)
                    sample_batch) = 1.
Proof.
  vm_compute. repeat split.
Qed.

(** ** The amount normalizer *)

(** C3 on the code.  The multiplier is chosen by searching the whole row text
    for [million], [ m], [thousand], [ k], not by the word that follows the
    token: in [450 places at West Moreton] the only token, [450], is followed
    by no magnitude word, yet the amount is 450 000 000 because [ m] occurs in
    [ Moreton]; and [5m], a token followed by [m], is left at 5.
    [BudgetScraper._extract_amount] multiplies whenever the cell contains an
    [m] anywhere.  The two examples of the claim do hold. *)
Theorem multiplier_taken_from_whole_row :
  findall Treasury.amount_pattern "450 places at West Moreton" = ["450"]
  /\ SpecNormalizer.normalize "450 places at West Moreton" = (450%Q, true)
  /\ amount_extracted
       (Treasury._extract_allocation_from_row [] "450 places at West Moreton" "2024-25")
     = Ok (Some 450000000%Q)
  /\ SpecNormalizer.normalize "5m" = (5000000%Q, true)
  /\ amount_extracted (Treasury._extract_allocation_from_row [] "5m" "2024-25")
     = Ok (Some 5%Q)
  /\ Budget._extract_amount [("Program", "Youth justice"); ("Budget", "450 programs")]
     = Ok (Some 450000000%Q)
  /\ amount_extracted (Treasury._extract_allocation_from_row [] "$1.65 million" "2024-25")
     = Ok (Some 1650000%Q)
  /\ amount_extracted (Treasury._extract_allocation_from_row [] "450" "2024-25")
     = Ok (Some 450%Q).
Proof.
  vm_compute. repeat split.
Qed.

(** C5 on the code.  In [Youth justice services $2 million 500 places] the
    tokens are [2], followed by [million], and [500]; the largest normalized
    value is 2 000 000.  The code takes the largest raw mantissa, 500, and
    multiplies it by the multiplier it reads off the row as a whole: it
    returns 500 000 000, an amount no token of the row stands for. *)
Theorem largest_raw_mantissa_is_chosen :
  findall Treasury.amount_pattern "Youth justice services $2 million 500 places"
  = ["2"; "500"]
  /\ SpecNormalizer.normalize "Youth justice services $2 million 500 places"
     = (2000000%Q, true)
  /\ amount_extracted
       (Treasury._extract_allocation_from_row
          [] "Youth justice services $2 million 500 places" "2024-25")
     = Ok (Some 500000000%Q)
  /\ ~ (500000000 == 2000000)%Q.
Proof.
  vm_compute. repeat split. discriminate.
Qed.

(** C8 on the code.  [Youth justice, detention services] holds no numeric
    token that parses, but the pattern matches the lone comma, and
    [float] of the empty string raises [ValueError]: the normalizer does not
    answer "no amount", it raises.  [_process_budget_table] catches the
    exception and gives up the rest of the table, so the following row, which
    does carry an amount, is lost with it; in BudgetScraper the exception is
    not caught at all. *)
Theorem comma_token_raises_instead_of_none :
  findall Treasury.amount_pattern "Youth justice, detention services" = [","]
  /\ Treasury.mantissa_value "," = Raise ValueError
  /\ SpecNormalizer.normalize "Youth justice, detention services" = (0%Q, false)
  /\ Treasury._extract_allocation_from_row
       [Some "Youth justice, detention services"; None]
       "Youth justice, detention services" "2024-25"
     = Raise ValueError
  /\ Treasury._process_budget_table table_with_comma_row "page text" "2024-25" = []
  /\ map Alloc.amount
         (Treasury._process_budget_table table_without_comma_row "page text" "2024-25")
     = [450%Q]
  /\ Budget._extract_amount [("Program", "Youth justice, detention")]
     = Raise ValueError
  /\ Budget._scrape_department_page
       "https://budget.qld.gov.au/dept" [[ [("Program", "Youth justice, detention")] ]]
     = Raise ValueError.
Proof.
  vm_compute. repeat split.
Qed.

Lemma Qltb_true (x y : Q) : Qltb x y = true -> (x < y)%Q.
Proof.
  unfold Qltb. intros H. apply negb_true_iff in H.
  apply Qnot_le_lt. intros Hle. apply Qle_bool_iff in Hle. congruence.
Qed.

Lemma Qltb_false (x y : Q) : Qltb x y = false -> (y <= x)%Q.
Proof.
  unfold Qltb. intros H. apply negb_false_iff in H. now apply Qle_bool_iff.
Qed.

(** [max(xs, key=key)] returns an element whose key is the largest, when every
    key can be computed. *)
Lemma max_by_from_largest (key : string -> result Q) (xs : list string) :
  forall best kbest,
    (forall x, In x xs -> exists v, key x = Ok v) ->
    key best = Ok kbest ->
    exists x v,
      max_by_from key best kbest xs = Ok x
      /\ key x = Ok v
      /\ (x = best \/ In x xs)
      /\ (kbest <= v)%Q
      /\ (forall y w, In y xs -> key y = Ok w -> (w <= v)%Q).
Proof.
  induction xs as [|x0 xs IH]; intros best kbest Hkeys Hbest.
  - exists best, kbest. cbn. repeat split; auto using Qle_refl. intros y w [].
  - destruct (Hkeys x0 (or_introl eq_refl)) as [kx Hkx].
    assert (Hkeys' : forall x, In x xs -> exists v, key x = Ok v)
      by (intros x Hx; apply Hkeys; now right).
    cbn [max_by_from]. rewrite Hkx.
    destruct (Qltb kbest kx) eqn:Hcmp.
    + apply Qltb_true in Hcmp.
      destruct (IH x0 kx Hkeys' Hkx) as (x & v & Hmax & Hv & Hin & Hge & Hall).
      exists x, v. repeat split; auto.
      * destruct Hin as [->|Hin]; right; [now left | now right].
      * apply Qlt_le_weak. eapply Qlt_le_trans; eassumption.
      * intros y w [<-|Hy] Hw; [|now apply (Hall y)].
        rewrite Hkx in Hw. injection Hw as <-. exact Hge.
    + apply Qltb_false in Hcmp.
      destruct (IH best kbest Hkeys' Hbest) as (x & v & Hmax & Hv & Hin & Hge & Hall).
      exists x, v. repeat split; auto.
      * destruct Hin as [->|Hin]; [now left | right; now right].
      * intros y w [<-|Hy] Hw; [|now apply (Hall y)].
        rewrite Hkx in Hw. injection Hw as <-.
        eapply Qle_trans; eassumption.
Qed.

Lemma max_by_largest (key : string -> result Q) (xs : list string) :
  xs <> [] ->
  (forall x, In x xs -> exists v, key x = Ok v) ->
  exists x v,
    max_by key xs = Ok x
    /\ key x = Ok v
    /\ In x xs
    /\ (forall y w, In y xs -> key y = Ok w -> (w <= v)%Q).
Proof.
  destruct xs as [|x0 xs]; [congruence|]. intros _ Hkeys.
  destruct (Hkeys x0 (or_introl eq_refl)) as [k0 Hk0].
  destruct (max_by_from_largest key xs x0 k0) as (x & v & Hmax & Hv & Hin & Hge & Hall);
    [intros y Hy; apply Hkeys; now right | exact Hk0 |].
  exists x, v. cbn [max_by]. rewrite Hk0. repeat split; auto.
  - destruct Hin as [->|Hin]; [now left | now right].
  - intros y w [<-|Hy] Hw; [|now apply (Hall y)].
    rewrite Hk0 in Hw. injection Hw as <-. exact Hge.
Qed.

(** The amount of a row whose tokens all parse: the largest raw mantissa times
    the multiplier of the row. *)
Lemma row_amount_is_largest_mantissa
      (row : list (option string)) (row_text fiscal_year : string) :
  findall Treasury.amount_pattern row_text <> [] ->
  (forall t, In t (findall Treasury.amount_pattern row_text) ->
             exists v, Treasury.mantissa_value t = Ok v) ->
  exists a v,
    Treasury._extract_allocation_from_row row row_text fiscal_year = Ok (Some a)
    /\ (exists t, In t (findall Treasury.amount_pattern row_text)
                  /\ Treasury.mantissa_value t = Ok v)
    /\ (forall t w, In t (findall Treasury.amount_pattern row_text) ->
                    Treasury.mantissa_value t = Ok w -> (w <= v)%Q)
    /\ (Alloc.amount a == v * Treasury.row_multiplier row_text)%Q.
Proof.
  intros Hsome Hparse.
  destruct (max_by_largest _ _ Hsome Hparse) as (x & v & Hmax & Hv & Hin & Hall).
  unfold Treasury._extract_allocation_from_row.
  destruct (findall Treasury.amount_pattern row_text) as [|t0 ts] eqn:Htokens;
    [congruence|].
  rewrite Hmax. cbn [bind]. rewrite Hv. cbn [bind].
  eexists. exists v. split; [reflexivity|]. split; [now exists x|]. split; [exact Hall|].
  cbn [Alloc.amount]. unfold Treasury.row_multiplier.
  destruct (_ || _); [reflexivity|].
  destruct (_ || _); [reflexivity|].
  symmetry. apply Qmult_1_r.
Qed.

(** ** The dollar scan of the statistic extractor and the normalizer *)

(** *** String lemmas *)

Lemma length_app (a b : string) :
  String.length (a ++ b) = String.length a + String.length b.
Proof. induction a as [|c a IH]; cbn; [reflexivity | now rewrite IH]. Qed.

Lemma app_assoc_s (a b c : string) : ((a ++ b) ++ c = a ++ (b ++ c))%string.
Proof. induction a as [|x a IH]; cbn; [reflexivity | now rewrite IH]. Qed.

Lemma app_empty_r (a : string) : (a ++ EmptyString)%string = a.
Proof. induction a as [|x a IH]; cbn; [reflexivity | now rewrite IH]. Qed.

Lemma take_drop (n : nat) (s : string) : (take n s ++ drop n s)%string = s.
Proof.
  revert s. induction n as [|n IH]; intros [|c s]; cbn; try reflexivity.
  now rewrite IH.
Qed.

Lemma length_drop (n : nat) (s : string) :
  String.length (drop n s) = String.length s - n.
Proof.
  revert s. induction n as [|n IH]; intros [|c s]; cbn; try reflexivity.
  apply IH.
Qed.

Lemma take_app_length (a b : string) : take (String.length a) (a ++ b) = a.
Proof. induction a as [|c a IH]; cbn; [now destruct b | now rewrite IH]. Qed.

Lemma drop_app_length (a b : string) : drop (String.length a) (a ++ b) = b.
Proof. induction a as [|c a IH]; cbn; [now destruct b | exact IH]. Qed.

Lemma take_consumed (a rest : string) :
  take (String.length (a ++ rest) - String.length rest) (a ++ rest) = a.
Proof.
  rewrite length_app. replace (_ + _ - _) with (String.length a) by lia.
  apply take_app_length.
Qed.

Lemma drop_drop (n m : nat) (s : string) : drop n (drop m s) = drop (m + n) s.
Proof.
  revert s. induction m as [|m IH]; intros s; [reflexivity|].
  destruct s as [|c s]; cbn; [now destruct n | apply IH].
Qed.

Lemma run_length_app (p : ascii -> bool) (a b : string) :
  all_in p a = true -> stops p b = true ->
  run_length p (a ++ b) = String.length a.
Proof.
  intros Ha Hb. induction a as [|c a IH]; cbn in *.
  - destruct b as [|c b]; [reflexivity|]. cbn in Hb |- *.
    apply negb_true_iff in Hb. now rewrite Hb.
  - apply andb_true_iff in Ha as [Hc Ha]. rewrite Hc. now rewrite IH.
Qed.

Lemma run_length_split (p : ascii -> bool) (s : string) :
  all_in p (take (run_length p s) s) = true
  /\ stops p (drop (run_length p s) s) = true.
Proof.
  induction s as [|c s [IH1 IH2]]; [now split|].
  cbn [run_length]. destruct (p c) eqn:Hc; cbn.
  - now rewrite Hc, IH1.
  - now rewrite Hc.
Qed.

Lemma run_length_le (p : ascii -> bool) (s : string) :
  run_length p s <= String.length s.
Proof. induction s as [|c s IH]; cbn; [lia|]. destruct (p c); lia. Qed.

Lemma startswith_app (w s : string) : startswith w (w ++ s) = true.
Proof.
  induction w as [|c w IH]; cbn; [reflexivity|].
  now rewrite Ascii.eqb_refl, IH.
Qed.

Lemma startswith_split (w s : string) :
  startswith w s = true -> s = (w ++ drop (String.length w) s)%string.
Proof.
  revert s. induction w as [|c w IH]; intros s H; [reflexivity|].
  destruct s as [|d s]; [discriminate|]. cbn in H.
  apply andb_true_iff in H as [Hc Hw]. apply Ascii.eqb_eq in Hc as ->.
  cbn. now rewrite <- IH.
Qed.

(** *** The matcher on greedy repetitions *)

Lemma find_first_none {A B} (f : A -> option B) (xs : list A) :
  (forall x, In x xs -> f x = None) -> find_first f xs = None.
Proof.
  induction xs as [|x xs IH]; intros Hall; [reflexivity|].
  cbn. rewrite (Hall x (or_introl eq_refl)). apply IH.
  intros y Hy. apply Hall. now right.
Qed.

Lemma counts_greedy (lo n : nat) :
  lo <= n -> counts true lo n = n :: rev (List.seq lo (n - lo)).
Proof.
  intros Hle. unfold counts.
  replace (n <? lo) with false by (symmetry; apply Nat.ltb_ge; exact Hle).
  replace (S n - lo) with (S (n - lo)) by lia.
  rewrite seq_S, rev_unit. f_equal. lia.
Qed.

Lemma counts_short (greedy : bool) (lo n : nat) : n < lo -> counts greedy lo n = [].
Proof. intros Hlt. unfold counts. apply Nat.ltb_lt in Hlt. now rewrite Hlt. Qed.

(** A greedy repetition settles on the longest run as soon as the
    continuation accepts it, or when it can accept no shorter one. *)
Lemma find_first_greedy {B} (f : nat -> option B) (lo n : nat) :
  lo <= n ->
  (f n <> None \/ forall i, lo <= i < n -> f i = None) ->
  find_first f (counts true lo n) = f n.
Proof.
  intros Hle Hk. rewrite (counts_greedy _ _ Hle). cbn [find_first].
  destruct (f n) eqn:Hn; [reflexivity|].
  destruct Hk as [Hk|Hk]; [congruence|].
  apply find_first_none. intros i Hi.
  apply in_rev, in_seq in Hi. apply Hk. lia.
Qed.

Lemma exec_Seq {R} (a b : regex) (s : string) (caps : captures)
      (k : string -> captures -> option R) :
  exec (Seq a b) s caps k = exec a s caps (fun s1 caps1 => exec b s1 caps1 k).
Proof. reflexivity. Qed.

Lemma exec_opt_lit {R} (w s : string) (caps : captures)
      (k : string -> captures -> option R) :
  exec (opt (lit w)) s caps k
  = match (if startswith w s then k (drop (String.length w) s) caps else None) with
    | Some x => Some x
    | None => k s caps
    end.
Proof. reflexivity. Qed.

Lemma exec_lit {R} (w s : string) (caps : captures)
      (k : string -> captures -> option R) :
  exec (lit w) s caps k
  = if startswith w s then k (drop (String.length w) s) caps else None.
Proof. reflexivity. Qed.

Lemma exec_star {R} (p : ascii -> bool) (s : string) (caps : captures)
      (k : string -> captures -> option R) :
  (k (drop (run_length p s) s) caps <> None
   \/ forall i, i < run_length p s -> k (drop i s) caps = None) ->
  exec (star p) s caps k = k (drop (run_length p s) s) caps.
Proof.
  intros Hk. unfold star. cbn [exec].
  apply (find_first_greedy (fun i => k (drop i s) caps)); [lia|].
  destruct Hk as [Hk|Hk]; [now left | right].
  intros i Hi. apply Hk. lia.
Qed.

Lemma exec_plus {R} (p : ascii -> bool) (s : string) (caps : captures)
      (k : string -> captures -> option R) :
  total k ->
  exec (plus p) s caps k
  = if run_length p s =? 0 then None else k (drop (run_length p s) s) caps.
Proof.
  intros Hk. unfold plus. cbn [exec].
  destruct (run_length p s =? 0) eqn:Hn.
  - apply Nat.eqb_eq in Hn. rewrite Hn. reflexivity.
  - apply Nat.eqb_neq in Hn.
    apply (find_first_greedy (fun i => k (drop i s) caps)); [lia|].
    left. apply Hk.
Qed.

Lemma total_opt {R} (a : regex) (k : string -> captures -> option R) :
  total k -> total (fun s caps => exec (opt a) s caps k).
Proof.
  intros Hk s caps. unfold opt. cbn [exec].
  destruct (exec a s caps k); [discriminate | apply Hk].
Qed.

Lemma total_star {R} (p : ascii -> bool) (k : string -> captures -> option R) :
  total k -> total (fun s caps => exec (star p) s caps k).
Proof.
  intros Hk s caps. rewrite exec_star by (left; apply Hk). apply Hk.
Qed.

Lemma greedy_mantissa_split (s m rest : string) :
  greedy_mantissa s = Some (m, rest) -> s = (m ++ rest)%string.
Proof.
  unfold greedy_mantissa.
  destruct (_ =? 0); [discriminate|].
  set (n := run_length Treasury.is_digit_or_comma s).
  destruct (drop n s) as [|c r] eqn:Hdrop.
  - intros [= <- <-]. rewrite <- Hdrop. symmetry. apply take_drop.
  - destruct (_ && _).
    + intros [= <- <-].
      replace (drop (run_length is_digit r) r)
        with (drop (n + 1 + run_length is_digit r) s).
      * symmetry. apply take_drop.
      * rewrite <- drop_drop, <- drop_drop, Hdrop. reflexivity.
    + intros [= <- <-]. rewrite <- Hdrop. symmetry. apply take_drop.
Qed.

(** The mantissa pattern takes the greedy reading whenever what follows it
    cannot fail. *)
Lemma exec_mantissa {R} (s : string) (caps : captures)
      (k : string -> captures -> option R) :
  total k ->
  exec (Group 1 (Seq (plus Treasury.is_digit_or_comma)
                     (opt (Seq (lit ".") (plus is_digit))))) s caps k
  = match greedy_mantissa s with
    | Some (m, rest) => k rest ((1, m) :: caps)
    | None => None
    end.
Proof.
  intros Hk. cbn [exec].
  set (k1 := fun s1 caps1 =>
               k s1 ((1, take (String.length s - String.length s1) s) :: caps1)).
  assert (Hk1 : total k1) by (intros s1 caps1; apply Hk).
  change (exec (plus Treasury.is_digit_or_comma) s caps
               (fun s1 caps1 => exec (opt (Seq (lit ".") (plus is_digit))) s1 caps1 k1)
          = match greedy_mantissa s with
            | Some (m, rest) => k rest ((1, m) :: caps)
            | None => None
            end).
  rewrite exec_plus by (apply total_opt, Hk1).
  assert (Hcap : forall m rest, greedy_mantissa s = Some (m, rest) ->
                                k1 rest caps = k rest ((1, m) :: caps)).
  { intros m rest H. apply greedy_mantissa_split in H. subst s k1. cbn beta.
    now rewrite take_consumed. }
  revert Hcap. unfold greedy_mantissa.
  set (n := run_length Treasury.is_digit_or_comma s).
  destruct (n =? 0); [reflexivity|].
  unfold opt. cbn [exec]. unfold lit at 1. cbn [exec String.length].
  destruct (drop n s) as [|c r] eqn:Hdrop.
  - cbn [startswith]. intros Hcap. now apply Hcap.
  - cbn [startswith drop]. rewrite andb_true_r.
    rewrite exec_plus by exact Hk1.
    destruct (Ascii.eqb "." c); cbn [andb].
    + destruct (run_length is_digit r =? 0); cbn [negb]; intros Hcap.
      * now apply Hcap.
      * rewrite <- (Hcap _ _ eq_refl).
        destruct (k1 (drop (run_length is_digit r) r) caps) eqn:Hsome;
          [reflexivity | now apply Hk1 in Hsome].
    + intros Hcap. now apply Hcap.
Qed.

Lemma first_word_split (ws : list string) (s w r : string) :
  first_word ws s = Some (w, r) -> s = (w ++ r)%string /\ In w ws.
Proof.
  induction ws as [|w0 ws IH]; [discriminate|]. cbn [first_word].
  destruct (startswith w0 s) eqn:Hw.
  - intros [= <- <-]. split; [now apply startswith_split | now left].
  - intros H. destruct (IH H) as [Hs Hin]. split; [exact Hs | now right].
Qed.

Lemma exec_words {R} (ws : list string) (s : string) (caps : captures)
      (k : string -> captures -> option R) :
  ws <> [] -> total k ->
  exec (words false ws) s caps k
  = match first_word ws s with
    | Some (w, r) => k r caps
    | None => None
    end.
Proof.
  intros Hne Hk. induction ws as [|w ws IH]; [congruence|].
  destruct ws as [|w' ws'].
  - cbn [words exec first_word]. now destruct (startswith w s).
  - change (words false (w :: w' :: ws'))
      with (Alt (Lit false w) (words false (w' :: ws'))).
    change (first_word (w :: w' :: ws') s)
      with (if startswith w s then Some (w, drop (String.length w) s)
            else first_word (w' :: ws') s).
    cbn [exec]. destruct (startswith w s).
    + destruct (k _ caps) eqn:Hsome; [reflexivity | now apply Hk in Hsome].
    + apply IH. discriminate.
Qed.

Lemma exec_group_words {R} (i : nat) (ws : list string) (s : string)
      (caps : captures) (k : string -> captures -> option R) :
  ws <> [] -> total k ->
  exec (Group i (words false ws)) s caps k
  = match first_word ws s with
    | Some (w, r) => k r ((i, w) :: caps)
    | None => None
    end.
Proof.
  intros Hne Hk. cbn [exec].
  rewrite exec_words; [|exact Hne | intros s1 caps1; apply Hk].
  destruct (first_word ws s) as [[w r]|] eqn:Hw; [|reflexivity].
  apply first_word_split in Hw as [-> _]. now rewrite take_consumed.
Qed.

Lemma total_accept : total accept.
Proof. intros s caps. discriminate. Qed.

Lemma exec_amount_body (s : string) (caps : captures) :
  exec (Seq (Group 1 (Seq (plus Treasury.is_digit_or_comma)
                          (opt (Seq (lit ".") (plus is_digit)))))
            (Seq (star is_space)
                 (opt (words false ["million"; "m"; "thousand"; "k"]))))
       s caps accept
  = match greedy_mantissa s with
    | None => None
    | Some (m, r) =>
        let r1 := drop (run_length is_space r) r in
        match first_word ["million"; "m"; "thousand"; "k"] r1 with
        | Some (_, r2) => Some ((1, m) :: caps, r2)
        | None => Some ((1, m) :: caps, r1)
        end
    end.
Proof.
  rewrite exec_Seq, exec_mantissa.
  - destruct (greedy_mantissa s) as [[m r]|]; [|reflexivity].
    rewrite exec_Seq, exec_star by (left; apply total_opt, total_accept).
    unfold opt. cbn [exec].
    rewrite exec_words by (discriminate || apply total_accept).
    cbn zeta. now destruct (first_word _ _) as [[w r2]|].
  - intros s1 caps1. rewrite exec_Seq, exec_star by (left; apply total_opt, total_accept).
    apply total_opt, total_accept.
Qed.

Lemma greedy_mantissa_needs_digit (s : string) :
  stops Treasury.is_digit_or_comma s = true -> greedy_mantissa s = None.
Proof.
  unfold greedy_mantissa. destruct s as [|c s]; [reflexivity|].
  cbn [stops run_length]. intros H. apply negb_true_iff in H. now rewrite H.
Qed.

Lemma match_at_amount (s : string) :
  match_at Treasury.amount_pattern s = greedy_amount s.
Proof.
  unfold match_at, Treasury.amount_pattern, greedy_amount, amount_body. cbn [seq].
  fold accept. rewrite exec_Seq, exec_opt_lit. cbn beta.
  rewrite !exec_amount_body. cbn [String.length].
  destruct (startswith "$" s) eqn:Hd; [|reflexivity].
  destruct (greedy_mantissa (drop 1 s)) as [[m r]|].
  - cbn zeta. now destruct (first_word _ _) as [[w r2]|].
  - rewrite greedy_mantissa_needs_digit; [reflexivity|].
    destruct s as [|c s]; [reflexivity|]. cbn [startswith] in Hd.
    rewrite andb_true_r in Hd. apply Ascii.eqb_eq in Hd as <-. reflexivity.
Qed.

Lemma exec_dollar_body (s : string) (caps : captures) :
  exec (Seq (Group 1 (Seq (plus Treasury.is_digit_or_comma)
                          (opt (Seq (lit ".") (plus is_digit)))))
            (Seq (star is_space)
                 (opt (Group 2 (words false ["million"; "billion"; "thousand"])))))
       s caps accept
  = match greedy_mantissa s with
    | None => None
    | Some (m, r) =>
        let r1 := drop (run_length is_space r) r in
        match first_word ["million"; "billion"; "thousand"] r1 with
        | Some (w, r2) => Some ((2, w) :: (1, m) :: caps, r2)
        | None => Some ((1, m) :: caps, r1)
        end
    end.
Proof.
  rewrite exec_Seq, exec_mantissa.
  - destruct (greedy_mantissa s) as [[m r]|]; [|reflexivity].
    rewrite exec_Seq, exec_star by (left; apply total_opt, total_accept).
    unfold opt. cbn [exec].
    change (exec (words false ["million"; "billion"; "thousand"])
                 (drop (run_length is_space r) r) ((1, m) :: caps)
                 (fun s1 caps1 =>
                    accept s1 ((2, take (String.length (drop (run_length is_space r) r)
                                         - String.length s1)
                                        (drop (run_length is_space r) r)) :: caps1)))
      with (exec (Group 2 (words false ["million"; "billion"; "thousand"]))
                 (drop (run_length is_space r) r) ((1, m) :: caps) accept).
    rewrite exec_group_words by (discriminate || apply total_accept).
    cbn zeta. now destruct (first_word _ _) as [[w r2]|].
  - intros s1 caps1. rewrite exec_Seq, exec_star by (left; apply total_opt, total_accept).
    apply total_opt, total_accept.
Qed.

Lemma drop_in_run (p : ascii -> bool) (s : string) :
  forall i, i < run_length p s ->
            exists c r, drop i s = String c r /\ p c = true.
Proof.
  induction s as [|c s IH]; intros i Hi; cbn [run_length] in Hi; [lia|].
  destruct (p c) eqn:Hc; [|lia].
  destruct i as [|i]; [now exists c, s|].
  cbn [drop]. apply IH. lia.
Qed.

Lemma space_not_digit_or_comma (c : ascii) :
  is_space c = true -> Treasury.is_digit_or_comma c = false.
Proof.
  by_character c.
Qed.

Lemma match_at_dollar (s : string) :
  match_at QoN.amount_pattern s = greedy_dollar s.
Proof.
  unfold match_at, QoN.amount_pattern, greedy_dollar. cbn [seq].
  fold accept. rewrite exec_Seq, exec_lit. cbn [String.length].
  destruct s as [|c s1]; [reflexivity|].
  cbn [startswith drop]. rewrite andb_true_r.
  destruct (Ascii.eqb "$" c); [|reflexivity].
  rewrite exec_Seq, exec_star.
  - apply exec_dollar_body.
  - right. intros i Hi. rewrite exec_dollar_body.
    destruct (drop_in_run _ _ _ Hi) as (d & r & -> & Hd).
    rewrite greedy_mantissa_needs_digit; [reflexivity|].
    cbn [stops]. now rewrite (space_not_digit_or_comma _ Hd).
Qed.

(** *** Finditer *)

Lemma drop_S (pos : nat) (text : string) (c : ascii) (s : string) :
  drop pos text = String c s -> drop (S pos) text = s.
Proof.
  intros H. replace (S pos) with (pos + 1) by lia.
  now rewrite <- drop_drop, H.
Qed.

(** Every match reported by [finditer] is a match of the pattern at the
    offset where it starts. *)
Lemma finditer_from_sound (r : regex) (text : string) (m : Match) :
  forall s skip pos,
    drop pos text = s ->
    In m (finditer_from r skip pos s) ->
    exists rest,
      match_at r (drop (m_start m) text) = Some (m_groups m, rest)
      /\ m_end m
         = m_start m + (String.length (drop (m_start m) text) - String.length rest).
Proof.
  induction s as [|c s IH]; intros skip pos Hpos Hin; [destruct Hin|].
  pose proof (drop_S _ _ _ _ Hpos) as Hnext.
  cbn [finditer_from] in Hin. destruct skip as [|j].
  - destruct (match_at r (String c s)) as [[caps rest]|] eqn:Hm.
    + destruct Hin as [<-|Hin]; [|exact (IH _ _ Hnext Hin)].
      cbn [m_start m_end m_groups]. rewrite Hpos. now exists rest.
    + exact (IH _ _ Hnext Hin).
  - exact (IH _ _ Hnext Hin).
Qed.



Lemma finditer_from_no_match (r : regex) (c : ascii) (s : string) (pos : nat) :
  match_at r (String c s) = None ->
  finditer_from r 0 pos (String c s) = finditer_from r 0 (S pos) s.
Proof. intros Hm. cbn [finditer_from]. now rewrite Hm. Qed.

(** *** The shape of a mantissa *)

Lemma length_take (n : nat) (s : string) :
  n <= String.length s -> String.length (take n s) = n.
Proof.
  revert s. induction n as [|n IH]; intros [|c s] H; cbn in *; try lia.
  rewrite IH; lia.
Qed.

Lemma take_app_more (a b : string) (j : nat) :
  take (String.length a + j) (a ++ b) = (a ++ take j b)%string.
Proof. induction a as [|c a IH]; cbn; [reflexivity | now rewrite IH]. Qed.

Lemma nonempty_length (s : string) : s <> EmptyString <-> String.length s <> 0.
Proof. destruct s; cbn; split; intros H; congruence || discriminate || lia. Qed.

Lemma greedy_mantissa_shape (s m r : string) :
  greedy_mantissa s = Some (m, r) -> mantissa_shaped m.
Proof.
  unfold greedy_mantissa.
  set (n := run_length Treasury.is_digit_or_comma s).
  destruct (n =? 0) eqn:Hn; [discriminate|]. apply Nat.eqb_neq in Hn.
  pose proof (run_length_le Treasury.is_digit_or_comma s) as Hle. fold n in Hle.
  destruct (run_length_split Treasury.is_digit_or_comma s) as [Hrun _]. fold n in Hrun.
  assert (Hne : take n s <> EmptyString)
    by (apply nonempty_length; rewrite length_take; assumption).
  assert (Hplain : mantissa_shaped (take n s)).
  { exists (take n s), EmptyString. rewrite app_empty_r. auto. }
  destruct (drop n s) as [|c r'] eqn:Hdrop.
  - now intros [= <- <-].
  - destruct (Ascii.eqb "." c) eqn:Hc; cbn [andb]; [|now intros [= <- <-]].
    destruct (run_length is_digit r' =? 0) eqn:Hf; cbn [negb]; [now intros [= <- <-]|].
    apply Nat.eqb_neq in Hf. apply Ascii.eqb_eq in Hc as <-.
    intros [= <- <-].
    exists (take n s), (String "." (take (run_length is_digit r') r')).
    repeat split; auto.
    + rewrite <- (take_drop n s) at 1. rewrite Hdrop.
      rewrite <- (length_take n s Hle) at 1.
      rewrite <- Nat.add_assoc, take_app_more. reflexivity.
    + right. eexists. repeat split.
      * apply nonempty_length. rewrite length_take; [exact Hf | apply run_length_le].
      * apply run_length_split.
Qed.

Lemma stops_digit (tail : string) :
  stops Treasury.is_digit_or_comma tail = true -> stops is_digit tail = true.
Proof.
  destruct tail as [|c t]; [reflexivity|]. cbn [stops].
  unfold Treasury.is_digit_or_comma. intros H.
  apply negb_true_iff, orb_false_iff in H as [H _]. now rewrite H.
Qed.

(** A mantissa followed by a boundary is read back whole. *)
Lemma greedy_mantissa_app (m tail : string) :
  mantissa_shaped m -> boundary tail ->
  greedy_mantissa (m ++ tail) = Some (m, tail).
Proof.
  intros (run & frac & -> & Hne & Hrun & Hfrac) [Hdc Hpoint].
  apply nonempty_length in Hne. unfold greedy_mantissa.
  destruct Hfrac as [->|(ds & -> & Hds & Hdigits)].
  - rewrite app_empty_r.
    rewrite (run_length_app _ run tail Hrun Hdc).
    apply Nat.eqb_neq in Hne. rewrite Hne.
    rewrite drop_app_length, take_app_length.
    destruct tail as [|c t]; [reflexivity|]. cbn [stops] in Hpoint.
    apply negb_true_iff in Hpoint. now rewrite Hpoint.
  - rewrite app_assoc_s. cbn [append].
    rewrite (run_length_app _ run (String "." (ds ++ tail)) Hrun eq_refl).
    apply Nat.eqb_neq in Hne. rewrite Hne.
    rewrite drop_app_length. rewrite Ascii.eqb_refl. cbn [andb].
    rewrite (run_length_app _ ds tail Hdigits (stops_digit _ Hdc)).
    apply nonempty_length, Nat.eqb_neq in Hds. rewrite Hds. cbn [negb].
    rewrite drop_app_length.
    rewrite <- Nat.add_assoc, take_app_more. cbn [Nat.add take].
    now rewrite take_app_length.
Qed.

(** *** The Treasury pattern on one dollar token *)


Lemma space_not_point (c : ascii) : is_space c = true -> Ascii.eqb "." c = false.
Proof. by_character c. Qed.

Lemma digit_or_comma_not_dollar (c : ascii) :
  Treasury.is_digit_or_comma c = true -> Ascii.eqb "$" c = false.
Proof. by_character c. Qed.








(** *** The shape of a dollar token *)

Lemma greedy_dollar_shape (s : string) (caps : captures) (rest : string) :
  greedy_dollar s = Some (caps, rest) ->
  exists sp1 mant sp2 w,
    s = (String "$" (sp1 ++ mant ++ sp2 ++ w) ++ rest)%string
    /\ all_in is_space sp1 = true
    /\ mantissa_shaped mant
    /\ all_in is_space sp2 = true
    /\ ((w = EmptyString /\ caps = [(1, mant)])
        \/ (In w ["million"; "billion"; "thousand"] /\ caps = [(2, w); (1, mant)])).
Proof.
  unfold greedy_dollar. destruct s as [|c s1]; [discriminate|].
  destruct (Ascii.eqb "$" c) eqn:Hc; [|discriminate]. apply Ascii.eqb_eq in Hc as <-.
  destruct (greedy_mantissa (drop (run_length is_space s1) s1)) as [[mant r]|] eqn:Hm;
    [|discriminate].
  pose proof (greedy_mantissa_shape _ _ _ Hm) as Hshape.
  apply greedy_mantissa_split in Hm.
  destruct (run_length_split is_space s1) as [Hsp1 _].
  destruct (run_length_split is_space r) as [Hsp2 _].
  cbn zeta. intros Hword.
  exists (take (run_length is_space s1) s1), mant, (take (run_length is_space r) r).
  assert (Hs1 : forall tail, drop (run_length is_space r) r = tail ->
                s1 = (take (run_length is_space s1) s1 ++ mant
                      ++ take (run_length is_space r) r ++ tail)%string).
  { intros tail <-. rewrite (take_drop _ r), <- Hm. symmetry. apply take_drop. }
  destruct (first_word _ _) as [[w r2]|] eqn:Hw.
  - injection Hword as <- <-. apply first_word_split in Hw as [Hr1 Hin].
    exists w. repeat split; auto.
    cbn [append]. f_equal. rewrite !app_assoc_s. now apply Hs1.
  - injection Hword as <- <-. exists EmptyString. repeat split; auto.
    cbn [append]. f_equal. rewrite !app_assoc_s. cbn [append]. now apply Hs1.
Qed.

(** *** Which magnitude words the text of a token contains *)


Lemma all_in_weaken (p q : ascii -> bool) (s : string) :
  (forall c, p c = true -> q c = true) -> all_in p s = true -> all_in q s = true.
Proof.
  intros Hpq. induction s as [|c s IH]; cbn; [reflexivity|].
  intros H. apply andb_true_iff in H as [Hc Hs]. now rewrite (Hpq _ Hc), IH.
Qed.







Lemma lower_app (a b : string) : lower (a ++ b) = (lower a ++ lower b)%string.
Proof. induction a as [|c a IH]; cbn; [reflexivity | now rewrite IH]. Qed.

Lemma has_char_app (c : ascii) (a b : string) :
  has_char c (a ++ b) = has_char c a || has_char c b.
Proof.
  induction a as [|d a IH]; cbn; [reflexivity|]. now rewrite IH, orb_assoc.
Qed.






(** *** The two scans on one dollar token *)




(** *** The suffix of a dollar token *)









(** *** Fragments without a token *)

Lemma all_in_stops (s : string) :
  all_in no_digit_or_comma s = true -> stops Treasury.is_digit_or_comma s = true.
Proof.
  destruct s as [|c s]; [reflexivity|]. cbn [all_in stops]. unfold no_digit_or_comma.
  intros H. now apply andb_true_iff in H as [-> _].
Qed.

Lemma findall_no_token (s : string) :
  all_in no_digit_or_comma s = true ->
  forall pos, finditer_from Treasury.amount_pattern 0 pos s = [].
Proof.
  induction s as [|c s IH]; intros Hall pos; [reflexivity|].
  pose proof (all_in_stops _ Hall) as Hstop.
  cbn [all_in] in Hall. apply andb_true_iff in Hall as [Hc Hs].
  rewrite finditer_from_no_match; [now apply IH|].
  rewrite match_at_amount. unfold greedy_amount, amount_body.
  destruct (startswith "$" (String c s)); cbn [drop];
    now rewrite greedy_mantissa_needs_digit by auto using all_in_stops.
Qed.

(** A fragment without any digit or comma yields no allocation: the
    normalizer returns [None]. *)
Lemma no_token_returns_none (row : list (option string)) (row_text fiscal_year : string) :
  all_in no_digit_or_comma row_text = true ->
  Treasury._extract_allocation_from_row row row_text fiscal_year = Ok None.
Proof.
  intros Hall. unfold Treasury._extract_allocation_from_row, findall, finditer.
  now rewrite findall_no_token.
Qed.

(** * Further properties of the pipeline *)

(** ** The matcher reports only matches *)

Lemma find_first_some {A B} (f : A -> option B) (xs : list A) (y : B) :
  find_first f xs = Some y -> exists x, In x xs /\ f x = Some y.
Proof.
  induction xs as [|x xs IH]; [discriminate|]. cbn [find_first].
  destruct (f x) eqn:Hx.
  - intros [= <-]. exists x. split; [now left | exact Hx].
  - intros H. destruct (IH H) as (x' & Hin & Hx'). exists x'. split; [now right | exact Hx'].
Qed.

Lemma counts_bounds (greedy : bool) (lo hi i : nat) :
  In i (counts greedy lo hi) -> lo <= i <= hi.
Proof.
  unfold counts. destruct (hi <? lo) eqn:Hlt; [intros []|].
  apply Nat.ltb_ge in Hlt.
  destruct greedy; [rewrite <- in_rev|]; rewrite in_seq; lia.
Qed.

Lemma take_run (p : ascii -> bool) (s : string) (i : nat) :
  i <= run_length p s -> all_in p (take i s) = true /\ String.length (take i s) = i.
Proof.
  revert i. induction s as [|c s IH]; intros i Hi; cbn [run_length] in Hi.
  - assert (i = 0) as -> by lia. now split.
  - destruct i as [|i]; [now split|]. destruct (p c) eqn:Hc; [|lia].
    destruct (IH i ltac:(lia)) as [Hall Hlen]. cbn. now rewrite Hc, Hall, Hlen.
Qed.

Lemma startswith_nocase_split (w s : string) :
  startswith_nocase w s = true ->
  s = (take (String.length w) s ++ drop (String.length w) s)%string
  /\ String.length (take (String.length w) s) = String.length w
  /\ startswith_nocase w (take (String.length w) s) = true.
Proof.
  revert s. induction w as [|c w IH]; intros s H; [now destruct s|].
  destruct s as [|d s]; [discriminate|]. cbn [startswith_nocase] in H.
  apply andb_true_iff in H as [Hc Hw]. destruct (IH _ Hw) as (Hs & Hlen & Hpre).
  cbn. rewrite <- Hs, Hlen, Hc, Hpre. auto.
Qed.

(** Soundness of the backtracking matcher: when [exec] succeeds, the pattern
    consumed a prefix that matches it and the continuation accepted the rest. *)
Lemma exec_sound (r : regex) :
  forall (R : Type) (s : string) (caps : captures)
         (k : string -> captures -> option R) (res : R),
    exec r s caps k = Some res ->
    exists x rest caps',
      s = (x ++ rest)%string /\ matches r x caps caps' /\ k rest caps' = Some res.
Proof.
  induction r as [|ic w|p|a IHa b IHb|a IHa b IHb|g p lo hi|i a IHa];
    intros R s caps k res H; cbn [exec] in H.
  - exists EmptyString, s, caps. repeat split; auto. constructor.
  - destruct ic.
    + destruct (startswith_nocase w s) eqn:Hw; [|discriminate].
      destruct (startswith_nocase_split _ _ Hw) as (Hs & Hlen & Hpre).
      exists (take (String.length w) s), (drop (String.length w) s), caps.
      repeat split; auto. now constructor.
    + destruct (startswith w s) eqn:Hw; [|discriminate].
      exists w, (drop (String.length w) s), caps.
      repeat split; auto using startswith_split.
      constructor; [reflexivity|]. rewrite <- (app_empty_r w) at 2. apply startswith_app.
  - destruct s as [|c s]; [discriminate|]. destruct (p c) eqn:Hc; [|discriminate].
    exists (String c EmptyString), s, caps. repeat split; auto. now constructor.
  - destruct (IHa _ _ _ _ _ H) as (x & s1 & caps1 & -> & Ha & H1).
    destruct (IHb _ _ _ _ _ H1) as (y & rest & caps2 & -> & Hb & H2).
    exists (x ++ y)%string, rest, caps2. rewrite app_assoc_s.
    repeat split; auto. econstructor; eassumption.
  - destruct (exec a s caps k) eqn:Ha.
    + injection H as <-. destruct (IHa _ _ _ _ _ Ha) as (x & rest & caps' & -> & Hm & Hk).
      exists x, rest, caps'. repeat split; auto. now apply matches_Alt_left.
    + destruct (IHb _ _ _ _ _ H) as (x & rest & caps' & -> & Hm & Hk).
      exists x, rest, caps'. repeat split; auto. now apply matches_Alt_right.
  - apply find_first_some in H as (i & Hin & Hk). apply counts_bounds in Hin.
    assert (Hrun : i <= run_length p s)
      by (destruct hi; [pose proof (Nat.le_min_l (run_length p s) n)|]; lia).
    destruct (take_run p s i Hrun) as [Hall Hlen].
    exists (take i s), (drop i s), caps. rewrite take_drop.
    repeat split; auto. constructor; auto; [lia|].
    destruct hi as [h|]; [|exact I].
    pose proof (Nat.le_min_r (run_length p s) h). lia.
  - destruct (IHa _ _ _ _ _ H) as (x & rest & caps' & -> & Hm & Hk).
    rewrite take_consumed in Hk.
    exists x, rest, ((i, x) :: caps'). repeat split; auto. now constructor.
Qed.

Lemma match_at_sound (r : regex) (s : string) (caps : captures) (rest : string) :
  match_at r s = Some (caps, rest) ->
  exists x, s = (x ++ rest)%string /\ matches r x [] caps.
Proof.
  unfold match_at. intros H.
  destruct (exec_sound _ _ _ _ _ _ H) as (x & rest' & caps' & -> & Hm & [= <- <-]).
  now exists x.
Qed.

(** [re.search] reports a match of the pattern at the offset it gives. *)
Lemma search_sound (r : regex) (text : string) (m : Match) :
  search r text = Some m ->
  exists x rest,
    drop (m_start m) text = (x ++ rest)%string /\ matches r x [] (m_groups m).
Proof.
  unfold search.
  assert (H : forall s pos, drop pos text = s -> search_from r pos s = Some m ->
                            exists x rest, drop (m_start m) text = (x ++ rest)%string
                                           /\ matches r x [] (m_groups m)).
  { induction s as [|c s IH]; intros pos Hpos Hs; [discriminate|].
    cbn [search_from] in Hs.
    destruct (match_at r (String c s)) as [[caps rest]|] eqn:Hm.
    - injection Hs as <-. cbn [m_start m_groups].
      destruct (match_at_sound _ _ _ _ Hm) as (x & Hx & Hmatch).
      exists x, rest. rewrite Hpos. auto.
    - apply (IH (S pos)); [now apply (drop_S _ _ c)|exact Hs]. }
  apply (H text 0). reflexivity.
Qed.

(** [re.finditer] likewise. *)
Lemma finditer_sound (r : regex) (text : string) (m : Match) :
  In m (finditer r text) ->
  exists x rest,
    drop (m_start m) text = (x ++ rest)%string
    /\ matches r x [] (m_groups m)
    /\ m_end m = m_start m + String.length x.
Proof.
  intros Hin.
  destruct (finditer_from_sound _ text m _ 0 0 eq_refl Hin) as (rest & Hm & Hend).
  destruct (match_at_sound _ _ _ _ Hm) as (x & Hx & Hmatch).
  exists x, rest. repeat split; auto.
  rewrite Hend, Hx, length_app. lia.
Qed.

(** ** Strings: parts, [strip], [float] *)

Lemma part_of_refl (s : string) : part_of s s.
Proof. exists EmptyString, EmptyString. cbn. now rewrite app_empty_r. Qed.

Lemma part_of_trans (a b c : string) : part_of a b -> part_of b c -> part_of a c.
Proof.
  intros (x & y & ->) (x' & y' & ->). exists (x' ++ x)%string, (y ++ y')%string.
  now rewrite !app_assoc_s.
Qed.

Lemma part_of_app_l (g a b : string) : part_of g a -> part_of g (a ++ b).
Proof.
  intros (x & y & ->). exists x, (y ++ b)%string. now rewrite !app_assoc_s.
Qed.

Lemma part_of_app_r (g a b : string) : part_of g b -> part_of g (a ++ b).
Proof.
  intros (x & y & ->). exists (a ++ x)%string, y. now rewrite !app_assoc_s.
Qed.

Lemma part_of_length (g s : string) : part_of g s -> String.length g <= String.length s.
Proof. intros (x & y & ->). rewrite !length_app. lia. Qed.

Lemma part_of_drop (n : nat) (s : string) : part_of (drop n s) s.
Proof.
  exists (take n s), EmptyString. now rewrite app_empty_r, take_drop.
Qed.

Lemma part_of_take (n : nat) (s : string) : part_of (take n s) s.
Proof.
  exists EmptyString, (drop n s). cbn. now rewrite take_drop.
Qed.

Lemma lstrip_part (s : string) : part_of (lstrip s) s.
Proof.
  unfold lstrip. induction s as [|c s IH]; cbn [span]; [apply part_of_refl|].
  destruct (is_space c).
  - destruct (span is_space s) as [a b]. cbn [snd] in *.
    apply (part_of_app_r _ (String c EmptyString) s), IH.
  - apply part_of_refl.
Qed.

Lemma rstrip_prefix (s : string) : exists tail, s = (rstrip s ++ tail)%string.
Proof.
  induction s as [|c s IH]; cbn [rstrip]; [now exists EmptyString|].
  destruct (is_space c && is_empty (rstrip s)).
  - now exists (String c s).
  - destruct IH as [tail E]. exists tail. cbn. now rewrite <- E.
Qed.

Lemma rstrip_part (s : string) : part_of (rstrip s) s.
Proof. destruct (rstrip_prefix s) as [tail E]. now exists EmptyString, tail. Qed.

Lemma strip_part (s : string) : part_of (strip s) s.
Proof. eapply part_of_trans; [apply rstrip_part | apply lstrip_part]. Qed.

Lemma strip_length (s : string) : String.length (strip s) <= String.length s.
Proof. apply part_of_length, strip_part. Qed.

Lemma lstrip_stops (s : string) : stops is_space (lstrip s) = true.
Proof.
  unfold lstrip. induction s as [|c s IH]; cbn [span]; [reflexivity|].
  destruct (is_space c) eqn:Hc.
  - now destruct (span is_space s).
  - cbn [snd stops]. now rewrite Hc.
Qed.

Lemma lstrip_fixed (s : string) : stops is_space s = true -> lstrip s = s.
Proof.
  unfold lstrip. destruct s as [|c s]; [reflexivity|]. cbn [stops span].
  intros H. apply negb_true_iff in H. now rewrite H.
Qed.

Lemma rstrip_idempotent (s : string) : rstrip (rstrip s) = rstrip s.
Proof.
  induction s as [|c s IH]; cbn [rstrip]; [reflexivity|].
  destruct (is_space c && is_empty (rstrip s)) eqn:E; [reflexivity|].
  cbn [rstrip]. now rewrite IH, E.
Qed.

Lemma rstrip_stops (s : string) :
  stops is_space s = true -> stops is_space (rstrip s) = true.
Proof.
  destruct s as [|c s]; [reflexivity|]. cbn [stops rstrip]. intros H.
  apply negb_true_iff in H. rewrite H. cbn [andb stops]. now rewrite H.
Qed.

Lemma strip_stripped (s : string) : stripped (strip s).
Proof.
  unfold stripped, strip.
  rewrite (lstrip_fixed (rstrip (lstrip s))) by apply rstrip_stops, lstrip_stops.
  apply rstrip_idempotent.
Qed.

Lemma has_char_part (c : ascii) (g s : string) :
  part_of g s -> has_char c s = false -> has_char c g = false.
Proof.
  intros (x & y & ->). rewrite !has_char_app. intros H.
  apply orb_false_iff in H as [_ H]. now apply orb_false_iff in H as [H _].
Qed.

Lemma span_app (p : ascii -> bool) (a b : string) :
  all_in p a = true -> stops p b = true -> span p (a ++ b) = (a, b).
Proof.
  induction a as [|c a IH]; cbn [all_in append span]; intros Ha Hb.
  - destruct b as [|d b]; [reflexivity|]. cbn [stops] in Hb. cbn [span].
    apply negb_true_iff in Hb. now rewrite Hb.
  - apply andb_true_iff in Ha as [Hc Ha]. now rewrite Hc, IH.
Qed.

Lemma span_all (p : ascii -> bool) (a : string) :
  all_in p a = true -> span p a = (a, EmptyString).
Proof.
  intros H. rewrite <- (app_empty_r a) at 1. now apply span_app.
Qed.

Lemma digits_value_nonneg (s : string) :
  forall acc, (0 <= acc)%Z -> (0 <= digits_value acc s)%Z.
Proof.
  induction s as [|c s IH]; intros acc Hacc; cbn [digits_value]; [exact Hacc|].
  apply IH. lia.
Qed.

(** [float] never yields a negative number: the patterns hand over no sign. *)
Lemma float_nonneg (s : string) (v : Q) : float s = Ok v -> (0 <= v)%Q.
Proof.
  unfold float. destruct (span is_digit s) as [ip rest].
  destruct rest as [|c fp].
  - destruct (String.length ip =? 0); [discriminate|]. intros [= <-].
    unfold Qle. cbn. pose proof (digits_value_nonneg ip 0 ltac:(lia)). lia.
  - destruct (_ && _); [|discriminate]. intros [= <-].
    unfold Qle. cbn [Qnum Qden]. pose proof (digits_value_nonneg (ip ++ fp) 0 ltac:(lia)). lia.
Qed.

Lemma float_digits (s : string) :
  all_in is_digit s = true -> s <> EmptyString ->
  float s = Ok (digits_value 0 s # 1).
Proof.
  intros Hall Hne. unfold float. rewrite (span_all _ _ Hall).
  destruct s as [|c s]; [contradiction|]. reflexivity.
Qed.

Lemma float_fraction (ip fp : string) :
  all_in is_digit ip = true -> all_in is_digit fp = true ->
  (ip ++ fp)%string <> EmptyString ->
  exists v, float (ip ++ String "." fp) = Ok v.
Proof.
  intros Hip Hfp Hne. unfold float. rewrite (span_app _ ip (String "." fp) Hip eq_refl).
  cbv beta iota. change (Ascii.eqb "." ".") with true. unfold all_digits.
  rewrite (span_all _ _ Hfp). cbn [andb].
  destruct (String.length ip + String.length fp =? 0) eqn:E.
  - apply Nat.eqb_eq in E. exfalso. apply Hne.
    destruct ip; [|cbn in E; lia]. destruct fp; [reflexivity | cbn in E; lia].
  - cbn [negb]. eexists. reflexivity.
Qed.

Lemma remove_commas_app (a b : string) :
  remove_commas (a ++ b) = (remove_commas a ++ remove_commas b)%string.
Proof.
  induction a as [|c a IH]; [reflexivity|]. cbn [append remove_commas].
  destruct (Ascii.eqb c ","); [exact IH | cbn; now rewrite IH].
Qed.

Lemma remove_commas_digits (s : string) :
  all_in is_digit s = true -> remove_commas s = s.
Proof.
  induction s as [|c s IH]; [reflexivity|]. cbn [all_in remove_commas]. intros H.
  apply andb_true_iff in H as [Hc Hs].
  assert (Ascii.eqb c "," = false) as -> by (revert Hc; clear; by_character c).
  now rewrite IH.
Qed.

Lemma remove_commas_all_digits (s : string) :
  all_in Treasury.is_digit_or_comma s = true -> all_in is_digit (remove_commas s) = true.
Proof.
  induction s as [|c s IH]; [reflexivity|]. cbn [all_in remove_commas]. intros H.
  apply andb_true_iff in H as [Hc Hs].
  destruct (Ascii.eqb c ",") eqn:E; [now apply IH|].
  cbn [all_in]. rewrite IH by exact Hs. unfold Treasury.is_digit_or_comma in Hc.
  rewrite E, orb_false_r in Hc. now rewrite Hc.
Qed.

(** ** What the groups of a match hold *)

Lemma matches_group (r : regex) (x : string) (caps caps' : captures) :
  matches r x caps caps' ->
  forall i g,
    group i caps' = Some g ->
    group i caps = Some g \/ (part_of g x /\ captured r i g).
Proof.
  induction 1 as [caps | ic w x caps Hlen Hw | p c caps Hc
                  | a b x y caps0 caps1 caps2 Ha IHa Hb IHb
                  | a b x caps0 caps1 Ha IHa | a b x caps0 caps1 Hb IHb
                  | greedy p lo hi x caps Hall Hlo Hhi
                  | j a x caps0 caps1 Ha IHa];
    intros i g Hg; try (now left).
  - destruct (IHb _ _ Hg) as [Hg1|[Hpart Hcap]].
    + destruct (IHa _ _ Hg1) as [Hg0|[Hpart Hcap]]; [now left|].
      right. split; [now apply part_of_app_l | now left].
    + right. split; [now apply part_of_app_r | now right].
  - destruct (IHa _ _ Hg) as [Hg0|[Hpart Hcap]]; [now left|].
    right. split; [exact Hpart | now left].
  - destruct (IHb _ _ Hg) as [Hg0|[Hpart Hcap]]; [now left|].
    right. split; [exact Hpart | now right].
  - cbn [group] in Hg. destruct (i =? j) eqn:E.
    + injection Hg as <-. apply Nat.eqb_eq in E. right.
      split; [apply part_of_refl|]. left. split; [exact E|]. now exists caps0, caps1.
    + destruct (IHa _ _ Hg) as [Hg0|[Hpart Hcap]]; [now left|].
      right. split; [exact Hpart | now right].
Qed.

(** The group a search reports is a part of the text and has the shape of
    the group's pattern. *)
Lemma search_group (r : regex) (text : string) (m : Match) (i : nat) (g : string) :
  search r text = Some m -> group i (m_groups m) = Some g ->
  part_of g text /\ captured r i g.
Proof.
  intros Hs Hg. destruct (search_sound _ _ _ Hs) as (x & rest & Hx & Hm).
  destruct (matches_group _ _ _ _ Hm _ _ Hg) as [Hnil|[Hpart Hcap]]; [discriminate|].
  split; [|exact Hcap].
  eapply part_of_trans; [exact Hpart|].
  eapply part_of_trans; [|apply (part_of_drop (m_start m) text)].
  rewrite Hx. apply part_of_app_l, part_of_refl.
Qed.

Lemma group_of_cases (i : nat) (m : Match) :
  (group i (m_groups m) = None /\ group_of i m = EmptyString)
  \/ (group i (m_groups m) = Some (group_of i m)).
Proof. unfold group_of. destruct (group i (m_groups m)); [now right | now left]. Qed.

(** Inversion of [matches] on the shapes the patterns are built from. *)
Lemma matches_Rep_inv (greedy : bool) (p : ascii -> bool) (lo : nat) (hi : option nat)
      (x : string) (caps caps' : captures) :
  matches (Rep greedy p lo hi) x caps caps' ->
  all_in p x = true /\ lo <= String.length x
  /\ match hi with Some h => String.length x <= h | None => True end.
Proof. inversion 1; subst; auto. Qed.

Lemma matches_Seq_inv (a b : regex) (x : string) (caps caps' : captures) :
  matches (Seq a b) x caps caps' ->
  exists y z caps1, x = (y ++ z)%string /\ matches a y caps caps1 /\ matches b z caps1 caps'.
Proof. inversion 1; subst. eauto 6. Qed.

Lemma matches_Cls_inv (p : ascii -> bool) (x : string) (caps caps' : captures) :
  matches (Cls p) x caps caps' -> exists c, x = String c EmptyString /\ p c = true.
Proof. inversion 1; subst. eauto. Qed.

Lemma matches_Alt_inv (a b : regex) (x : string) (caps caps' : captures) :
  matches (Alt a b) x caps caps' -> matches a x caps caps' \/ matches b x caps caps'.
Proof. inversion 1; subst; auto. Qed.

Lemma matches_Eps_inv (x : string) (caps caps' : captures) :
  matches Eps x caps caps' -> x = EmptyString.
Proof. inversion 1; subst; auto. Qed.

Lemma matches_Lit_inv (ignorecase : bool) (w x : string) (caps caps' : captures) :
  matches (Lit ignorecase w) x caps caps' ->
  String.length x = String.length w
  /\ (if ignorecase then startswith_nocase w x else startswith w x) = true.
Proof. inversion 1; subst; auto. Qed.

Lemma matches_lit_inv (w x : string) (caps caps' : captures) :
  matches (lit w) x caps caps' -> x = w.
Proof.
  intros H. apply matches_Lit_inv in H as [Hlen Hw]. apply startswith_split in Hw.
  assert (E : drop (String.length w) x = EmptyString).
  { pose proof (length_drop (String.length w) x) as Hd. rewrite Hlen, Nat.sub_diag in Hd.
    destruct (drop _ x); [reflexivity | discriminate]. }
  rewrite E, app_empty_r in Hw. exact Hw.
Qed.

(** The mantissa group [[\d,]+(?:\.\d+)?]. *)
Lemma matches_mantissa (g : string) (caps caps' : captures) :
  matches (Seq (plus Treasury.is_digit_or_comma) (opt (Seq (lit ".") (plus is_digit))))
          g caps caps' ->
  mantissa_shaped g.
Proof.
  intros H. apply matches_Seq_inv in H as (run & frac & caps1 & -> & Hrun & Hfrac).
  apply matches_Rep_inv in Hrun as (Hall & Hlen & _).
  exists run, frac. split; [reflexivity|]. split; [|split; [exact Hall|]].
  - intros ->. cbn in Hlen. lia.
  - apply matches_Alt_inv in Hfrac as [Hfrac|Hfrac].
    + right. apply matches_Seq_inv in Hfrac as (pt & ds & caps2 & -> & Hpt & Hds).
      apply matches_lit_inv in Hpt. subst pt.
      apply matches_Rep_inv in Hds as (Hds & Hdlen & _).
      exists ds. split; [reflexivity|]. split; [|exact Hds].
      intros ->. cbn in Hdlen. lia.
    + left. now apply matches_Eps_inv in Hfrac.
Qed.

(** The number group [\d+(?:\.\d+)?] of the percentage and rate patterns. *)
Lemma matches_number (g : string) (caps caps' : captures) :
  matches (Seq (plus is_digit) (opt (Seq (lit ".") (plus is_digit)))) g caps caps' ->
  exists v, float g = Ok v.
Proof.
  intros H. apply matches_Seq_inv in H as (run & frac & caps1 & -> & Hrun & Hfrac).
  apply matches_Rep_inv in Hrun as (Hall & Hlen & _).
  assert (Hne : run <> EmptyString) by (intros ->; cbn in Hlen; lia).
  apply matches_Alt_inv in Hfrac as [Hfrac|Hfrac].
  - apply matches_Seq_inv in Hfrac as (pt & ds & caps2 & -> & Hpt & Hds).
    apply matches_lit_inv in Hpt. subst pt.
    apply matches_Rep_inv in Hds as (Hds & _ & _).
    apply float_fraction; auto. destruct run; [contradiction | discriminate].
  - apply matches_Eps_inv in Hfrac. subst frac. rewrite app_empty_r.
    eexists. now apply float_digits.
Qed.

Lemma matches_Group_inv (i : nat) (a : regex) (x : string) (caps caps' : captures) :
  matches (Group i a) x caps caps' ->
  exists caps1, caps' = (i, x) :: caps1 /\ matches a x caps caps1.
Proof. inversion 1; subst. eauto. Qed.

(** A group that is set stays set. *)
Lemma matches_group_kept (r : regex) (x : string) (caps caps' : captures) :
  matches r x caps caps' ->
  forall i, group i caps <> None -> group i caps' <> None.
Proof.
  induction 1; intros j Hj; auto.
  cbn [group]. destruct (j =? i); [discriminate | auto].
Qed.

Lemma group_head (i : nat) (x : string) (caps : captures) :
  group i ((i, x) :: caps) = Some x.
Proof. cbn [group]. now rewrite Nat.eqb_refl. Qed.

(** ** The alternative scenarios of the cost analyzer *)

Lemma current_total_youth_days (b : Q) :
  (Scenarios.total_youth_days (Scenarios.current b)
   == b * (0.906 / 857 + 0.094 / 41))%Q.
Proof.
  unfold Scenarios.current, Cost.detention_daily_cost, Cost.community_daily_cost.
  cbn [Scenarios.total_youth_days]. field.
Qed.

Lemma current_days_zero (b : Q) :
  Qeq_bool (Scenarios.total_youth_days (Scenarios.current b)) 0 = true <-> (b == 0)%Q.
Proof.
  rewrite Qeq_bool_iff, current_total_youth_days. split.
  - intros H. apply Qmult_integral in H as [H|H]; [exact H|discriminate H].
  - intros ->. reflexivity.
Qed.

(** X2.  [calculate_alternative_scenarios] divides by the youth days of the
    current scenario.  For a zero budget those are zero and the call fails
    (ZeroDivisionError); for a budget of one dollar or more it returns the
    current scenario followed by the six alternatives, from 80 down to 30
    percent detention. *)
Theorem scenarios_fail_for_zero_budget (total_budget : Q) :
  ((total_budget == 0)%Q ->
   Scenarios.calculate_alternative_scenarios total_budget = None)
  /\ ((1 <= total_budget)%Q ->
      exists more,
        Scenarios.calculate_alternative_scenarios total_budget
        = Some (Scenarios.current total_budget :: more)
        /\ map Scenarios.detention_percentage more = [80; 70; 60; 50; 40; 30]%Q
        /\ map Scenarios.community_percentage more = [20; 30; 40; 50; 60; 70]%Q
        /\ Forall (fun s => Scenarios.capacity_increase_pct s <> None) more).
Proof.
  unfold Scenarios.calculate_alternative_scenarios.
  cbn [Scenarios.progressive_loop]. unfold Scenarios.progressive.
  destruct (Qeq_bool (Scenarios.total_youth_days (Scenarios.current total_budget)) 0) eqn:Hz.
  - apply current_days_zero in Hz. split; [reflexivity|].
    intros Hone. lra.
  - split.
    + intros H. apply current_days_zero in H. congruence.
    + intros _. eexists. split; [reflexivity|]. split; [reflexivity|].
      split; [reflexivity|]. repeat constructor; discriminate.
Qed.

Lemma scenarios_fail_for_zero_budget_witness :
  Scenarios.calculate_alternative_scenarios 0 = None
  /\ exists more,
       Scenarios.calculate_alternative_scenarios 500000000
       = Some (Scenarios.current 500000000 :: more)
       /\ map Scenarios.detention_percentage more = [80; 70; 60; 50; 40; 30]%Q
       /\ map Scenarios.community_percentage more = [20; 30; 40; 50; 60; 70]%Q
       /\ Forall (fun s => Scenarios.capacity_increase_pct s <> None) more.
Proof.
  split.
  - apply (scenarios_fail_for_zero_budget 0). reflexivity.
  - apply (scenarios_fail_for_zero_budget 500000000). discriminate.
Defined.

(** ** The projection of savings *)

Lemma project_loop_app (b : Q) (todo : nat) :
  forall acc y,
    exists new,
      Projection.project_loop b acc y todo = acc ++ new
      /\ map Projection.year new = List.seq y todo.
Proof.
  induction todo as [|todo IH]; intros acc y; cbn [Projection.project_loop].
  - exists []. now rewrite app_nil_r.
  - destruct (IH (acc ++ [Projection.project_year b acc y]) (S y)) as (new & -> & Hy).
    exists (Projection.project_year b acc y :: new). rewrite <- app_assoc. split; [reflexivity|].
    cbn. now rewrite Hy.
Qed.

Lemma project_loop_invariant (P : list Projection.Projection -> Projection.Projection -> Prop)
      (b : Q) :
  (forall acc y, P acc (Projection.project_year b acc y)) ->
  forall todo acc y,
    (forall pre p post, acc = pre ++ p :: post -> P pre p) ->
    forall pre p post,
      Projection.project_loop b acc y todo = pre ++ p :: post -> P pre p.
Proof.
  intros Hstep. induction todo as [|todo IH]; intros acc y Hacc pre p post;
    cbn [Projection.project_loop].
  - apply Hacc.
  - apply IH. intros pre' p' post' E.
    destruct post' as [|q post'] using rev_ind.
    + apply app_inj_tail in E as [-> <-]. apply Hstep.
    + clear IHpost'. rewrite app_comm_cons, app_assoc in E.
      apply app_inj_tail in E as [E _]. eapply Hacc, E.
Qed.

Lemma max2_cases (x y : Q) :
  (max2 x y = x /\ (y <= x)%Q) \/ (max2 x y = y /\ (x < y)%Q).
Proof.
  unfold max2. destruct (Qltb x y) eqn:H.
  - right. split; [reflexivity | now apply Qltb_true].
  - left. split; [reflexivity | now apply Qltb_false].
Qed.

(** X4.  [project_savings] gives one row per year from 0 to [years]; the
    detention share stays between 40 and 90.6 percent, the two shares add up
    to 100, from year 11 on the detention share is 40, and year 0 saves
    nothing. *)
Theorem projection_schedule (table : list Db.BudgetAllocation) (years : nat) :
  let rows := Projection.project_savings table years in
  map Projection.year rows = List.seq 0 (years + 1)
  /\ Forall (fun p =>
               (40 <= Projection.detention_percentage p <= 90.6)%Q
               /\ (Projection.detention_percentage p
                   + Projection.community_percentage p == 100)%Q
               /\ (11 <= Projection.year p ->
                   Projection.detention_percentage p = 40%Q)
               /\ (Projection.year p = 0 -> Projection.cost_savings p = 0%Q))
            rows.
Proof.
  cbn zeta. unfold Projection.project_savings.
  set (b := Projection.budget_or_estimate _). split.
  - destruct (project_loop_app b (years + 1) [] 0) as (new & -> & Hy). exact Hy.
  - apply Forall_forall. intros p Hin. apply in_split in Hin as (pre & post & E).
    revert pre p post E.
    apply (project_loop_invariant
             (fun _ p =>
                (40 <= Projection.detention_percentage p <= 90.6)%Q
                /\ (Projection.detention_percentage p
                    + Projection.community_percentage p == 100)%Q
                /\ (11 <= Projection.year p ->
                    Projection.detention_percentage p = 40%Q)
                /\ (Projection.year p = 0 -> Projection.cost_savings p = 0%Q)) b).
    + intros acc y. unfold Projection.project_year.
      cbn [Projection.detention_percentage Projection.community_percentage Projection.year
           Projection.cost_savings].
      set (x := (90.6 - inject_Z (Z.of_nat y) * 5)%Q).
      assert (Hx : (x <= 90.6)%Q).
      { assert (0 <= inject_Z (Z.of_nat y))%Q by (unfold Qle; cbn; lia).
        unfold x. lra. }
      split; [|split; [|split]]; [| | |now intros ->].
      * destruct (max2_cases 40 x) as [[-> _]|[-> H]].
        -- split; lra.
        -- split; lra.
      * ring.
      * intros Hy. destruct (max2_cases 40 x) as [[-> _]|[_ H]]; [reflexivity|].
        exfalso. assert (11 <= inject_Z (Z.of_nat y))%Q by (unfold Qle; cbn; lia).
        unfold x in H. lra.
    + intros pre p post E. destruct pre; discriminate.
Qed.


(** ** The base scraper *)

(** X5.  [get_page] makes at most three requests and returns the first
    response it gets; it returns [None] exactly when all three attempts fail,
    and it has then slept 1 + 2 seconds between them. *)
Theorem get_page_retries {R : Type} (outcome : nat -> option R) :
  let f := Base.get_page outcome in
  1 <= Base.requests f <= 3
  /\ (Base.response f = None
      <-> outcome 0 = None /\ outcome 1 = None /\ outcome 2 = None)
  /\ Base.response f = outcome (Base.requests f - 1)
  /\ (forall i, i < Base.requests f - 1 -> outcome i = None)
  /\ Base.backoff f = match Base.requests f with 1 => 0 | 2 => 1 | _ => 3 end.
Proof.
  unfold Base.get_page, Base.max_retries, Base.retry_delay.
  cbn.
  destruct (outcome 0) eqn:H0; cbn.
  { split; [lia|]. split; [split; [discriminate | intros [? _]; congruence]|].
    split; [congruence|]. split; [intros i Hi; lia | reflexivity]. }
  destruct (outcome 1) eqn:H1; cbn.
  { split; [lia|]. split; [split; [discriminate | intros (_ & ? & _); congruence]|].
    split; [congruence|]. split; [|reflexivity].
    intros i Hi. assert (i = 0) as -> by lia. exact H0. }
  assert (Hbefore : forall i, i < 2 -> outcome i = None).
  { intros i Hi. assert (i = 0 \/ i = 1) as [-> | ->] by lia; assumption. }
  destruct (outcome 2) eqn:H2; cbn.
  - split; [lia|]. split; [split; [discriminate | intros (_ & _ & ?); congruence]|].
    split; [congruence|]. split; [exact Hbefore | reflexivity].
  - split; [lia|]. split; [split; [auto | reflexivity]|].
    split; [congruence|]. split; [exact Hbefore | reflexivity].
Qed.

(** *** [extract_tables] and the row dictionaries *)

Lemma dict_set_keys (k v : string) (d : Base.Dict) :
  map fst (Base.dict_set k v d)
  = if in_dec string_dec k (map fst d) then map fst d else map fst d ++ [k].
Proof.
  induction d as [|[k' v'] d IH]; cbn [Base.dict_set map fst]; [reflexivity|].
  destruct (String.eqb k' k) eqn:E.
  - apply String.eqb_eq in E. subst.
    destruct (in_dec string_dec k (k :: map fst d)) as [_|H]; [reflexivity|].
    exfalso. apply H. now left.
  - apply String.eqb_neq in E. cbn [map fst]. rewrite IH.
    destruct (in_dec string_dec k (map fst d)) as [H|H];
      destruct (in_dec string_dec k (k' :: map fst d)) as [H'|H']; try reflexivity.
    + exfalso. apply H'. now right.
    + destruct H' as [H'|H']; [congruence | contradiction].
Qed.

Lemma lookup_dict_set (k k' v : string) (d : Base.Dict) :
  Budget.lookup k (Base.dict_set k' v d)
  = if String.eqb k' k then Some v else Budget.lookup k d.
Proof.
  induction d as [|[k0 v0] d IH]; cbn [Base.dict_set Budget.lookup].
  - reflexivity.
  - destruct (String.eqb k0 k') eqn:E0; cbn [Budget.lookup].
    + apply String.eqb_eq in E0. subst k0.
      destruct (String.eqb k' k); reflexivity.
    + destruct (String.eqb k0 k) eqn:E1; [|exact IH].
      apply String.eqb_eq in E1. subst k0.
      destruct (String.eqb k' k) eqn:E2; [|reflexivity].
      apply String.eqb_eq in E2. subst k'. now rewrite String.eqb_refl in E0.
Qed.

Lemma fold_dict_set_keys (kvs : list (string * string)) :
  forall acc,
    NoDup (map fst acc) ->
    NoDup (map fst (fold_left (fun d kv => Base.dict_set (fst kv) (snd kv) d) kvs acc))
    /\ (forall k,
           In k (map fst (fold_left (fun d kv => Base.dict_set (fst kv) (snd kv) d) kvs acc))
           <-> In k (map fst acc) \/ In k (map fst kvs)).
Proof.
  induction kvs as [|[k v] kvs IH]; intros acc Hacc; cbn [fold_left fst snd map].
  - split; [exact Hacc|]. intros k. cbn [In]. tauto.
  - assert (Hset : NoDup (map fst (Base.dict_set k v acc))).
    { rewrite dict_set_keys. destruct (in_dec _ _ _) as [H|H]; [exact Hacc|].
      apply NoDup_app; [exact Hacc | repeat constructor; intros [] |].
      intros x Hx [<-|[]]. contradiction. }
    destruct (IH _ Hset) as [Hnd Hin]. split; [exact Hnd|].
    intros k0. rewrite Hin, dict_set_keys.
    destruct (in_dec string_dec k (map fst acc)) as [H|H].
    + cbn [In]. split; [tauto|]. intros [?|[<-|?]]; tauto.
    + rewrite in_app_iff. cbn [In]. tauto.
Qed.

Lemma fold_dict_set_lookup (k : string) (kvs : list (string * string)) :
  forall acc,
    Budget.lookup k (fold_left (fun d kv => Base.dict_set (fst kv) (snd kv) d) kvs acc)
    = match find (fun kv => String.eqb (fst kv) k) (rev kvs) with
      | Some kv => Some (snd kv)
      | None => Budget.lookup k acc
      end.
Proof.
  induction kvs as [|[k' v] kvs IH] using rev_ind; intros acc; [reflexivity|].
  rewrite fold_left_app, rev_app_distr. cbn [fold_left rev app find fst snd].
  rewrite lookup_dict_set. destruct (String.eqb k' k); [reflexivity | apply IH].
Qed.

(** X6.  The dictionary built from the headers and the cells of a row gives,
    for a header, the cell of the last column with that header: when two
    columns share a header the earlier cell is lost.  No key occurs twice. *)
Theorem row_dictionary_lookup (headers cells : list string) (k : string) :
  Budget.lookup k (Base.dict_zip headers cells)
  = option_map snd (find (fun kv => String.eqb (fst kv) k) (rev (combine headers cells)))
  /\ NoDup (map fst (Base.dict_zip headers cells)).
Proof.
  unfold Base.dict_zip. split.
  - rewrite fold_dict_set_lookup. now destruct (find _ _).
  - apply fold_dict_set_keys. constructor.
Qed.

Lemma combine_keys (keys vals : list string) :
  List.length vals = List.length keys -> map fst (combine keys vals) = keys.
Proof.
  revert vals. induction keys as [|k ks IH]; intros [|v vs] H; try discriminate; [reflexivity|].
  cbn. f_equal. apply IH. now injection H.
Qed.

Lemma rows_of_spec (headers : list string) (trs : list (list string)) (d : Base.Dict) :
  In d (Base.rows_of headers trs) ->
  exists cells,
    In cells trs /\ cells <> []
    /\ List.length cells = List.length headers
    /\ cells <> headers
    /\ d = Base.dict_zip headers cells.
Proof.
  induction trs as [|cells trs IH]; cbn [Base.rows_of]; [intros []|].
  destruct cells as [|c cells].
  - intros H. destruct (IH H) as (cells' & Hin & Hrest). exists cells'. split; [now right|exact Hrest].
  - destruct (_ && _) eqn:Hkeep.
    + intros [<-|H].
      * apply andb_true_iff in Hkeep as [Hlen Hne]. apply Nat.eqb_eq in Hlen.
        exists (c :: cells). split; [now left|]. split; [discriminate|].
        split; [exact Hlen|]. split; [|reflexivity].
        unfold Base.list_eqb in Hne. now destruct (list_eq_dec _ _ _).
      * destruct (IH H) as (cells' & Hin & Hrest). exists cells'. split; [now right|exact Hrest].
    + intros H. destruct (IH H) as (cells' & Hin & Hrest). exists cells'. split; [now right|exact Hrest].
Qed.

(** X7.  Every table [extract_tables] returns has at least one header and one
    data row; the keys of a data row are exactly the headers, each once. *)
Theorem extract_tables_invariants (soup : list Base.HtmlTable) :
  Forall (fun t =>
            Base.headers t <> [] /\ Base.data t <> []
            /\ Forall (fun d =>
                         NoDup (map fst d)
                         /\ forall k, In k (map fst d) <-> In k (Base.headers t))
                      (Base.data t))
         (Base.extract_tables soup).
Proof.
  induction soup as [|table soup IH]; cbn [Base.extract_tables]; [constructor|].
  destruct (Base.rows_of (Base.ths table) (Base.trs table)) as [|d ds] eqn:Hrows;
    [exact IH|].
  constructor; [|exact IH]. cbn [Base.headers Base.data].
  assert (Hd : forall d', In d' (d :: ds) ->
                          exists cells,
                            cells <> []
                            /\ List.length cells = List.length (Base.ths table)
                            /\ d' = Base.dict_zip (Base.ths table) cells).
  { intros d' Hin. rewrite <- Hrows in Hin.
    destruct (rows_of_spec _ _ _ Hin) as (cells & _ & Hne & Hlen & _ & E).
    now exists cells. }
  split; [|split; [discriminate|]].
  - destruct (Hd d (or_introl eq_refl)) as (cells & Hne & Hlen & _).
    intros E. rewrite E in Hlen. destruct cells; [now apply Hne | discriminate].
  - apply Forall_forall. intros d' Hin.
    destruct (Hd d' Hin) as (cells & _ & Hlen & ->). unfold Base.dict_zip.
    destruct (fold_dict_set_keys (combine (Base.ths table) cells) [])
      as [Hnd Hkeys]; [constructor|].
    split; [exact Hnd|]. intros k. rewrite Hkeys, combine_keys by exact Hlen.
    cbn [map In]. tauto.
Qed.

(** ** Grouping by fiscal year *)

Lemma group_add_keys (year : string) (a : Alloc.t) (by_year : list (string * list Alloc.t)) :
  map fst (Treasury.group_add year a by_year)
  = if in_dec string_dec year (map fst by_year) then map fst by_year
    else map fst by_year ++ [year].
Proof.
  induction by_year as [|[y allocs] rest IH]; cbn [Treasury.group_add map fst]; [reflexivity|].
  destruct (String.eqb y year) eqn:E.
  - apply String.eqb_eq in E. subst. clear IH.
    destruct (in_dec string_dec year (year :: map fst rest)) as [_|H]; [reflexivity|].
    exfalso. apply H. now left.
  - apply String.eqb_neq in E. cbn [map fst]. rewrite IH.
    destruct (in_dec string_dec year (map fst rest)) as [H|H];
      destruct (in_dec string_dec year (y :: map fst rest)) as [H'|H']; try reflexivity.
    + exfalso. apply H'. now right.
    + destruct H' as [H'|H']; [congruence | contradiction].
Qed.

Lemma keys_nodup_grow (k : string) (keys : list string) :
  NoDup keys ->
  NoDup (if in_dec string_dec k keys then keys else keys ++ [k]).
Proof.
  intros Hnd. destruct (in_dec _ _ _) as [H|H]; [exact Hnd|].
  apply NoDup_app; [exact Hnd | repeat constructor; intros [] |].
  intros x Hx [<-|[]]. contradiction.
Qed.

Lemma keys_grow_in (k x : string) (keys : list string) :
  In x (if in_dec string_dec k keys then keys else keys ++ [k]) <-> In x keys \/ x = k.
Proof.
  destruct (in_dec _ _ _) as [H|H].
  - split; [tauto|]. intros [Hx|Hx]; [exact Hx | now subst].
  - rewrite in_app_iff. cbn [In]. split; intros [Hx|Hx]; auto.
    destruct Hx as [Hx|[]]; auto.
Qed.

Lemma in_keys {B} (k : string) (v : B) (l : list (string * B)) :
  In (k, v) l -> In k (map fst l).
Proof. intros H. apply (in_map fst) in H. exact H. Qed.

Lemma group_add_in (year : string) (a : Alloc.t) (by_year : list (string * list Alloc.t))
      (y : string) (allocs : list Alloc.t) :
  NoDup (map fst by_year) ->
  In (y, allocs) (Treasury.group_add year a by_year) ->
  (y <> year /\ In (y, allocs) by_year)
  \/ (y = year
      /\ exists before,
          allocs = before ++ [a]
          /\ (In (year, before) by_year
              \/ (before = [] /\ ~ In year (map fst by_year)))).
Proof.
  induction by_year as [|[y0 allocs0] rest IH]; intros Hnd; cbn [Treasury.group_add].
  - intros [[= <- <-]|[]]. right. split; [reflexivity|]. exists []. split; [reflexivity|].
    right. split; [reflexivity | intros []].
  - cbn [map fst] in Hnd. apply NoDup_cons_iff in Hnd as [Hfresh Hnd].
    destruct (String.eqb y0 year) eqn:E.
    + apply String.eqb_eq in E. subst y0. intros [[= <- <-]|H].
      * right. split; [reflexivity|]. exists allocs0. split; [reflexivity|]. left. now left.
      * left. split; [|now right]. intros ->. apply Hfresh. eapply in_keys, H.
    + apply String.eqb_neq in E. intros [[= <- <-]|H].
      * left. split; [exact E | now left].
      * destruct (IH Hnd H) as [[Hne Hin]|[-> (before & -> & Hb)]].
        -- left. split; [exact Hne | now right].
        -- right. split; [reflexivity|]. exists before. split; [reflexivity|].
           destruct Hb as [Hb|[-> Hb]]; [left; now right|].
           right. split; [reflexivity|]. cbn [map fst]. intros [?|?]; [congruence|contradiction].
Qed.

Lemma filter_snoc {A} (f : A -> bool) (l : list A) (x : A) :
  filter f (l ++ [x]) = filter f l ++ (if f x then [x] else []).
Proof. rewrite filter_app. reflexivity. Qed.

Lemma groups_of_step (seen : list Alloc.t) (by_year : list (string * list Alloc.t))
      (a : Alloc.t) :
  groups_of seen by_year ->
  groups_of (seen ++ [a]) (Treasury.group_add (Alloc.fiscal_year a) a by_year).
Proof.
  intros (Hnd & Hgroups & Hseen). split; [|split].
  - rewrite group_add_keys. now apply keys_nodup_grow.
  - intros year allocs Hin. rewrite filter_snoc. unfold of_year at 2.
    destruct (group_add_in _ _ _ _ _ Hnd Hin) as [[Hne Hold]|[-> (before & -> & Hb)]].
    + destruct (Hgroups _ _ Hold) as [Hne' ->].
      apply String.eqb_neq in Hne. rewrite String.eqb_sym, Hne, app_nil_r. auto.
    + rewrite String.eqb_refl. split; [now destruct before|]. f_equal.
      destruct Hb as [Hb|[-> Hb]]; [now apply Hgroups|].
      symmetry. apply filter_all_false. intros x Hx.
      apply String.eqb_neq. intros E. apply Hb. rewrite <- E. now apply Hseen.
  - intros x Hx. rewrite group_add_keys, keys_grow_in.
    apply in_app_or in Hx as [Hx|[<-|[]]]; [left; now apply Hseen | now right].
Qed.

Lemma groups_of_fold (l : list Alloc.t) :
  forall seen by_year,
    groups_of seen by_year ->
    groups_of (seen ++ l)
              (fold_left (fun by_year alloc =>
                            Treasury.group_add (Alloc.fiscal_year alloc) alloc by_year)
                         l by_year).
Proof.
  induction l as [|a l IH]; intros seen by_year H; cbn [fold_left].
  - now rewrite app_nil_r.
  - replace (seen ++ a :: l) with ((seen ++ [a]) ++ l) by now rewrite <- app_assoc.
    apply IH, groups_of_step, H.
Qed.

Lemma group_by_year_groups (allocations : list Alloc.t) :
  groups_of allocations (Treasury.group_by_year allocations).
Proof.
  apply (groups_of_fold allocations [] []). repeat split.
  - constructor.
  - destruct H.
  - destruct H.
  - intros a [].
Qed.


(** ** The summary report of the questions on notice *)

Lemma count_add_keys (key : string) (counts : list (string * nat)) :
  map fst (QoN.count_add key counts)
  = if in_dec string_dec key (map fst counts) then map fst counts
    else map fst counts ++ [key].
Proof.
  induction counts as [|[k n] rest IH]; cbn [QoN.count_add map fst]; [reflexivity|].
  destruct (String.eqb k key) eqn:E.
  - apply String.eqb_eq in E. subst. clear IH.
    destruct (in_dec string_dec key (key :: map fst rest)) as [_|H]; [reflexivity|].
    exfalso. apply H. now left.
  - apply String.eqb_neq in E. cbn [map fst]. rewrite IH.
    destruct (in_dec string_dec key (map fst rest)) as [H|H];
      destruct (in_dec string_dec key (k :: map fst rest)) as [H'|H']; try reflexivity.
    + exfalso. apply H'. now right.
    + destruct H' as [H'|H']; [congruence | contradiction].
Qed.

Lemma count_add_in (key : string) (counts : list (string * nat)) (k : string) (n : nat) :
  NoDup (map fst counts) ->
  In (k, n) (QoN.count_add key counts) ->
  (k <> key /\ In (k, n) counts)
  \/ (k = key
      /\ exists before,
          n = S before
          /\ (In (key, before) counts
              \/ (before = 0 /\ ~ In key (map fst counts)))).
Proof.
  induction counts as [|[k0 n0] rest IH]; intros Hnd; cbn [QoN.count_add].
  - intros [[= <- <-]|[]]. right. split; [reflexivity|]. exists 0. split; [reflexivity|].
    right. split; [reflexivity | intros []].
  - cbn [map fst] in Hnd. apply NoDup_cons_iff in Hnd as [Hfresh Hnd].
    destruct (String.eqb k0 key) eqn:E.
    + apply String.eqb_eq in E. subst k0. intros [[= <- <-]|H].
      * right. split; [reflexivity|]. exists n0. split; [reflexivity|]. left. now left.
      * left. split; [|now right]. intros ->. apply Hfresh. eapply in_keys, H.
    + apply String.eqb_neq in E. intros [[= <- <-]|H].
      * left. split; [exact E | now left].
      * destruct (IH Hnd H) as [[Hne Hin]|[-> (before & -> & Hb)]].
        -- left. split; [exact Hne | now right].
        -- right. split; [reflexivity|]. exists before. split; [reflexivity|].
           destruct Hb as [Hb|[-> Hb]]; [left; now right|].
           right. split; [reflexivity|]. cbn [map fst]. intros [?|?]; [congruence|contradiction].
Qed.

Lemma counts_of_step (key_of : QoN.Analysis -> string) (seen : list QoN.Analysis)
      (counts : list (string * nat)) (q : QoN.Analysis) :
  counts_of key_of seen counts ->
  counts_of key_of (seen ++ [q]) (QoN.count_add (key_of q) counts).
Proof.
  intros (Hnd & Hcounts & Hseen). split; [|split].
  - rewrite count_add_keys. now apply keys_nodup_grow.
  - intros name n Hin. unfold questions_by. rewrite filter_snoc, List.length_app.
    destruct (count_add_in _ _ _ _ Hnd Hin) as [[Hne Hold]|[-> (before & -> & Hb)]].
    + destruct (Hcounts _ _ Hold) as [Hpos ->].
      apply String.eqb_neq in Hne. rewrite String.eqb_sym, Hne. cbn [List.length].
      unfold questions_by in *. split; lia.
    + rewrite String.eqb_refl. cbn [List.length]. split; [lia|].
      destruct Hb as [Hb|[-> Hb]].
      * destruct (Hcounts _ _ Hb) as [_ ->]. unfold questions_by. lia.
      * rewrite filter_all_false; [reflexivity|]. intros x Hx.
        apply String.eqb_neq. intros E. apply Hb. rewrite <- E. now apply Hseen.
  - intros x Hx. rewrite count_add_keys, keys_grow_in.
    apply in_app_or in Hx as [Hx|[<-|[]]]; [left; now apply Hseen | now right].
Qed.

Lemma counts_of_count_by (key_of : QoN.Analysis -> string) (questions : list QoN.Analysis) :
  counts_of key_of questions (QoN.count_by key_of questions).
Proof.
  unfold QoN.count_by.
  assert (H : forall l seen counts,
             counts_of key_of seen counts ->
             counts_of key_of (seen ++ l)
                       (fold_left (fun counts q => QoN.count_add (key_of q) counts) l counts)).
  { induction l as [|q l IH]; intros seen counts Hc; cbn [fold_left].
    - now rewrite app_nil_r.
    - replace (seen ++ q :: l) with ((seen ++ [q]) ++ l) by now rewrite <- app_assoc.
      apply IH, counts_of_step, Hc. }
  apply (H questions [] []). repeat split.
  - constructor.
  - destruct H0.
  - destruct H0.
  - intros q [].
Qed.

Lemma insert_desc_perm (x : string * nat) (l : list (string * nat)) :
  Permutation (QoN.insert_desc x l) (x :: l).
Proof.
  induction l as [|y l IH]; cbn [QoN.insert_desc]; [reflexivity|].
  destruct (snd y <? snd x); [reflexivity|].
  rewrite IH. apply perm_swap.
Qed.

Lemma insert_desc_sorted (x : string * nat) (l : list (string * nat)) :
  StronglySorted count_not_below l -> StronglySorted count_not_below (QoN.insert_desc x l).
Proof.
  induction l as [|y l IH]; intros Hs; cbn [QoN.insert_desc].
  - repeat constructor.
  - apply StronglySorted_inv in Hs as [Hs Hy].
    destruct (snd y <? snd x) eqn:E.
    + apply Nat.ltb_lt in E. constructor; [now constructor|].
      constructor; [unfold count_not_below; lia|].
      eapply Forall_impl; [|exact Hy]. unfold count_not_below. intros z Hz. lia.
    + apply Nat.ltb_ge in E. constructor; [now apply IH|].
      eapply Permutation_Forall; [symmetry; apply insert_desc_perm|].
      constructor; [exact E | exact Hy].
Qed.

Lemma sorted_desc_spec (items : list (string * nat)) :
  Permutation (QoN.sorted_desc items) items
  /\ StronglySorted count_not_below (QoN.sorted_desc items).
Proof.
  unfold QoN.sorted_desc.
  assert (H : forall l acc,
             StronglySorted count_not_below acc ->
             Permutation (fold_left (fun sorted x => QoN.insert_desc x sorted) l acc) (acc ++ l)
             /\ StronglySorted count_not_below
                               (fold_left (fun sorted x => QoN.insert_desc x sorted) l acc)).
  { induction l as [|x l IH]; intros acc Hacc; cbn [fold_left].
    - rewrite app_nil_r. now split.
    - destruct (IH _ (insert_desc_sorted x acc Hacc)) as [Hp Hs]. split; [|exact Hs].
      rewrite Hp, insert_desc_perm. apply Permutation_middle. }
  apply (H items []). constructor.
Qed.

Lemma in_firstn {A} (n : nat) (l : list A) (x : A) : In x (firstn n l) -> In x l.
Proof.
  revert n. induction l as [|y l IH]; intros [|n]; cbn [firstn In]; try tauto.
  intros [->|H]; [now left | right; eapply IH, H].
Qed.

Lemma firstn_sorted {A} (R : A -> A -> Prop) (n : nat) (l : list A) :
  StronglySorted R l -> StronglySorted R (firstn n l).
Proof.
  revert n. induction l as [|x l IH]; intros [|n] Hs; cbn [firstn]; try constructor.
  - apply IH. now apply StronglySorted_inv in Hs.
  - apply StronglySorted_inv in Hs as [_ Hx].
    apply Forall_forall. intros y Hy. rewrite Forall_forall in Hx.
    apply Hx. eapply in_firstn, Hy.
Qed.

Lemma sorted_app_order {A} (R : A -> A -> Prop) (l1 l2 : list A) :
  StronglySorted R (l1 ++ l2) -> forall x y, In x l1 -> In y l2 -> R x y.
Proof.
  induction l1 as [|z l1 IH]; intros Hs x y Hx Hy; [destruct Hx|].
  cbn [app] in Hs. apply StronglySorted_inv in Hs as [Hs Hz].
  destruct Hx as [->|Hx]; [|now apply IH].
  rewrite Forall_forall in Hz. apply Hz, in_or_app. now right.
Qed.

Lemma top_five_ranks (key_of : QoN.Analysis -> string) (questions : list QoN.Analysis) :
  ranks key_of questions (firstn 5 (QoN.sorted_desc (QoN.count_by key_of questions))).
Proof.
  destruct (counts_of_count_by key_of questions) as (Hnd & Hcounts & Hseen).
  destruct (sorted_desc_spec (QoN.count_by key_of questions)) as [Hperm Hsorted].
  set (sorted := QoN.sorted_desc (QoN.count_by key_of questions)) in *.
  assert (Hnd' : NoDup (map fst sorted)).
  { eapply Permutation_NoDup; [|exact Hnd]. apply Permutation_map. now symmetry. }
  split; [apply firstn_le_length|]. split; [|split; [|split]].
  - rewrite <- (firstn_skipn 5 sorted), map_app in Hnd'. eapply NoDup_app_remove_r, Hnd'.
  - now apply firstn_sorted.
  - intros name n Hin. apply Hcounts. eapply Permutation_in; [exact Hperm|].
    eapply in_firstn, Hin.
  - intros q Hq. specialize (Hseen q Hq). apply in_map_iff in Hseen as ([name n] & Hname & Hin).
    cbn [fst] in Hname. subst name.
    destruct (Hcounts _ _ Hin) as [_ Hn].
    apply (Permutation_in _ (Permutation_sym Hperm)) in Hin.
    rewrite <- (firstn_skipn 5 sorted) in Hin. apply in_app_or in Hin as [Hin|Hin].
    + left. eapply in_keys, Hin.
    + right. split.
      * assert (Hlen : 5 < List.length sorted \/ List.length sorted <= 5) by lia.
        destruct Hlen as [Hlen|Hlen]; [rewrite firstn_length_le; lia|].
        rewrite skipn_all2 in Hin by exact Hlen. destruct Hin.
      * intros entry Hentry. rewrite <- Hn.
        rewrite <- (firstn_skipn 5 sorted) in Hsorted.
        apply (sorted_app_order _ _ _ Hsorted entry (key_of q, n) Hentry Hin).
Qed.

(** X8.  The top askers and the top ministers of [generate_summary_report] are
    rankings: at most five distinct names by falling count, each count the
    number of questions with that name (a missing name counts as Unknown), and
    nobody left out has more questions than somebody listed. *)
Theorem summary_report_rankings (questions : list QoN.Analysis) :
  ranks asker questions (QoN.top_askers (QoN.generate_summary_report questions))
  /\ ranks answering_minister questions
           (QoN.top_ministers (QoN.generate_summary_report questions)).
Proof. split; apply top_five_ranks. Qed.


(** ** Finding the budget PDFs *)

Lemma drop_app_more (a b : string) (j : nat) :
  drop (String.length a + j) (a ++ b) = drop j b.
Proof. induction a as [|c a IH]; [reflexivity | exact IH]. Qed.

Lemma endswith_app (w p s : string) :
  endswith w s = true -> endswith w (p ++ s) = true.
Proof.
  unfold endswith. intros H. apply andb_true_iff in H as [Hlen Heq].
  apply Nat.leb_le in Hlen. rewrite length_app.
  apply andb_true_iff. split; [apply Nat.leb_le; lia|].
  replace (String.length p + String.length s - String.length w)
    with (String.length p + (String.length s - String.length w)) by lia.
  now rewrite drop_app_more.
Qed.

Lemma pdf_links_spec (year doc_type : string) (links : list Treasury.Link)
      (p : Treasury.PdfInfo) :
  In p (Treasury.pdf_links year doc_type links) ->
  startswith "http" (Treasury.pdf_url p) = true
  /\ endswith ".pdf" (Treasury.pdf_url p) = true
  /\ Treasury.pdf_fiscal_year p = year
  /\ Treasury.pdf_document_type p = doc_type
  /\ any_in Treasury.relevant_depts (lower (Treasury.pdf_title p)) = true
  /\ exists link,
      In link links
      /\ Treasury.pdf_title p = Treasury.link_text link
      /\ (Treasury.pdf_url p = Treasury.href link
          \/ Treasury.pdf_url p = (Treasury.base_url ++ Treasury.href link)%string).
Proof.
  induction links as [|link links IH]; cbn [Treasury.pdf_links]; [intros []|].
  assert (Hrest : In p (Treasury.pdf_links year doc_type links) ->
                  startswith "http" (Treasury.pdf_url p) = true
                  /\ endswith ".pdf" (Treasury.pdf_url p) = true
                  /\ Treasury.pdf_fiscal_year p = year
                  /\ Treasury.pdf_document_type p = doc_type
                  /\ any_in Treasury.relevant_depts (lower (Treasury.pdf_title p)) = true
                  /\ exists link0,
                      In link0 (link :: links)
                      /\ Treasury.pdf_title p = Treasury.link_text link0
                      /\ (Treasury.pdf_url p = Treasury.href link0
                          \/ Treasury.pdf_url p
                             = (Treasury.base_url ++ Treasury.href link0)%string)).
  { intros H. destruct (IH H) as (H1 & H2 & H3 & H4 & H5 & l0 & Hin & Hl0).
    repeat (split; [assumption|]). exists l0. split; [now right | exact Hl0]. }
  destruct (endswith ".pdf" (Treasury.href link)) eqn:Hpdf; [|exact Hrest].
  destruct (any_in Treasury.relevant_depts (lower (Treasury.link_text link))) eqn:Hdept;
    [|exact Hrest].
  intros [<-|H]; [|now apply Hrest].
  cbn [Treasury.pdf_url Treasury.pdf_title Treasury.pdf_fiscal_year
       Treasury.pdf_document_type].
  destruct (startswith "http" (Treasury.href link)) eqn:Hhttp.
  - repeat (split; [assumption || reflexivity|]). exists link. split; [now left|]. auto.
  - split; [reflexivity|]. split; [now apply endswith_app|].
    repeat (split; [assumption || reflexivity|]). exists link. split; [now left|]. auto.
Qed.

(** X9.  Every PDF [find_budget_pdfs] lists has an absolute URL that ends in
    [.pdf], one of the requested fiscal years (of the three default years when
    none is requested), one of the four document types, and a link text that
    names a relevant department. *)
Theorem found_pdfs_are_relevant (fetch : string -> option (list Treasury.Link))
        (fiscal_years : list string) :
  Forall (fun p =>
            startswith "http" (Treasury.pdf_url p) = true
            /\ endswith ".pdf" (Treasury.pdf_url p) = true
            /\ In (Treasury.pdf_fiscal_year p)
                  (match fiscal_years with
                   | [] => ["2024-25"; "2023-24"; "2022-23"]
                   | _ => fiscal_years
                   end)
            /\ In (Treasury.pdf_document_type p) Treasury.document_types
            /\ any_in Treasury.relevant_depts (lower (Treasury.pdf_title p)) = true
            /\ exists links,
                fetch (Treasury.page_url (Treasury.pdf_fiscal_year p)
                                         (Treasury.pdf_document_type p)) = Some links
                /\ In (Treasury.pdf_title p) (map Treasury.link_text links))
         (Treasury.find_budget_pdfs fetch fiscal_years).
Proof.
  apply Forall_forall. intros p Hin. unfold Treasury.find_budget_pdfs in Hin.
  apply in_flat_map in Hin as (year & Hyear & Hin).
  apply in_flat_map in Hin as (doc_type & Hdoc & Hin).
  destruct (fetch (Treasury.page_url year doc_type)) as [links|] eqn:Hfetch; [|destruct Hin].
  destruct (pdf_links_spec _ _ _ _ Hin) as (H1 & H2 & -> & -> & H5 & link & Hlink & Htitle & _).
  repeat (split; [assumption|]).
  exists links. split; [exact Hfetch|]. rewrite Htitle. now apply in_map.
Qed.

(** ** Program and department names of the Treasury scraper *)

Ltac captured_cases :=
  repeat match goal with
         | H : False |- _ => destruct H
         | H : _ \/ _ |- _ => destruct H
         | H : _ /\ _ |- _ => destruct H
         | H : exists _, _ |- _ => destruct H
         end.

Lemma name_group_short (pattern : regex) (g : string) :
  In pattern [Treasury.name_pattern_1; Treasury.name_pattern_2; Treasury.name_pattern_3] ->
  captured pattern 1 g -> String.length g <= 51.
Proof.
  intros [<-|[<-|[<-|[]]]] H; cbn in H; captured_cases;
    match goal with
    | Hm : matches (Seq _ _) _ _ _ |- _ =>
        apply matches_Seq_inv in Hm as (y & z & caps1 & -> & Hy & Hz);
        apply matches_Cls_inv in Hy as (c & -> & _);
        apply matches_Rep_inv in Hz as (_ & _ & Hz); cbn [String.length append]; lia
    | Hm : matches (Rep _ _ _ _) _ _ _ |- _ =>
        apply matches_Rep_inv in Hm as (_ & _ & Hz); lia
    end.
Qed.

Lemma take_length_le (n : nat) (s : string) : String.length (take n s) <= n.
Proof.
  revert n. induction s as [|c s IH]; intros [|n]; cbn; try lia.
  specialize (IH n). lia.
Qed.

(** The program name is what [strip] leaves of the first group of the first
    pattern that matches, or of the first 100 characters of the text. *)
Lemma program_name_source (text : string) :
  exists s,
    Treasury._extract_program_name text = strip s
    /\ part_of s text /\ String.length s <= 100.
Proof.
  unfold Treasury._extract_program_name.
  destruct (find_first _ _) as [m|] eqn:Hfind.
  - apply find_first_some in Hfind as (pattern & Hin & Hs).
    exists (group_of 1 m). split; [reflexivity|].
    destruct (group_of_cases 1 m) as [[_ ->]|Hg].
    + split; [exists EmptyString, text; reflexivity | cbn; lia].
    + destruct (search_group _ _ _ _ _ Hs Hg) as [Hpart Hcap]. split; [exact Hpart|].
      pose proof (name_group_short _ _ Hin Hcap). lia.
  - exists (take 100 text). split; [reflexivity|].
    split; [apply part_of_take | apply take_length_le].
Qed.

Lemma program_name_length (text : string) :
  String.length (Treasury._extract_program_name text) <= 100.
Proof.
  destruct (program_name_source text) as (s & -> & _ & Hlen).
  pose proof (strip_length s). lia.
Qed.

Lemma program_name_part (text : string) :
  part_of (Treasury._extract_program_name text) text.
Proof.
  destruct (program_name_source text) as (s & -> & Hpart & _).
  eapply part_of_trans; [apply strip_part | exact Hpart].
Qed.

(** X10.  The program name [_extract_program_name] gives is an excerpt of the
    text of at most 100 characters, without white space at either end. *)
Theorem program_name_is_short_excerpt (text : string) :
  let name := Treasury._extract_program_name text in
  String.length name <= 100 /\ stripped name /\ part_of name text.
Proof.
  cbn zeta. destruct (program_name_source text) as (s & -> & Hpart & Hlen).
  split; [|split].
  - eapply Nat.le_trans; [apply strip_length | exact Hlen].
  - apply strip_stripped.
  - eapply part_of_trans; [apply strip_part | exact Hpart].
Qed.

Lemma department_group_no_comma (pattern : regex) (g : string) :
  In pattern [Treasury.department_pattern_1; Treasury.department_pattern_2;
              Treasury.department_pattern_3] ->
  captured pattern 1 g -> all_in Treasury.not_comma g = true.
Proof.
  intros [<-|[<-|[<-|[]]]] H; cbn in H; captured_cases;
    match goal with
    | H : matches _ _ _ _ |- _ => now apply matches_Rep_inv in H
    end.
Qed.

Lemma all_in_not_comma (s : string) :
  all_in Treasury.not_comma s = true -> has_char "," s = false.
Proof.
  induction s as [|c s IH]; [reflexivity|]. cbn [all_in has_char]. intros H.
  apply andb_true_iff in H as [Hc Hs]. rewrite (IH Hs), orb_false_r.
  unfold Treasury.not_comma in Hc. apply negb_true_iff in Hc.
  now rewrite Ascii.eqb_sym.
Qed.

(** X11.  The department [_extract_department] gives never contains a comma and
    has no white space at either end; it is an excerpt of the text unless no
    pattern matches, when it is [Unknown Department]. *)
Theorem department_is_comma_free (text : string) :
  let department := Treasury._extract_department text in
  has_char "," department = false
  /\ stripped department
  /\ (part_of department text \/ department = "Unknown Department").
Proof.
  cbn zeta. unfold Treasury._extract_department.
  destruct (find_first _ _) as [m|] eqn:Hfind.
  - apply find_first_some in Hfind as (pattern & Hin & Hs).
    destruct (group_of_cases 1 m) as [[_ ->]|Hg].
    + split; [reflexivity|]. split; [reflexivity|]. left. exists EmptyString, text. reflexivity.
    + destruct (search_group _ _ _ _ _ Hs Hg) as [Hpart Hcap].
      split; [|split; [apply strip_stripped|]].
      * eapply has_char_part; [apply strip_part|].
        apply all_in_not_comma. eapply department_group_no_comma; eassumption.
      * left. eapply part_of_trans; [apply strip_part | exact Hpart].
  - split; [reflexivity|]. split; [reflexivity|]. now right.
Qed.

(** ** Rows and tables of a budget PDF *)

Lemma finditer_from_empty (r : regex) (s : string) :
  forall skip pos,
    finditer_from r skip pos s = [] ->
    forall i, skip <= i -> i < String.length s -> match_at r (drop i s) = None.
Proof.
  induction s as [|c s IH]; intros skip pos Hnil i Hskip Hi; [cbn in Hi; lia|].
  cbn [finditer_from] in Hnil. destruct skip as [|j].
  - destruct (match_at r (String c s)) as [[caps rest]|] eqn:Hm; [discriminate|].
    destruct i as [|i]; [exact Hm|]. cbn [drop].
    apply (IH 0 (S pos) Hnil); [lia | cbn in Hi; lia].
  - destruct i as [|i]; [lia|]. cbn [drop].
    apply (IH j (S pos) Hnil); [lia | cbn in Hi; lia].
Qed.

Lemma some_digit_or_comma (s : string) :
  all_in no_digit_or_comma s = false ->
  exists i c rest,
    i < String.length s /\ drop i s = String c rest
    /\ Treasury.is_digit_or_comma c = true.
Proof.
  induction s as [|c s IH]; [discriminate|]. cbn [all_in]. intros H.
  apply andb_false_iff in H as [H|H].
  - exists 0, c, s. split; [cbn; lia|]. split; [reflexivity|].
    unfold no_digit_or_comma in H. now apply negb_false_iff in H.
  - destruct (IH H) as (i & d & rest & Hi & Hd & Hdc).
    exists (S i), d, rest. split; [cbn; lia|]. now split.
Qed.

Lemma greedy_amount_at_digit (c : ascii) (s : string) :
  Treasury.is_digit_or_comma c = true -> greedy_amount (String c s) <> None.
Proof.
  intros Hc. unfold greedy_amount.
  assert (startswith "$" (String c s) = false) as ->.
  { cbn [startswith]. now rewrite (digit_or_comma_not_dollar _ Hc). }
  unfold amount_body, greedy_mantissa. cbn [run_length]. rewrite Hc. cbn [Nat.eqb].
  destruct (drop _ _) as [|d r].
  - now destruct (first_word _ _) as [[? ?]|].
  - destruct (_ && _); now destruct (first_word _ _) as [[? ?]|].
Qed.

(** X12.  [_extract_allocation_from_row] returns [None] exactly for a row text
    without any digit or comma; with one, it returns an allocation or fails. *)
Theorem row_without_figures_gives_none
        (row : list (option string)) (row_text fiscal_year : string) :
  Treasury._extract_allocation_from_row row row_text fiscal_year = Ok None
  <-> all_in no_digit_or_comma row_text = true.
Proof.
  split; [|apply no_token_returns_none].
  intros H. destruct (all_in no_digit_or_comma row_text) eqn:Hall; [reflexivity|].
  exfalso. destruct (some_digit_or_comma _ Hall) as (i & c & rest & Hi & Hd & Hc).
  unfold Treasury._extract_allocation_from_row in H.
  destruct (findall Treasury.amount_pattern row_text) as [|t ts] eqn:Hfind.
  - unfold findall in Hfind. apply map_eq_nil in Hfind.
    pose proof (finditer_from_empty _ _ 0 0 Hfind i (Nat.le_0_l i) Hi) as Hnone.
    rewrite Hd, match_at_amount in Hnone. now apply (greedy_amount_at_digit c rest).
  - destruct (max_by _ _); [|discriminate]. cbn [bind] in H.
    destruct (Treasury.mantissa_value _); discriminate.
Qed.

Lemma row_allocation_shape
      (row : list (option string)) (row_text fiscal_year : string) (a : Alloc.t) :
  Treasury._extract_allocation_from_row row row_text fiscal_year = Ok (Some a) ->
  well_formed fiscal_year a
  /\ Alloc.source_type a = Some "budget_table"
  /\ Alloc.description a = take 500 row_text
  /\ String.length (Alloc.description a) <= 500
  /\ part_of (Alloc.program a) row_text.
Proof.
  unfold Treasury._extract_allocation_from_row.
  destruct (findall Treasury.amount_pattern row_text) as [|t ts]; [discriminate|].
  destruct (max_by _ _) as [amount_str|]; [|discriminate]. cbn [bind].
  destruct (Treasury.mantissa_value amount_str) as [amount|] eqn:Hv; [|discriminate].
  cbn [bind]. pose proof (take_length_le 500 row_text) as Hd.
  remember (take 500 row_text) as d eqn:Ed. intros [= <-]. unfold well_formed.
  cbn [Alloc.fiscal_year Alloc.category Alloc.amount Alloc.program Alloc.source_type
       Alloc.description].
  apply float_nonneg in Hv.
  pose proof (program_name_length row_text) as Hlen.
  pose proof (program_name_part row_text) as Hpart.
  repeat split; auto using categorize_cases.
  destruct (_ || _); [|destruct (_ || _)];
    try apply Qmult_le_0_compat; auto; discriminate.
Qed.


(** *** [_process_budget_table] *)

Lemma table_rows_loop_app (fiscal_year : string) (before rest : Treasury.Table) :
  forall allocations,
    Treasury.table_rows_loop fiscal_year (before ++ rest) allocations
    = match Treasury.table_rows_loop fiscal_year before allocations with
      | (allocations', Some e) => (allocations', Some e)
      | (allocations', None) => Treasury.table_rows_loop fiscal_year rest allocations'
      end.
Proof.
  induction before as [|row before IH]; intros allocations; [reflexivity|].
  cbn [app Treasury.table_rows_loop].
  destruct (any_in _ _); [|apply IH].
  destruct (Treasury._extract_allocation_from_row _ _ _) as [[a|]|e]; [apply IH | apply IH | reflexivity].
Qed.

Lemma table_rows_loop_yields (fiscal_year : string) (rows : Treasury.Table) :
  forall allocations,
    exists new,
      fst (Treasury.table_rows_loop fiscal_year rows allocations) = allocations ++ new
      /\ List.length new <= List.length rows
      /\ Forall (fun a => exists row, In row rows /\ row_yields fiscal_year row a) new.
Proof.
  induction rows as [|row rows IH]; intros allocations; cbn [Treasury.table_rows_loop].
  - exists []. rewrite app_nil_r. repeat split; auto.
  - assert (Hskip : exists new,
               fst (Treasury.table_rows_loop fiscal_year rows allocations)
               = allocations ++ new
               /\ List.length new <= List.length (row :: rows)
               /\ Forall (fun a => exists row0, In row0 (row :: rows)
                                               /\ row_yields fiscal_year row0 a) new).
    { destruct (IH allocations) as (new & E & Hlen & Hall). exists new.
      split; [exact E|]. split; [cbn; lia|].
      eapply Forall_impl; [|exact Hall]. intros a (r & Hr & Hy). exists r. split; [now right|exact Hy]. }
    destruct (any_in _ _) eqn:Hkw; [|exact Hskip].
    destruct (Treasury._extract_allocation_from_row _ _ _) as [[a|]|e] eqn:Hrow;
      [|exact Hskip|].
    + destruct (IH (allocations ++ [a])) as (new & E & Hlen & Hall).
      exists (a :: new). rewrite E, <- app_assoc. split; [reflexivity|].
      split; [cbn; lia|]. constructor.
      * exists row. split; [now left|]. split; assumption.
      * eapply Forall_impl; [|exact Hall]. intros a' (r & Hr & Hy).
        exists r. split; [now right|exact Hy].
    + exists []. cbn [fst]. rewrite app_nil_r. repeat split; [cbn; lia | constructor].
Qed.

Lemma find_header_row_bound (rows : Treasury.Table) :
  forall i h, Treasury.find_header_row i rows = Some h -> i <= h < i + List.length rows.
Proof.
  induction rows as [|row rows IH]; intros i h; cbn [Treasury.find_header_row]; [discriminate|].
  destruct (Treasury.looks_like_header row).
  - intros [= <-]. cbn. lia.
  - intros H. apply IH in H. cbn. lia.
Qed.

Lemma skipn_tail {A} (n : nat) (l : list A) (x : A) :
  In x (skipn (n + 1) l) -> In x (tl l).
Proof.
  rewrite Nat.add_1_r. destruct l as [|y l]; [now rewrite skipn_nil|].
  cbn [skipn tl]. revert l. induction n as [|n IH]; intros l; [now cbn|].
  destruct l as [|z l]; [intros []|]. cbn [skipn]. intros H. right. now apply IH.
Qed.

Lemma data_rows_of_table (table : Treasury.Table) :
  let header_row :=
    match Treasury.find_header_row 0 (firstn 5 table) with
    | Some i => i
    | None => 0
    end in
  let rows :=
    if header_row <? List.length table then skipn (header_row + 1) table else table in
  List.length rows <= List.length table - 1
  /\ forall row, In row rows -> In row (tl table).
Proof.
  cbn zeta. destruct (_ <? _) eqn:Hlt.
  - split; [rewrite length_skipn; lia|]. intros row. apply skipn_tail.
  - apply Nat.ltb_ge in Hlt. destruct table as [|row0 table]; [now split|].
    exfalso. destruct (Treasury.find_header_row 0 (firstn 5 (row0 :: table))) as [h|] eqn:Hh.
    + apply find_header_row_bound in Hh. rewrite length_firstn in Hh. lia.
    + cbn [List.length] in Hlt. lia.
Qed.

Lemma process_budget_table_yields (table : Treasury.Table) (context_text fiscal_year : string)
      (a : Alloc.t) :
  In a (Treasury._process_budget_table table context_text fiscal_year) ->
  exists row, In row (tl table) /\ row_yields fiscal_year row a.
Proof.
  unfold Treasury._process_budget_table.
  destruct (data_rows_of_table table) as [_ Hrows]. cbn zeta in Hrows.
  set (rows := if _ <? _ then _ else _) in *.
  destruct (table_rows_loop_yields fiscal_year rows []) as (new & E & _ & Hall).
  rewrite E. cbn [app]. intros Hin. rewrite Forall_forall in Hall.
  destruct (Hall a Hin) as (row & Hrow & Hy). exists row. split; [|exact Hy].
  now apply Hrows.
Qed.

(** X13.  [_process_budget_table] never reads the first row of a table as data,
    whether or not a header is recognised: every allocation comes from a later
    row that mentions a keyword, and there are fewer allocations than rows. *)
Theorem table_allocations_come_from_data_rows
        (table : Treasury.Table) (context_text fiscal_year : string) :
  let allocations := Treasury._process_budget_table table context_text fiscal_year in
  List.length allocations <= List.length table - 1
  /\ Forall (fun a => exists row, In row (tl table) /\ row_yields fiscal_year row a)
            allocations.
Proof.
  cbn zeta. unfold Treasury._process_budget_table.
  destruct (data_rows_of_table table) as [Hlen Hrows]. cbn zeta in Hlen, Hrows.
  set (rows := if _ <? _ then _ else _) in *.
  destruct (table_rows_loop_yields fiscal_year rows []) as (new & E & Hnew & Hall).
  rewrite E. cbn [app]. split; [lia|].
  eapply Forall_impl; [|exact Hall]. intros a (row & Hin & Hy).
  exists row. split; [now apply Hrows | exact Hy].
Qed.

(** X14.  A data row on which the extraction fails ends the table: the rows
    after it are never read, and the table gives what the rows before it
    gave. *)
Theorem failing_row_hides_later_rows
        (header bad : list (option string)) (before after : Treasury.Table)
        (context_text fiscal_year : string) :
  Treasury.looks_like_header header = true ->
  row_fails fiscal_year bad ->
  Treasury._process_budget_table (header :: before ++ bad :: after) context_text fiscal_year
  = Treasury._process_budget_table (header :: before) context_text fiscal_year.
Proof.
  intros Hheader (Hkw & e & Hbad). unfold Treasury._process_budget_table.
  cbn [firstn Treasury.find_header_row]. rewrite Hheader.
  cbn [Nat.ltb Nat.leb List.length Nat.add skipn].
  rewrite table_rows_loop_app.
  destruct (Treasury.table_rows_loop fiscal_year before []) as [allocations [e'|]];
    [reflexivity|].
  cbn [Treasury.table_rows_loop]. unfold keyword_row in Hkw. now rewrite Hkw, Hbad.
Qed.

Lemma failing_row_hides_later_rows_witness :
  Treasury._process_budget_table
    ([Some "Program"; Some "Budget $"]
       :: [] ++ [Some "Youth justice, detention services"; None]
       :: [[Some "Youth detention centre upgrade"; Some "450"]])
    "page text" "2024-25"
  = Treasury._process_budget_table ([Some "Program"; Some "Budget $"] :: []) "page text" "2024-25".
Proof.
  apply failing_row_hides_later_rows; [reflexivity|].
  split; [reflexivity|]. exists ValueError. reflexivity.
Defined.

(** *** [_extract_text_allocations] *)

Lemma split_on_spec (p : ascii -> bool) (s : string) :
  exists piece pieces,
    split_on p s = piece :: pieces
    /\ all_in (fun c => negb (p c)) piece = true
    /\ (exists tail, s = (piece ++ tail)%string)
    /\ Forall (fun q => all_in (fun c => negb (p c)) q = true /\ part_of q s) pieces.
Proof.
  induction s as [|c s IH]; cbn [split_on].
  - exists EmptyString, []. repeat split; [now exists EmptyString | constructor].
  - destruct IH as (piece & pieces & -> & Hpiece & [tail Etail] & Hrest).
    assert (Hrest' : Forall (fun q => all_in (fun c0 => negb (p c0)) q = true
                                      /\ part_of q (String c s)) pieces).
    { eapply Forall_impl; [|exact Hrest]. intros q [Hq Hqp]. split; [exact Hq|].
      apply (part_of_app_r q (String c EmptyString) s Hqp). }
    destruct (p c) eqn:Hc.
    + exists EmptyString, (piece :: pieces). split; [reflexivity|]. split; [reflexivity|].
      split; [now exists (String c s)|]. constructor; [|exact Hrest'].
      split; [exact Hpiece|]. exists (String c EmptyString), tail. cbn. now rewrite <- Etail.
    + exists (String c piece), pieces. split; [reflexivity|].
      split; [cbn [all_in]; now rewrite Hc|].
      split; [exists tail; cbn; now rewrite <- Etail | exact Hrest'].
Qed.

Lemma split_on_pieces (p : ascii -> bool) (s : string) :
  Forall (fun piece => all_in (fun c => negb (p c)) piece = true /\ part_of piece s)
         (split_on p s).
Proof.
  destruct (split_on_spec p s) as (piece & pieces & -> & Hpiece & [tail E] & Hrest).
  constructor; [|exact Hrest]. split; [exact Hpiece|]. now exists EmptyString, tail.
Qed.

Lemma no_point_within_sentence (s : string) :
  all_in within_sentence s = true -> has_char "." s = false.
Proof.
  induction s as [|c s IH]; [reflexivity|]. cbn [all_in has_char]. intros H.
  apply andb_true_iff in H as [Hc Hs]. rewrite (IH Hs), orb_false_r.
  unfold within_sentence, Treasury.is_sentence_end in Hc.
  apply negb_true_iff in Hc. apply orb_false_iff in Hc as [Hc _].
  apply orb_false_iff in Hc as [Hc _]. now rewrite Ascii.eqb_sym.
Qed.

(** A mantissa without a decimal point is a run of digits and commas. *)
Lemma mantissa_without_point (g : string) :
  mantissa_shaped g -> has_char "." g = false ->
  all_in Treasury.is_digit_or_comma g = true.
Proof.
  intros (run & frac & -> & _ & Hrun & [->|(ds & -> & _)]) Hpt.
  - now rewrite app_empty_r.
  - rewrite has_char_app in Hpt. cbn [has_char] in Hpt.
    rewrite Ascii.eqb_refl, orb_true_r in Hpt. discriminate.
Qed.

Lemma whole_number_value (g : string) (v : Q) :
  all_in Treasury.is_digit_or_comma g = true ->
  Treasury.mantissa_value g = Ok v ->
  exists n : Z, (0 <= n)%Z /\ v = n # 1.
Proof.
  intros Hall Hv. unfold Treasury.mantissa_value in Hv.
  pose proof (remove_commas_all_digits _ Hall) as Hd.
  destruct (remove_commas g) as [|c s] eqn:E; [discriminate|].
  rewrite float_digits in Hv by (auto; discriminate). injection Hv as <-.
  exists (digits_value 0 (String c s)). split; [|reflexivity].
  apply digits_value_nonneg. lia.
Qed.

Lemma text_amount_group (sentence : string) (m : Match) :
  search Treasury.text_amount_pattern sentence = Some m ->
  part_of (group_of 1 m) sentence /\ mantissa_shaped (group_of 1 m).
Proof.
  intros Hs. destruct (search_sound _ _ _ Hs) as (x & rest & Hx & Hm).
  unfold Treasury.text_amount_pattern in Hm. cbn [seq] in Hm.
  apply matches_Seq_inv in Hm as (x1 & x2 & caps1 & -> & H1 & Hm).
  apply matches_Seq_inv in Hm as (x3 & x4 & caps2 & -> & H2 & Hm).
  assert (Hg : group 1 (m_groups m) <> None).
  { apply matches_Group_inv in H2 as (caps3 & -> & _).
    eapply matches_group_kept; [exact Hm|]. rewrite group_head. discriminate. }
  destruct (group_of_cases 1 m) as [[Hnone _]|Hsome]; [contradiction|].
  destruct (search_group _ _ _ _ _ Hs Hsome) as [Hpart Hcap]. split; [exact Hpart|].
  cbn in Hcap. captured_cases.
  match goal with
  | H : matches _ _ _ _ |- _ => now apply matches_mantissa in H
  end.
Qed.

Lemma text_allocations_loop_yields (fiscal_year : string) (sentences : list string) :
  Forall (fun s => all_in within_sentence s = true) sentences ->
  forall allocations,
    Treasury.text_allocations_loop fiscal_year sentences = Ok allocations ->
    List.length allocations <= List.length sentences
    /\ Forall (fun a => exists sentence,
                   In sentence sentences /\ sentence_yields fiscal_year sentence a)
              allocations.
Proof.
  induction sentences as [|sentence rest IH]; intros Hall allocations;
    cbn [Treasury.text_allocations_loop].
  - intros [= <-]. split; [reflexivity | constructor].
  - apply Forall_cons_iff in Hall as [Hsentence Hall].
    assert (Hskip : Treasury.text_allocations_loop fiscal_year rest = Ok allocations ->
                    List.length allocations <= List.length (sentence :: rest)
                    /\ Forall (fun a => exists s, In s (sentence :: rest)
                                                  /\ sentence_yields fiscal_year s a)
                              allocations).
    { intros H. destruct (IH Hall _ H) as [Hlen Hin]. split; [cbn; lia|].
      eapply Forall_impl; [|exact Hin]. intros a (s & Hs & Hy). exists s. split; [now right|exact Hy]. }
    destruct (any_in _ _) eqn:Hkw; [|exact Hskip].
    destruct (search Treasury.text_amount_pattern sentence) as [m|] eqn:Hsearch; [|exact Hskip].
    destruct (Treasury.mantissa_value (group_of 1 m)) as [v|] eqn:Hv; [|discriminate].
    cbn [bind].
    destruct (Treasury.text_allocations_loop fiscal_year rest) as [more|]; [|discriminate].
    cbn [bind]. intros [= <-].
    destruct (IH Hall _ eq_refl) as [Hlen Hin]. split; [cbn; lia|]. constructor.
    + exists sentence. split; [now left|].
      destruct (text_amount_group _ _ Hsearch) as [Hpart Hshape].
      assert (Hdc : all_in Treasury.is_digit_or_comma (group_of 1 m) = true).
      { apply mantissa_without_point; [exact Hshape|].
        eapply has_char_part; [exact Hpart | now apply no_point_within_sentence]. }
      destruct (whole_number_value _ _ Hdc Hv) as (n & Hn & ->).
      repeat split; auto. now exists n.
    + eapply Forall_impl; [|exact Hin]. intros a (s & Hs & Hy).
      exists s. split; [now right|exact Hy].
Qed.

Lemma text_allocations_yield (text fiscal_year : string) (allocations : list Alloc.t)
      (a : Alloc.t) :
  Treasury._extract_text_allocations text fiscal_year = Ok allocations ->
  In a allocations ->
  exists sentence, part_of sentence text /\ sentence_yields fiscal_year sentence a.
Proof.
  unfold Treasury._extract_text_allocations. intros H Hin.
  pose proof (split_on_pieces Treasury.is_sentence_end text) as Hpieces.
  rewrite Forall_forall in Hpieces.
  apply text_allocations_loop_yields in H as [_ H].
  - rewrite Forall_forall in H. destruct (H a Hin) as (s & Hs & Hy).
    exists s. split; [now apply Hpieces | exact Hy].
  - apply Forall_forall. intros s Hs. now apply Hpieces.
Qed.



(** *** [extract_budget_tables_from_pdf] *)

Lemma row_yields_well_formed (fiscal_year : string) (row : list (option string))
      (a : Alloc.t) :
  row_yields fiscal_year row a -> well_formed fiscal_year a.
Proof. intros [_ H]. now apply row_allocation_shape in H. Qed.

Lemma sentence_yields_well_formed (fiscal_year sentence : string) (a : Alloc.t) :
  sentence_yields fiscal_year sentence a -> well_formed fiscal_year a.
Proof.
  intros (_ & _ & _ & Hprogram & Hcategory & Hyear & Hsource & n & Hn & Hamount).
  unfold well_formed. rewrite Hprogram, Hcategory, Hamount.
  repeat split; auto using categorize_cases.
  - apply Qmult_le_0_compat; [|discriminate]. unfold Qle. cbn. lia.
  - apply program_name_length.
Qed.

Lemma tables_loop_yields (text fiscal_year : string) (tables : list Treasury.Table) :
  forall allocations,
    exists new,
      Treasury.tables_loop text fiscal_year tables allocations = allocations ++ new
      /\ Forall (fun a => exists table row,
                     In table tables /\ In row (tl table) /\ row_yields fiscal_year row a)
                new.
Proof.
  induction tables as [|table tables IH]; intros allocations; cbn [Treasury.tables_loop].
  - exists []. now rewrite app_nil_r.
  - assert (Hweaken : forall new,
               Forall (fun a => exists table0 row,
                           In table0 tables /\ In row (tl table0)
                           /\ row_yields fiscal_year row a) new ->
               Forall (fun a => exists table0 row,
                           In table0 (table :: tables) /\ In row (tl table0)
                           /\ row_yields fiscal_year row a) new).
    { intros new H. eapply Forall_impl; [|exact H].
      intros a (t & r & Ht & Hr). exists t, r. split; [now right | exact Hr]. }
    destruct table as [|row0 table'].
    + destruct (IH allocations) as (new & -> & Hnew). exists new. split; [reflexivity|].
      now apply Hweaken.
    + set (table := row0 :: table') in *.
      destruct (IH (allocations ++ Treasury._process_budget_table table text fiscal_year))
        as (new & -> & Hnew).
      exists (Treasury._process_budget_table table text fiscal_year ++ new).
      rewrite app_assoc. split; [reflexivity|]. apply Forall_app. split; [|now apply Hweaken].
      apply Forall_forall. intros a Ha.
      destruct (process_budget_table_yields _ _ _ _ Ha) as (r & Hr & Hy).
      exists table, r. split; [now left | now split].
Qed.

Lemma pages_loop_app (fiscal_year : string) (before rest : list Treasury.Page) :
  forall allocations,
    Treasury.pages_loop fiscal_year (before ++ rest) allocations
    = match Treasury.pages_loop fiscal_year before allocations with
      | (allocations', Some e) => (allocations', Some e)
      | (allocations', None) => Treasury.pages_loop fiscal_year rest allocations'
      end.
Proof.
  induction before as [|page before IH]; intros allocations; [reflexivity|].
  cbn [app Treasury.pages_loop].
  destruct (negb _); [apply IH|].
  destruct (Treasury._extract_text_allocations _ _); [apply IH | reflexivity].
Qed.

Lemma pages_loop_yields (fiscal_year : string) (pages : list Treasury.Page) :
  forall allocations,
    exists new,
      fst (Treasury.pages_loop fiscal_year pages allocations) = allocations ++ new
      /\ Forall (allocation_origin fiscal_year pages) new.
Proof.
  induction pages as [|page pages IH]; intros allocations; cbn [Treasury.pages_loop].
  - exists []. now rewrite app_nil_r.
  - assert (Hweaken : forall new,
               Forall (allocation_origin fiscal_year pages) new ->
               Forall (allocation_origin fiscal_year (page :: pages)) new).
    { intros new H. eapply Forall_impl; [|exact H].
      intros a (p & Hp & Hrest). exists p. split; [now right | exact Hrest]. }
    fold (text_of_page page).
    destruct (any_in Treasury.youth_justice_keywords (lower (text_of_page page))) eqn:Hkw;
      cbn [negb].
    + destruct (tables_loop_yields (text_of_page page) fiscal_year
                                   (Treasury.page_tables page) allocations)
        as (from_tables & -> & Htables).
      assert (Htables' : Forall (allocation_origin fiscal_year (page :: pages)) from_tables).
      { eapply Forall_impl; [|exact Htables]. intros a (t & r & Ht & Hr & Hy).
        exists page. split; [now left|]. split; [exact Hkw|]. left. now exists t, r. }
      destruct (Treasury._extract_text_allocations (text_of_page page) fiscal_year)
        as [from_text|e] eqn:Htext.
      * destruct (IH ((allocations ++ from_tables) ++ from_text)) as (new & -> & Hnew).
        exists (from_tables ++ from_text ++ new). rewrite <- !app_assoc.
        split; [reflexivity|]. apply Forall_app. split; [exact Htables'|].
        apply Forall_app. split; [|now apply Hweaken].
        apply Forall_forall. intros a Ha.
        destruct (text_allocations_yield _ _ _ _ Htext Ha) as (s & Hs & Hy).
        exists page. split; [now left|]. split; [exact Hkw|]. right. now exists s.
      * exists from_tables. now split.
    + destruct (IH allocations) as (new & -> & Hnew). exists new.
      split; [reflexivity | now apply Hweaken].
Qed.

Lemma origin_well_formed (fiscal_year : string) (pages : list Treasury.Page) (a : Alloc.t) :
  allocation_origin fiscal_year pages a -> well_formed fiscal_year a.
Proof.
  intros (page & _ & _ & [(t & r & _ & _ & Hy)|(s & _ & Hy)]).
  - eapply row_yields_well_formed, Hy.
  - eapply sentence_yields_well_formed, Hy.
Qed.

Lemma pdf_allocation_origin (pages : list Treasury.Page) (fiscal_year : string) (a : Alloc.t) :
  In a (Treasury.extract_budget_tables_from_pdf pages fiscal_year) ->
  allocation_origin fiscal_year pages a.
Proof.
  unfold Treasury.extract_budget_tables_from_pdf.
  destruct (pages_loop_yields fiscal_year pages []) as (new & -> & Hnew). cbn [app].
  rewrite Forall_forall in Hnew. apply Hnew.
Qed.


(** X17.  A page whose text mentions no keyword is skipped with its tables:
    leaving it out of the document changes nothing. *)
Theorem page_without_keyword_is_skipped
        (before after : list Treasury.Page) (page : Treasury.Page) (fiscal_year : string) :
  keyword_page page = false ->
  Treasury.extract_budget_tables_from_pdf (before ++ page :: after) fiscal_year
  = Treasury.extract_budget_tables_from_pdf (before ++ after) fiscal_year.
Proof.
  intros Hkw. unfold Treasury.extract_budget_tables_from_pdf.
  rewrite !pages_loop_app.
  destruct (Treasury.pages_loop fiscal_year before []) as [allocations [e|]]; [reflexivity|].
  cbn [Treasury.pages_loop]. fold (text_of_page page).
  unfold keyword_page in Hkw. now rewrite Hkw.
Qed.

Lemma page_without_keyword_is_skipped_witness :
  Treasury.extract_budget_tables_from_pdf
    ([] ++ {| Treasury.page_text := Some "Capital works";
              Treasury.page_tables :=
                [[ [Some "Program"; Some "Budget $"];
                   [Some "Youth detention centre upgrade"; Some "450"] ]] |} :: [])
    "2024-25"
  = Treasury.extract_budget_tables_from_pdf ([] ++ []) "2024-25".
Proof. apply page_without_keyword_is_skipped. reflexivity. Defined.

(** X18.  A page on whose text the extraction fails ends the document: its
    tables are kept, its sentences and all later pages are lost. *)
Theorem failing_page_ends_document
        (before after : list Treasury.Page) (page : Treasury.Page) (fiscal_year : string) :
  page_fails fiscal_year page ->
  Treasury.extract_budget_tables_from_pdf (before ++ page :: after) fiscal_year
  = Treasury.extract_budget_tables_from_pdf (before ++ [page]) fiscal_year.
Proof.
  intros (Hkw & e & Hfail). unfold Treasury.extract_budget_tables_from_pdf.
  rewrite !pages_loop_app.
  destruct (Treasury.pages_loop fiscal_year before []) as [allocations [e'|]]; [reflexivity|].
  cbn [Treasury.pages_loop]. fold (text_of_page page).
  unfold keyword_page in Hkw. now rewrite Hkw, Hfail.
Qed.

(** *** A comma before a word in m *)

Lemma match_at_text (s : string) :
  match_at Treasury.text_amount_pattern s
  = match (if startswith "$" s then exec text_amount_body (drop 1 s) [] accept else None) with
    | Some x => Some x
    | None => exec text_amount_body s [] accept
    end.
Proof.
  unfold match_at, Treasury.text_amount_pattern. cbn [seq].
  rewrite exec_Seq, exec_opt_lit. reflexivity.
Qed.

Lemma exec_Rep_greedy {R} (p : ascii -> bool) (lo : nat) (s : string) (caps : captures)
      (k : string -> captures -> option R) :
  lo <= run_length p s ->
  k (drop (run_length p s) s) caps <> None ->
  exec (Rep true p lo None) s caps k = k (drop (run_length p s) s) caps.
Proof.
  intros Hlo Hk. cbn [exec].
  apply (find_first_greedy (fun i => k (drop i s) caps)); [exact Hlo | now left].
Qed.

Lemma text_body_none {R} (s : string) (caps : captures)
      (k : string -> captures -> option R) :
  stops Treasury.is_digit_or_comma s = true -> exec text_amount_body s caps k = None.
Proof.
  intros Hs. unfold text_amount_body, plus. rewrite exec_Seq. cbn [exec].
  rewrite counts_short; [reflexivity|].
  destruct s as [|c s]; cbn [run_length]; [lia|].
  cbn [stops] in Hs. apply negb_true_iff in Hs. rewrite Hs. lia.
Qed.

Lemma run_length_stops (p : ascii -> bool) (s : string) :
  stops p s = true -> run_length p s = 0.
Proof.
  destruct s as [|c s]; [reflexivity|]. cbn [stops run_length]. intros H.
  apply negb_true_iff in H. now rewrite H.
Qed.

Lemma spaces_then_m_stop (sp post : string) :
  all_in is_space sp = true ->
  stops Treasury.is_digit_or_comma (sp ++ String "m" post) = true
  /\ startswith "." (sp ++ String "m" post) = false.
Proof.
  destruct sp as [|c sp]; [now split|]. cbn [all_in append stops startswith]. intros H.
  apply andb_true_iff in H as [Hc _].
  rewrite (space_not_digit_or_comma _ Hc), (space_not_point _ Hc). now split.
Qed.

Lemma text_body_comma (sp post : string) :
  all_in is_space sp = true ->
  exists caps rest,
    exec text_amount_body (String "," (sp ++ String "m" post)) [] accept = Some (caps, rest)
    /\ group 1 caps = Some ",".
Proof.
  intros Hsp. destruct (spaces_then_m_stop sp post Hsp) as [Hstop Hpoint].
  assert (Hrun : run_length Treasury.is_digit_or_comma (String "," (sp ++ String "m" post)) = 1).
  { cbn [run_length]. change (Treasury.is_digit_or_comma ",") with true. cbv iota.
    now rewrite (run_length_stops _ _ Hstop). }
  assert (Hspaces : run_length is_space (sp ++ String "m" post) = String.length sp)
    by (now apply run_length_app).
  assert (Hword : exists rest,
             exec (words false ["million"; "m"]) (String "m" post) [(1, ",")] accept
             = Some ([(1, ",")], rest)).
  { rewrite exec_words by (discriminate || apply total_accept).
    cbn [first_word]. destruct (startswith "million" (String "m" post)).
    - eexists. reflexivity.
    - cbn [startswith]. rewrite Ascii.eqb_refl. cbn [andb]. eexists. reflexivity. }
  destruct Hword as [rest Hword].
  assert (Htail : exec (Seq (star is_space) (words false ["million"; "m"]))
                       (sp ++ String "m" post) [(1, ",")] accept
                  = Some ([(1, ",")], rest)).
  { rewrite exec_Seq. unfold star. rewrite exec_Rep_greedy.
    - now rewrite Hspaces, drop_app_length.
    - lia.
    - rewrite Hspaces, drop_app_length, Hword. discriminate. }
  exists [(1, ",")], rest. split; [|reflexivity].
  set (s := String "," (sp ++ String "m" post)) in *.
  unfold text_amount_body. rewrite exec_Seq. unfold plus at 1. cbn [exec].
  rewrite Hrun. cbn [counts Nat.ltb Nat.leb Nat.sub List.seq rev app find_first].
  unfold s at 1. cbn [drop]. unfold opt, lit. cbn [exec]. rewrite Hpoint.
  assert (Htake : take (String.length s - String.length (sp ++ String "m" post)) s = ",").
  { unfold s. cbn [String.length].
    replace (S (String.length (sp ++ String "m" post))
             - String.length (sp ++ String "m" post)) with 1 by lia.
    reflexivity. }
  rewrite Htake. rewrite exec_Seq in Htail. rewrite Htail. reflexivity.
Qed.

Lemma search_comma_m (sp post : string) (pre : string) :
  all_in is_space sp = true ->
  all_in no_digit_or_comma pre = true ->
  forall pos,
    exists m,
      search_from Treasury.text_amount_pattern pos
                  (pre ++ String "," (sp ++ String "m" post)) = Some m
      /\ group_of 1 m = ",".
Proof.
  intros Hsp. destruct (text_body_comma sp post Hsp) as (caps & rest & Hbody & Hgroup).
  induction pre as [|c pre IH]; intros Hpre pos.
  - cbn [append search_from]. rewrite match_at_text.
    change (startswith "$" (String "," (sp ++ String "m" post))) with false.
    cbv iota. rewrite Hbody. eexists. split; [reflexivity|].
    unfold group_of. cbn [m_groups]. now rewrite Hgroup.
  - cbn [all_in] in Hpre. apply andb_true_iff in Hpre as [Hc Hpre].
    cbn [append search_from]. rewrite match_at_text.
    rewrite (text_body_none (String c _) [] accept) by exact Hc.
    destruct (startswith "$" (String c (pre ++ String "," (sp ++ String "m" post)))) eqn:Hdollar.
    + cbn [drop]. destruct pre as [|d pre].
      * cbn [append]. rewrite Hbody. eexists. split; [reflexivity|].
        unfold group_of. cbn [m_groups]. now rewrite Hgroup.
      * cbn [all_in] in Hpre. apply andb_true_iff in Hpre as [Hd Hpre'].
        cbn [append]. rewrite (text_body_none (String d _) [] accept) by exact Hd.
        apply IH. cbn [all_in]. now rewrite Hd, Hpre'.
    + now apply IH.
Qed.

Lemma split_on_whole (p : ascii -> bool) (s : string) :
  all_in (fun c => negb (p c)) s = true -> split_on p s = [s].
Proof.
  induction s as [|c s IH]; [reflexivity|]. cbn [all_in split_on]. intros H.
  apply andb_true_iff in H as [Hc Hs]. rewrite (IH Hs).
  apply negb_true_iff in Hc. now rewrite Hc.
Qed.

(** X19.  A sentence that mentions a keyword and has, before any figure, a
    comma followed by a word that starts with m (as in [youth justice, more
    staff]) makes [_extract_text_allocations] fail with ValueError: the comma
    is taken for the figure and the m for the magnitude. *)
Theorem comma_before_m_word_fails (pre sp post fiscal_year : string) :
  all_in no_digit_or_comma pre = true ->
  all_in is_space sp = true ->
  all_in within_sentence (pre ++ String "," (sp ++ String "m" post)) = true ->
  any_in Treasury.youth_justice_keywords
         (lower (pre ++ String "," (sp ++ String "m" post))) = true ->
  Treasury._extract_text_allocations (pre ++ String "," (sp ++ String "m" post)) fiscal_year
  = Raise ValueError.
Proof.
  intros Hpre Hsp Hsentence Hkw. unfold Treasury._extract_text_allocations.
  rewrite (split_on_whole Treasury.is_sentence_end _ Hsentence).
  cbn [Treasury.text_allocations_loop]. rewrite Hkw.
  destruct (search_comma_m sp post pre Hsp Hpre 0) as (m & Hm & Hg).
  unfold search. rewrite Hm, Hg. reflexivity.
Qed.

Lemma comma_before_m_word_fails_witness :
  Treasury._extract_text_allocations
    ("Youth justice" ++ String "," (" " ++ String "m" "ore staff")) "2024-25"
  = Raise ValueError.
Proof. apply comma_before_m_word_fails; reflexivity. Defined.

Lemma failing_page_ends_document_witness :
  Treasury.extract_budget_tables_from_pdf
    ([] ++ {| Treasury.page_text := Some "Youth justice, more staff";
              Treasury.page_tables := [] |}
        :: [{| Treasury.page_text := Some "Youth justice receives $5 million";
               Treasury.page_tables := [] |}])
    "2024-25"
  = Treasury.extract_budget_tables_from_pdf
      ([] ++ [{| Treasury.page_text := Some "Youth justice, more staff";
                 Treasury.page_tables := [] |}])
      "2024-25".
Proof.
  apply failing_page_ends_document. split; [reflexivity|].
  exists ValueError. reflexivity.
Defined.

(** *** [scrape_and_save] *)

Lemma add_metadata_carries (pdf : Treasury.PdfInfo) (a : Alloc.t) :
  well_formed (Treasury.pdf_fiscal_year pdf) a ->
  carries pdf (Treasury.add_metadata pdf a).
Proof.
  intros H. unfold carries, Treasury.add_metadata, well_formed in *.
  cbn [Alloc.department Alloc.source_url Alloc.source_document Alloc.fiscal_year
       Alloc.category Alloc.amount Alloc.program Alloc.source_type].
  repeat split; try reflexivity; apply H.
Qed.

(** X20.  Every allocation [scrape_and_save] returns carries the department,
    the URL and the title of a PDF that [find_budget_pdfs] listed and is well
    formed for the fiscal year of that PDF.  The grouping by fiscal year is a
    partition that keeps the order of the allocations, and the summary has one
    entry per fiscal year, which counts the allocations of that year. *)
Theorem scraped_allocations_carry_their_pdf
        (E : Db.Engine) (fetch : string -> option (list Treasury.Link))
        (open_pdf : string -> option (list Treasury.Page))
        (table : list Db.BudgetAllocation) (fiscal_years : list string) :
  let result := Treasury.scrape_and_save E fetch open_pdf table fiscal_years in
  Forall (fun a => exists pdf,
              In pdf (Treasury.find_budget_pdfs fetch fiscal_years) /\ carries pdf a)
         (Treasury.all_allocations result)
  /\ groups_of (Treasury.all_allocations result)
               (Treasury.group_by_year (Treasury.all_allocations result))
  /\ NoDup (map fst (Treasury.summary result))
  /\ Forall (fun entry =>
               0 < Treasury.allocation_count (snd entry)
               /\ Treasury.allocation_count (snd entry)
                  = List.length (filter (of_year (fst entry))
                                        (Treasury.all_allocations result)))
            (Treasury.summary result).
Proof.
  cbn zeta. unfold Treasury.scrape_and_save.
  cbn [Treasury.all_allocations Treasury.summary].
  set (pdfs := Treasury.find_budget_pdfs fetch fiscal_years).
  set (all := flat_map _ pdfs).
  pose proof (group_by_year_groups all) as Hpartition.
  assert (Hcopy := Hpartition). destruct Hcopy as (Hnd & Hgroups & Hseen).
  split; [|split; [exact Hpartition|split]].
  - apply Forall_forall. intros a Hin. apply in_flat_map in Hin as (pdf & Hpdf & Hin).
    exists pdf. split; [exact Hpdf|].
    destruct (open_pdf (Treasury.pdf_url pdf)) as [pages|]; [|destruct Hin].
    apply in_map_iff in Hin as (a0 & <- & Hin). apply add_metadata_carries.
    eapply origin_well_formed, pdf_allocation_origin, Hin.
  - now rewrite map_map, (map_ext _ fst) by reflexivity.
  - apply Forall_forall. intros entry Hin.
    apply in_map_iff in Hin as ([year allocs] & <- & Hin). cbn [fst snd].
    destruct (Hgroups _ _ Hin) as [Hne Hallocs].
    unfold Treasury.calculate_detention_vs_community. cbn [Treasury.allocation_count].
    split; [destruct allocs; [contradiction | cbn; lia] | now rewrite Hallocs at 1].
Qed.

(** ** The statistics of a question *)

Lemma leading_group (a rest : regex) (x : string) (caps' : captures) :
  matches (Seq (Group 1 a) rest) x [] caps' ->
  (forall g, ~ captured rest 1 g) ->
  exists g c1 c2, group 1 caps' = Some g /\ matches a g c1 c2.
Proof.
  intros Hx Hrest.
  apply matches_Seq_inv in Hx as (g & tail & caps1 & -> & Hg & Htail).
  apply matches_Group_inv in Hg as (caps2 & -> & Hg).
  exists g, [], caps2. split; [|exact Hg].
  destruct (group 1 caps') as [g'|] eqn:E.
  - destruct (matches_group _ _ _ _ Htail _ _ E) as [Hhead|[_ Hcap]].
    + rewrite group_head in Hhead. now symmetry.
    + now apply Hrest in Hcap.
  - exfalso. eapply (matches_group_kept _ _ _ _ Htail 1); [|exact E].
    rewrite group_head. discriminate.
Qed.

Lemma percentage_loop_ok (text : string) (ms : list Match) :
  (forall m, In m ms -> In m (finditer QoN.percentage_pattern text)) ->
  exists stats,
    QoN.percentage_loop text ms = Ok stats
    /\ Forall (fun s => QoN.stat_type s = "percentage" /\ statistic_of text s) stats.
Proof.
  induction ms as [|m ms IH]; intros Hms; cbn [QoN.percentage_loop].
  - exists []. now split.
  - destruct IH as (more & Hmore & Hall); [intros m' Hm'; apply Hms; now right|].
    assert (Hm := Hms m (or_introl eq_refl)).
    assert (Hv : exists v, float (group_of 1 m) = Ok v).
    { destruct (finditer_sound _ _ _ Hm) as (x & rest & _ & Hx & _).
      unfold QoN.percentage_pattern in Hx. cbn [seq] in Hx.
      apply leading_group in Hx as (g & c1 & c2 & Hgroup & Hg);
        [|intros g Hcap; cbn in Hcap; captured_cases].
      unfold group_of. rewrite Hgroup. eapply matches_number, Hg. }
    destruct Hv as [v Hv]. rewrite Hv, Hmore. cbn [bind].
    eexists. split; [reflexivity|]. constructor; [|exact Hall].
    cbn [QoN.stat_type]. split; [reflexivity|]. unfold statistic_of.
    cbn [QoN.stat_type QoN.value QoN.context].
    split; [cbn; auto|]. split; [eapply float_nonneg, Hv|].
    eapply part_of_trans; [apply strip_part|]. unfold QoN.window, slice.
    eapply part_of_trans; [apply part_of_take | apply part_of_drop].
Qed.

Lemma rate_loop_ok (text : string) (ms : list Match) :
  (forall m, In m ms -> In m (finditer QoN.rate_pattern text)) ->
  exists stats,
    QoN.rate_loop text ms = Ok stats
    /\ Forall (fun s => QoN.stat_type s = "rate" /\ statistic_of text s) stats.
Proof.
  induction ms as [|m ms IH]; intros Hms; cbn [QoN.rate_loop].
  - exists []. now split.
  - destruct IH as (more & Hmore & Hall); [intros m' Hm'; apply Hms; now right|].
    assert (Hm := Hms m (or_introl eq_refl)).
    assert (Hv : exists v, float (group_of 1 m) = Ok v).
    { destruct (finditer_sound _ _ _ Hm) as (x & rest & _ & Hx & _).
      unfold QoN.rate_pattern in Hx. cbn [seq] in Hx.
      apply leading_group in Hx as (g & c1 & c2 & Hgroup & Hg);
        [|intros g Hcap; cbn in Hcap; captured_cases].
      unfold group_of. rewrite Hgroup. eapply matches_number, Hg. }
    destruct Hv as [v Hv]. rewrite Hv, Hmore. cbn [bind].
    eexists. split; [reflexivity|]. constructor; [|exact Hall].
    cbn [QoN.stat_type]. split; [reflexivity|]. unfold statistic_of.
    cbn [QoN.stat_type QoN.value QoN.context].
    split; [cbn; auto|]. split; [eapply float_nonneg, Hv|].
    unfold slice. eapply part_of_trans; [apply part_of_take | apply part_of_drop].
Qed.

Lemma apply_multiplier_nonneg (v : Q) (w : option string) :
  (0 <= v)%Q -> (0 <= QoN.apply_multiplier v w)%Q.
Proof.
  intros Hv. unfold QoN.apply_multiplier. destruct w as [w|]; [|exact Hv].
  destruct (String.eqb w "billion"); [apply Qmult_le_0_compat; [exact Hv|discriminate]|].
  destruct (String.eqb w "million"); [apply Qmult_le_0_compat; [exact Hv|discriminate]|].
  destruct (String.eqb w "thousand"); [apply Qmult_le_0_compat; [exact Hv|discriminate]|].
  exact Hv.
Qed.

Lemma amount_loop_result (text : string) (ms : list Match) :
  match QoN.amount_loop text ms with
  | Ok stats =>
      Forall (fun s => QoN.stat_type s = "amount" /\ statistic_of text s) stats
  | Raise e =>
      exists m, In m ms /\ QoN.amount_of_match m = Raise e
  end.
Proof.
  induction ms as [|m ms IH]; cbn [QoN.amount_loop]; [constructor|].
  destruct (QoN.amount_of_match m) as [v|e] eqn:Hv; cbn [bind].
  - destruct (QoN.amount_loop text ms) as [more|e]; cbn [bind].
    + constructor; [|exact IH]. cbn [QoN.stat_type]. split; [reflexivity|].
      unfold statistic_of. cbn [QoN.stat_type QoN.value QoN.context].
      split; [cbn; auto|]. split.
      * unfold QoN.amount_of_match in Hv.
        destruct (float _) as [v0|] eqn:Hf; [|discriminate]. cbn [bind] in Hv.
        injection Hv as <-. apply apply_multiplier_nonneg. eapply float_nonneg, Hf.
      * eapply part_of_trans; [apply strip_part|]. unfold QoN.window, slice.
        eapply part_of_trans; [apply part_of_take | apply part_of_drop].
    + destruct IH as (m' & Hin & Hm'). exists m'. split; [now right | exact Hm'].
  - exists m. split; [now left | exact Hv].
Qed.

Lemma float_raises_ValueError (s : string) (e : exn) : float s = Raise e -> e = ValueError.
Proof.
  unfold float. destruct (span is_digit s) as [ip rest]. destruct rest as [|c fp].
  - destruct (_ =? _); [now intros [= <-] | discriminate].
  - destruct (_ && _); [discriminate | now intros [= <-]].
Qed.

Lemma remove_commas_empty (s : string) :
  remove_commas s = EmptyString -> all_in is_comma s = true.
Proof.
  induction s as [|c s IH]; [reflexivity|]. cbn [remove_commas all_in]. unfold is_comma at 1.
  destruct (Ascii.eqb c ","); [exact IH | discriminate].
Qed.

Lemma all_commas_removed (s : string) :
  all_in is_comma s = true -> remove_commas s = EmptyString.
Proof.
  induction s as [|c s IH]; [reflexivity|]. cbn [remove_commas all_in]. unfold is_comma at 1.
  destruct (Ascii.eqb c ","); [exact IH | discriminate].
Qed.

(** A mantissa that [float] cannot read consists of commas only. *)
Lemma mantissa_unreadable (g : string) (e : exn) :
  mantissa_shaped g -> float (remove_commas g) = Raise e ->
  e = ValueError /\ g <> EmptyString /\ all_in is_comma g = true.
Proof.
  intros (run & frac & -> & Hne & Hrun & Hfrac) Hraise.
  split; [eapply float_raises_ValueError, Hraise|].
  split; [destruct run; [contradiction | discriminate]|].
  rewrite remove_commas_app in Hraise.
  pose proof (remove_commas_all_digits _ Hrun) as Hd.
  destruct Hfrac as [->|(ds & -> & Hds & Hdigits)].
  - cbn [remove_commas] in Hraise. rewrite !app_empty_r in *.
    destruct (remove_commas run) as [|c d] eqn:E; [now apply remove_commas_empty|].
    rewrite float_digits in Hraise by (auto; discriminate). discriminate.
  - exfalso. cbn [remove_commas] in Hraise.
    change (Ascii.eqb "." ",") with false in Hraise. cbv iota in Hraise.
    rewrite (remove_commas_digits _ Hdigits) in Hraise.
    destruct (float_fraction (remove_commas run) ds Hd Hdigits) as [v Hv].
    + destruct (remove_commas run); [destruct ds; [contradiction | discriminate] | discriminate].
    + rewrite Hv in Hraise. discriminate.
Qed.

Lemma statistics_result (text : string) :
  match QoN._extract_statistics text with
  | Ok stats =>
      exists percentages amounts rates,
        stats = percentages ++ amounts ++ rates
        /\ Forall (fun s => QoN.stat_type s = "percentage" /\ statistic_of text s) percentages
        /\ Forall (fun s => QoN.stat_type s = "amount" /\ statistic_of text s) amounts
        /\ Forall (fun s => QoN.stat_type s = "rate" /\ statistic_of text s) rates
  | Raise e =>
      exists m, In m (finditer QoN.amount_pattern text) /\ QoN.amount_of_match m = Raise e
  end.
Proof.
  unfold QoN._extract_statistics.
  destruct (percentage_loop_ok text (finditer QoN.percentage_pattern text))
    as (percentages & -> & Hp); [auto|].
  destruct (rate_loop_ok text (finditer QoN.rate_pattern text)) as (rates & Hrates & Hr); [auto|].
  cbn [bind]. pose proof (amount_loop_result text (finditer QoN.amount_pattern text)) as Ha.
  destruct (QoN.amount_loop text (finditer QoN.amount_pattern text)) as [amounts|e]; cbn [bind].
  - rewrite Hrates. cbn [bind]. now exists percentages, amounts, rates.
  - exact Ha.
Qed.

(** X21.  The statistics [_extract_statistics] returns are grouped by kind, all
    percentages first, then all amounts, then all rates, whatever their order
    in the text; no value is negative and every context is an excerpt of the
    text. *)
Theorem statistics_are_grouped_by_kind (text : string) (stats : list QoN.Statistic) :
  QoN._extract_statistics text = Ok stats ->
  exists percentages amounts rates,
    stats = percentages ++ amounts ++ rates
    /\ Forall (fun s => QoN.stat_type s = "percentage" /\ statistic_of text s) percentages
    /\ Forall (fun s => QoN.stat_type s = "amount" /\ statistic_of text s) amounts
    /\ Forall (fun s => QoN.stat_type s = "rate" /\ statistic_of text s) rates.
Proof.
  intros H. pose proof (statistics_result text) as Hr. now rewrite H in Hr.
Qed.

Lemma statistics_are_grouped_by_kind_witness :
  exists stats percentages amounts rates,
    QoN._extract_statistics "5 times higher, $3 million, 40%" = Ok stats
    /\ map QoN.stat_type stats = ["percentage"; "amount"; "rate"]
    /\ stats = percentages ++ amounts ++ rates
    /\ Forall (fun s => QoN.stat_type s = "percentage"
                        /\ statistic_of "5 times higher, $3 million, 40%" s) percentages
    /\ Forall (fun s => QoN.stat_type s = "amount"
                        /\ statistic_of "5 times higher, $3 million, 40%" s) amounts
    /\ Forall (fun s => QoN.stat_type s = "rate"
                        /\ statistic_of "5 times higher, $3 million, 40%" s) rates.
Proof.
  destruct (statistics_are_grouped_by_kind
              "5 times higher, $3 million, 40%"
              (match QoN._extract_statistics "5 times higher, $3 million, 40%" with
               | Ok stats => stats
               | Raise _ => []
               end))
    as (percentages & amounts & rates & H); [vm_compute; reflexivity|].
  eexists. exists percentages, amounts, rates.
  split; [vm_compute; reflexivity|]. split; [reflexivity|]. exact H.
Defined.

Lemma str_in_drop (w s rest : string) (i : nat) :
  drop i s = (w ++ rest)%string -> str_in w s = true.
Proof.
  revert i. induction s as [|c s IH]; intros i H.
  - destruct i; cbn [drop] in H; destruct w; try discriminate; reflexivity.
  - destruct i as [|i].
    + cbn [drop] in H. cbn [str_in]. now rewrite H, startswith_app.
    + cbn [drop] in H. cbn [str_in]. rewrite (IH i H). apply orb_true_r.
Qed.

Lemma part_of_drop_prefix (w s rest : string) (i : nat) :
  drop i s = (w ++ rest)%string -> part_of w s.
Proof.
  intros H. exists (take i s), rest. now rewrite <- H, take_drop.
Qed.

(** X22.  [_extract_statistics] can only fail with ValueError, and only on a
    text that has a dollar sign followed, after optional white space, by
    commas that its amount pattern takes for a figure. *)
Theorem statistics_fail_only_on_comma_amounts (text : string) (e : exn) :
  QoN._extract_statistics text = Raise e ->
  e = ValueError
  /\ exists sp commas,
      comma_amount sp commas /\ part_of (String "$" (sp ++ commas)) text.
Proof.
  intros H. pose proof (statistics_result text) as Hr. rewrite H in Hr.
  destruct Hr as (m & Hin & Hm).
  destruct (finditer_from_sound _ text m _ 0 0 eq_refl Hin) as (rest & Hmatch & _).
  rewrite match_at_dollar in Hmatch.
  destruct (greedy_dollar_shape _ _ _ Hmatch)
    as (sp1 & mant & sp2 & w & Hdrop & Hsp1 & Hshape & _ & Hcaps).
  assert (Hg : group_of 1 m = mant).
  { unfold group_of. destruct Hcaps as [[_ ->]|[_ ->]]; reflexivity. }
  unfold QoN.amount_of_match in Hm. rewrite Hg in Hm.
  destruct (float (remove_commas mant)) as [v|e'] eqn:Hf; [discriminate|].
  cbn [bind] in Hm. injection Hm as ->.
  destruct (mantissa_unreadable _ _ Hshape Hf) as (-> & Hne & Hcommas).
  split; [reflexivity|]. exists sp1, mant. split; [now split|].
  apply (part_of_drop_prefix _ _ (sp2 ++ w ++ rest) (m_start m)).
  rewrite Hdrop. cbn [append]. now rewrite !app_assoc_s.
Qed.

Lemma statistics_fail_only_on_comma_amounts_witness :
  ValueError = ValueError
  /\ exists sp commas,
      comma_amount sp commas
      /\ part_of (String "$" (sp ++ commas)) "a cost of $, or more".
Proof.
  apply statistics_fail_only_on_comma_amounts. reflexivity.
Defined.

Lemma greedy_dollar_needs_dollar (c : ascii) (s : string) :
  Ascii.eqb "$" c = false -> greedy_dollar (String c s) = None.
Proof. intros H. unfold greedy_dollar. now rewrite H. Qed.

Lemma finditer_without_dollar (pre s : string) :
  has_char "$" pre = false ->
  forall pos,
    finditer_from QoN.amount_pattern 0 pos (pre ++ s)
    = finditer_from QoN.amount_pattern 0 (pos + String.length pre) s.
Proof.
  induction pre as [|c pre IH]; intros Hpre pos.
  - cbn. now rewrite Nat.add_0_r.
  - cbn [has_char] in Hpre. apply orb_false_iff in Hpre as [Hc Hpre].
    cbn [append]. rewrite finditer_from_no_match.
    + rewrite IH by exact Hpre. cbn [String.length]. f_equal. lia.
    + rewrite match_at_dollar. now apply greedy_dollar_needs_dollar.
Qed.

Lemma commas_mantissa (commas : string) :
  commas <> EmptyString -> all_in is_comma commas = true -> mantissa_shaped commas.
Proof.
  intros Hne Hall. exists commas, EmptyString. rewrite app_empty_r.
  split; [reflexivity|]. split; [exact Hne|]. split; [|now left].
  eapply all_in_weaken; [|exact Hall]. intros c Hc. unfold is_comma in Hc.
  unfold Treasury.is_digit_or_comma. rewrite Hc. apply orb_true_r.
Qed.

Lemma greedy_dollar_commas (sp commas post : string) :
  comma_amount sp commas -> boundary post ->
  exists caps rest,
    greedy_dollar (String "$" (sp ++ commas ++ post)) = Some (caps, rest)
    /\ group 1 caps = Some commas.
Proof.
  intros (Hsp & Hne & Hcommas) Hpost. unfold greedy_dollar.
  change (Ascii.eqb "$" "$") with true. cbv iota.
  assert (Hrun : run_length is_space (sp ++ commas ++ post) = String.length sp).
  { apply run_length_app; [exact Hsp|]. destruct commas as [|c commas]; [contradiction|].
    cbn [append stops]. cbn [all_in] in Hcommas. apply andb_true_iff in Hcommas as [Hc _].
    unfold is_comma in Hc. apply Ascii.eqb_eq in Hc. now subst c. }
  rewrite Hrun, drop_app_length.
  rewrite (greedy_mantissa_app commas post (commas_mantissa _ Hne Hcommas) Hpost).
  destruct (first_word _ _) as [[w r2]|]; eexists; eexists; (split; [reflexivity|]).
  - cbn [group Nat.eqb]. reflexivity.
  - cbn [group Nat.eqb]. reflexivity.
Qed.

Lemma amount_loop_first_fails (text : string) (m : Match) (ms : list Match) (e : exn) :
  QoN.amount_of_match m = Raise e -> QoN.amount_loop text (m :: ms) = Raise e.
Proof. intros H. cbn [QoN.amount_loop]. now rewrite H. Qed.

(** X23.  A dollar sign followed, after optional white space, by commas without
    a digit makes [_extract_statistics] fail with ValueError, when it is the
    first dollar sign of the text. *)
Theorem comma_amount_fails (pre sp commas post : string) :
  has_char "$" pre = false ->
  comma_amount sp commas ->
  boundary post ->
  QoN._extract_statistics (pre ++ String "$" (sp ++ commas ++ post)) = Raise ValueError.
Proof.
  intros Hpre Hamount Hpost.
  set (text := (pre ++ String "$" (sp ++ commas ++ post))%string).
  unfold QoN._extract_statistics.
  destruct (percentage_loop_ok text (finditer QoN.percentage_pattern text))
    as (percentages & -> & _); [auto|].
  cbn [bind].
  destruct (greedy_dollar_commas sp commas post Hamount Hpost) as (caps & rest & Hg & Hgroup).
  unfold finditer at 1. unfold text at 2. rewrite finditer_without_dollar by exact Hpre.
  cbn [finditer_from]. rewrite match_at_dollar, Hg.
  rewrite (amount_loop_first_fails _ _ _ ValueError); [reflexivity|].
  unfold QoN.amount_of_match, group_of. cbn [m_groups]. rewrite Hgroup.
  destruct Hamount as (_ & _ & Hcommas). now rewrite (all_commas_removed _ Hcommas).
Qed.

Lemma comma_amount_fails_witness :
  QoN._extract_statistics ("a cost of " ++ String "$" (EmptyString ++ "," ++ " or more"))
  = Raise ValueError.
Proof.
  apply comma_amount_fails; [reflexivity | | split; reflexivity].
  split; [reflexivity|]. split; [discriminate | reflexivity].
Defined.

(** ** The flags of a question *)

Lemma search_from_none (r : regex) (s : string) :
  forall pos,
    search_from r pos s = None ->
    forall i, i < String.length s -> match_at r (drop i s) = None.
Proof.
  induction s as [|c s IH]; intros pos Hnone i Hi; [cbn in Hi; lia|].
  cbn [search_from] in Hnone.
  destruct (match_at r (String c s)) as [[caps rest]|] eqn:Hm; [discriminate|].
  destruct i as [|i]; [exact Hm|]. cbn [drop].
  apply (IH (S pos) Hnone). cbn in Hi. lia.
Qed.

Lemma str_in_position (w s : string) :
  str_in w s = true -> w <> EmptyString ->
  exists i rest, i < String.length s /\ drop i s = (w ++ rest)%string.
Proof.
  intros H Hne. induction s as [|c s IH].
  - cbn [str_in] in H. rewrite orb_false_r in H. destruct w; [contradiction | discriminate].
  - cbn [str_in] in H. apply orb_true_iff in H as [H|H].
    + exists 0, (drop (String.length w) (String c s)). split; [cbn; lia|].
      cbn [drop]. now apply startswith_split.
    + destruct (IH H) as (i & rest & Hi & Hd). exists (S i), rest. split; [cbn; lia | exact Hd].
Qed.

Lemma spending_pattern_at_figure (c : ascii) (rest : string) :
  Treasury.is_digit_or_comma c = true ->
  match_at QoN.spending_amount_pattern (String "$" (String c rest)) <> None.
Proof.
  intros Hc. unfold match_at, QoN.spending_amount_pattern. cbn [seq].
  rewrite exec_Seq, exec_lit. change (startswith "$" (String "$" (String c rest))) with true.
  cbv iota. cbn [String.length drop]. rewrite exec_Seq, exec_plus.
  - cbn [run_length]. rewrite Hc. cbn [Nat.eqb].
    apply (total_opt _ _ (total_opt _ _ total_accept)).
  - intros s caps. rewrite exec_Seq.
    apply (total_opt _ _ (total_opt _ _ total_accept)).
Qed.

Lemma spending_pattern_shape (x : string) (caps caps' : captures) :
  matches QoN.spending_amount_pattern x caps caps' ->
  exists c rest, x = String "$" (String c rest) /\ Treasury.is_digit_or_comma c = true.
Proof.
  unfold QoN.spending_amount_pattern. cbn [seq]. intros H.
  apply matches_Seq_inv in H as (d & tail & caps1 & -> & Hd & H).
  apply matches_lit_inv in Hd. subst d.
  apply matches_Seq_inv in H as (run & tail' & caps2 & -> & Hrun & _).
  apply matches_Rep_inv in Hrun as (Hall & Hlen & _).
  destruct run as [|c run]; [cbn in Hlen; lia|].
  cbn [all_in] in Hall. apply andb_true_iff in Hall as [Hc _].
  exists c, (run ++ tail')%string. now split.
Qed.

Lemma found_spending_amount (text : string) :
  QoN.found QoN.spending_amount_pattern text = true <-> dollar_figure text.
Proof.
  unfold QoN.found. split.
  - destruct (search QoN.spending_amount_pattern text) as [m|] eqn:Hs; [|discriminate].
    intros _. destruct (search_sound _ _ _ Hs) as (x & rest & Hx & Hm).
    apply spending_pattern_shape in Hm as (c & tail & -> & Hc).
    exists c. split; [exact Hc|].
    apply (str_in_drop _ _ (tail ++ rest) (m_start m)). now rewrite Hx.
  - intros (c & Hc & Hin).
    destruct (str_in_position _ _ Hin) as (i & rest & Hi & Hd); [discriminate|].
    destruct (search QoN.spending_amount_pattern text) as [m|] eqn:Hs; [reflexivity|].
    exfalso. unfold search in Hs.
    pose proof (search_from_none _ _ 0 Hs i Hi) as Hnone. rewrite Hd in Hnone.
    now apply (spending_pattern_at_figure c rest).
Qed.

Lemma str_in_longer (w v s : string) :
  str_in (w ++ v) s = true -> str_in w s = true.
Proof.
  induction s as [|c s IH]; cbn [str_in].
  - rewrite !orb_false_r. destruct w; [reflexivity|]. intros H. discriminate.
  - intros H. apply orb_true_iff in H as [H|H].
    + apply startswith_split in H. rewrite H, app_assoc_s, startswith_app. reflexivity.
    + rewrite (IH H). apply orb_true_r.
Qed.

(** X24.  A question is flagged for spending exactly when its lower-cased text
    has a dollar sign directly followed by a digit or a comma; the dollar
    sign is itself a spending keyword, so such a question always mentions
    spending. *)
Theorem spending_flag_means_dollar_figure (q : QoN.Question) (a : QoN.Analysis) :
  QoN._analyze_question q = Ok a ->
  (QoN.spending_flag a = true <-> dollar_figure (QoN.text_of q))
  /\ (dollar_figure (QoN.text_of q) -> QoN.mentions_spending a = true).
Proof.
  unfold QoN._analyze_question.
  set (mi := any_in QoN.indigenous_keywords (QoN.text_of q)).
  set (md := any_in QoN.detention_keywords (QoN.text_of q)).
  destruct (QoN._extract_statistics (QoN.text_of q)); [|discriminate].
  cbn [bind]. clearbody mi md.
  assert (Hkw : dollar_figure (QoN.text_of q) ->
                any_in QoN.spending_keywords (QoN.text_of q) = true).
  { intros (c & _ & Hin). apply (str_in_longer "$" (String c EmptyString)) in Hin.
    unfold any_in, QoN.spending_keywords. apply existsb_exists.
    exists "$". split; [|exact Hin]. cbn. tauto. }
  remember (any_in QoN.spending_keywords (QoN.text_of q)) as ms eqn:Hms.
  intros [= <-]. cbn [QoN.spending_flag QoN.mentions_spending].
  split; [|exact Hkw]. destruct ms.
  - apply found_spending_amount.
  - split; [discriminate|]. intros H. now apply Hkw in H.
Qed.

Lemma spending_flag_means_dollar_figure_witness :
  exists a,
    QoN._analyze_question (question_of "How much of the $5 million went to youth detention?")
    = Ok a
    /\ (QoN.spending_flag a = true
        <-> dollar_figure
              (QoN.text_of (question_of "How much of the $5 million went to youth detention?")))
    /\ (dollar_figure
          (QoN.text_of (question_of "How much of the $5 million went to youth detention?"))
        -> QoN.mentions_spending a = true).
Proof.
  eexists. split; [vm_compute; reflexivity|].
  apply spending_flag_means_dollar_figure. vm_compute. reflexivity.
Defined.

(** ** The budget scraper *)

Lemma extract_amount_loop_nonneg (vals : list string) (a : Q) :
  Budget.extract_amount_loop vals = Ok (Some a) -> (0 <= a)%Q.
Proof.
  induction vals as [|value rest IH]; cbn [Budget.extract_amount_loop]; [discriminate|].
  destruct (search Budget.amount_pattern value) as [m|]; [|exact IH].
  destruct (float _) as [v|] eqn:Hv; [|discriminate]. cbn [bind].
  apply float_nonneg in Hv.
  destruct (_ || _); [|destruct (_ || _)]; intros [= <-];
    try apply Qmult_le_0_compat; auto; discriminate.
Qed.

Lemma truthy_positive (a : Q) : (0 <= a)%Q -> truthy a = true -> (0 < a)%Q.
Proof.
  intros Hle Ht. unfold truthy in Ht. apply negb_true_iff in Ht.
  apply Qle_lteq in Hle as [Hlt|Heq]; [exact Hlt|].
  symmetry in Heq. apply Qeq_bool_iff in Heq. congruence.
Qed.

Lemma rows_loop_items (url : string) (tables : list (list Budget.Row)) (rows : list Budget.Row) :
  startswith "http" url = true ->
  (forall row, In row rows -> In row (List.concat tables)) ->
  forall results items,
    Forall (page_item tables) results ->
    Budget.rows_loop url rows results = Ok items ->
    Forall (page_item tables) items
    /\ List.length items <= List.length results + List.length rows.
Proof.
  intros Hurl. induction rows as [|row rows IH]; intros Hrows results items Hresults;
    cbn [Budget.rows_loop].
  - intros [= <-]. split; [exact Hresults | lia].
  - assert (Hskip : Budget.rows_loop url rows results = Ok items ->
                    Forall (page_item tables) items
                    /\ List.length items
                       <= List.length results + List.length (row :: rows)).
    { intros H. apply IH in H as [H1 H2]; auto; [|intros r Hr; apply Hrows; now right].
      split; [exact H1 | cbn [List.length]; lia]. }
    fold (keyword_item row). destruct (keyword_item row) eqn:Hkw; [|exact Hskip].
    destruct (Budget._extract_amount row) as [[a|]|e] eqn:Ha; cbn [bind];
      [|exact Hskip|discriminate].
    destruct (truthy a) eqn:Ht; [|exact Hskip].
    intros H. apply IH in H as [H1 H2].
    + split; [exact H1|]. rewrite List.length_app in H2. cbn [List.length] in *. lia.
    + intros r Hr. apply Hrows. now right.
    + apply Forall_app. split; [exact Hresults|]. constructor; [|constructor].
      cbn [page_item]. repeat split; auto.
      * apply Hrows. now left.
      * apply truthy_positive; [|exact Ht]. eapply extract_amount_loop_nonneg, Ha.
Qed.

Lemma department_tables_loop_items (url : string) (all : list (list Budget.Row))
      (tables : list (list Budget.Row)) :
  startswith "http" url = true ->
  (forall table, In table tables -> In table all) ->
  forall results items,
    Forall (page_item all) results ->
    Budget.department_tables_loop url tables results = Ok items ->
    Forall (page_item all) items
    /\ List.length items <= List.length results + List.length (List.concat tables).
Proof.
  intros Hurl. induction tables as [|table tables IH]; intros Htables results items Hresults;
    cbn [Budget.department_tables_loop].
  - intros [= <-]. split; [exact Hresults | cbn; lia].
  - destruct (Budget.rows_loop url table results) as [results'|] eqn:Hrows; [|discriminate].
    cbn [bind]. intros H.
    apply (rows_loop_items url all table Hurl) in Hrows as [H1 H2]; [|  | exact Hresults].
    + apply IH in H as [H3 H4]; auto; [|intros t Ht; apply Htables; now right].
      split; [exact H3|]. cbn [List.concat]. rewrite List.length_app. lia.
    + intros row Hrow. apply in_concat. exists table. split; [|exact Hrow].
      apply Htables. now left.
Qed.

(** X25.  Every item [_scrape_department_page] returns is a table row of the
    page that mentions a keyword, with a positive amount read from it and the
    absolute address of the page as its source; there are no more items than
    rows. *)
Theorem department_page_items (url : string) (tables : list (list Budget.Row))
        (items : list Budget.Item) :
  Budget._scrape_department_page url tables = Ok items ->
  Forall (page_item tables) items
  /\ List.length items <= List.length (List.concat tables).
Proof.
  unfold Budget._scrape_department_page. cbv zeta.
  set (source := if startswith "http" url then url else (Budget.base_url ++ url)%string).
  intros H.
  apply (department_tables_loop_items source tables tables) in H; auto.
  unfold source. destruct (startswith "http" url) eqn:Hurl; [exact Hurl | reflexivity].
Qed.

Lemma department_page_items_witness :
  exists items,
    Budget._scrape_department_page "/dept" sample_page = Ok items
    /\ Forall (page_item sample_page) items
    /\ List.length items <= List.length (List.concat sample_page).
Proof.
  eexists. split; [vm_compute; reflexivity|].
  apply (department_page_items "/dept"). vm_compute. reflexivity.
Defined.

(** *** From the page items to the database and the spending split *)

Lemma category_of_cases (row_str : string) :
  Budget.category_of row_str = "detention" \/ Budget.category_of row_str = "community".
Proof. unfold Budget.category_of. destruct (any_in _ _); auto. Qed.

Lemma parsed_rows (data : list Budget.Item) :
  exists rows,
    budget_rows (Budget.parse_youth_justice_allocations data) = Some rows
    /\ List.length rows = List.length (Budget.parse_youth_justice_allocations data)
    /\ Forall (fun r => Db.fiscal_year r = "2024-25"
                        /\ (Db.category r = Some "detention"
                            \/ Db.category r = Some "community"))
              rows.
Proof.
  induction data as [|item data IH]; cbn [Budget.parse_youth_justice_allocations].
  - exists []. repeat split. constructor.
  - destruct item as [u t y|source row amount]; [exact IH|].
    destruct IH as (rows & Hrows & Hlen & Hall).
    cbn [budget_rows Budget.of_dict Alloc.source_type]. rewrite Hrows.
    eexists. split; [reflexivity|]. split; [cbn [List.length]; now rewrite Hlen|].
    constructor; [|exact Hall].
    cbn [Db.fiscal_year Db.category Alloc.fiscal_year Alloc.category].
    split; [reflexivity|]. destruct (category_of_cases (Budget.str_of_row row)) as [-> | ->]; auto.
Qed.

Lemma filter_all_true {A} (f : A -> bool) (l : list A) :
  (forall x, In x l -> f x = true) -> filter f l = l.
Proof.
  induction l as [|x l IH]; intros H; [reflexivity|]. cbn [filter].
  rewrite (H x (or_introl eq_refl)), IH; [reflexivity|]. intros y Hy. apply H. now right.
Qed.

Lemma two_classes_partition {A} (p q : A -> bool) (l : list A) :
  (forall x, In x l -> p x = negb (q x)) ->
  Permutation (filter p l ++ filter q l) l.
Proof.
  induction l as [|x l IH]; intros H; [constructor|].
  assert (IH' := IH (fun y Hy => H y (or_intror Hy))).
  cbn [filter]. rewrite (H x (or_introl eq_refl)).
  destruct (q x); cbn [negb].
  - apply Permutation_sym, Permutation_cons_app, Permutation_sym, IH'.
  - cbn [app]. now constructor.
Qed.

(** X26.  The dictionaries [parse_youth_justice_allocations] builds have column
    keys only, so a reliable database saves all of them; each is filed under
    fiscal year 2024-25 with the category detention or community, so the
    spending split of the saved rows drops none of them: its two totals are
    the sums over the detention rows and over the community rows, and every
    saved row is in exactly one of the two groups. *)
Theorem parsed_allocations_are_saved_and_counted
        (table : list Db.BudgetAllocation) (data : list Budget.Item) :
  let batch := Budget.parse_youth_justice_allocations data in
  exists rows,
    Budget.save_to_sqlite Db.reliable table batch = table ++ rows
    /\ List.length rows = List.length batch
    /\ map Db.amount rows = map Alloc.amount batch
    /\ Forall (fun r => Db.fiscal_year r = "2024-25"
                        /\ (Db.category r = Some "detention"
                            \/ Db.category r = Some "community"))
              rows
    /\ Cost.detention_total (Cost.calculate_spending_split rows)
       = sum (map Db.amount (filter (Cost.in_category "detention") rows))
    /\ Cost.community_total (Cost.calculate_spending_split rows)
       = sum (map Db.amount (filter (Cost.in_category "community") rows))
    /\ Permutation (filter (Cost.in_category "detention") rows
                    ++ filter (Cost.in_category "community") rows)
                   rows.
Proof.
  cbn zeta. destruct (parsed_rows data) as (rows & Hrows & Hlen & Hall).
  exists rows. rewrite budget_save_result, Hrows.
  assert (forallb (insert_ok Db.reliable) rows = true) as ->.
  { apply forallb_forall. reflexivity. }
  split; [reflexivity|]. split; [exact Hlen|].
  assert (Hamounts : map Db.amount rows
                     = map Alloc.amount (Budget.parse_youth_justice_allocations data)).
  { clear Hlen Hall. revert rows Hrows.
    induction (Budget.parse_youth_justice_allocations data) as [|a batch IH];
      intros rows Hrows; cbn [budget_rows] in Hrows.
    - now injection Hrows as <-.
    - unfold Budget.of_dict in Hrows. destruct (Alloc.source_type a); [discriminate|].
      destruct (budget_rows batch) as [rs|]; [|discriminate].
      injection Hrows as <-. cbn [map Db.amount]. f_equal. now apply IH. }
  split; [exact Hamounts|]. split; [exact Hall|].
  rewrite Forall_forall in Hall.
  unfold Cost.calculate_spending_split.
  cbn [Cost.detention_total Cost.community_total].
  rewrite (filter_all_true _ rows)
    by (intros r Hr; destruct (Hall r Hr) as [-> _]; reflexivity).
  split; [reflexivity|]. split; [reflexivity|].
  apply two_classes_partition. intros r Hr. unfold Cost.in_category.
  destruct (Hall r Hr) as [_ [-> | ->]]; reflexivity.
Qed.

(** *** [_extract_program_name] of the budget scraper *)

Lemma lookup_in_values (key : string) (row : Budget.Row) (v : string) :
  Budget.lookup key row = Some v -> In v (Budget.values row).
Proof.
  induction row as [|[k w] row IH]; cbn [Budget.lookup]; [discriminate|].
  unfold Budget.values. cbn [map snd]. destruct (String.eqb k key).
  - intros [= <-]. now left.
  - intros H. right. now apply IH.
Qed.

(** X27.  The program name of a row is one of its cells, or [Unknown Program]
    when the row has none of the columns program, service, initiative and
    description and every cell is made of digits, dollar signs, commas and
    points only. *)
Theorem budget_program_name_is_a_cell (row : Budget.Row) :
  In (Budget._extract_program_name row) (Budget.values row)
  \/ (Budget._extract_program_name row = "Unknown Program"
      /\ (forall key, In key ["program"; "service"; "initiative"; "description"] ->
                      Budget.lookup key row = None)
      /\ Forall (fun value => Budget.numeric_only (strip value) = true)
                (Budget.values row)).
Proof.
  unfold Budget._extract_program_name.
  destruct (find_first _ _) as [v|] eqn:Hfirst.
  - left. apply find_first_some in Hfirst as (key & _ & Hkey).
    eapply lookup_in_values, Hkey.
  - destruct (find _ (Budget.values row)) as [value|] eqn:Hfind.
    + left. now apply find_some in Hfind.
    + right. split; [reflexivity|]. split.
      * intros key Hkey. cbn [find_first] in Hfirst.
        destruct (Budget.lookup "program" row) eqn:H1; [discriminate|].
        destruct (Budget.lookup "service" row) eqn:H2; [discriminate|].
        destruct (Budget.lookup "initiative" row) eqn:H3; [discriminate|].
        destruct (Budget.lookup "description" row) eqn:H4; [discriminate|].
        destruct Hkey as [<-|[<-|[<-|[<-|[]]]]]; assumption.
      * apply Forall_forall. intros value Hvalue.
        pose proof (find_none _ _ Hfind value Hvalue) as H. now apply negb_false_iff in H.
Qed.

(** *** The category of a row and the words of its headers *)

Lemma startswith_longer (w g y : string) :
  startswith w g = true -> startswith w (g ++ y) = true.
Proof.
  revert g. induction w as [|c w IH]; intros g H; [reflexivity|].
  destruct g as [|d g]; [discriminate|]. cbn [startswith append] in *.
  apply andb_true_iff in H as [Hc Hw]. now rewrite Hc, IH.
Qed.

Lemma str_in_app_r (w x s : string) : str_in w s = true -> str_in w (x ++ s) = true.
Proof.
  intros H. induction x as [|c x IH]; [exact H|].
  cbn [append str_in]. rewrite IH. apply orb_true_r.
Qed.

Lemma str_in_app_l (w g y : string) : str_in w g = true -> str_in w (g ++ y) = true.
Proof.
  induction g as [|c g IH]; intros H.
  - cbn [str_in] in H. rewrite orb_false_r in H. destruct w; [|discriminate].
    destruct y; reflexivity.
  - cbn [str_in] in H. apply orb_true_iff in H as [H|H]; cbn [append str_in].
    + change (String c (g ++ y)) with (String c g ++ y)%string.
      now rewrite (startswith_longer _ _ y H).
    + rewrite (IH H). apply orb_true_r.
Qed.

Lemma part_of_str_in (w g s : string) :
  str_in w g = true -> part_of g s -> str_in w s = true.
Proof. intros Hw (x & y & ->). now apply str_in_app_r, str_in_app_l. Qed.

Lemma part_of_lower (g s : string) : part_of g s -> part_of (lower g) (lower s).
Proof. intros (x & y & ->). exists (lower x), (lower y). now rewrite !lower_app. Qed.

Lemma word_char_repr (c : ascii) :
  word_char c = true ->
  Budget.repr_char Budget.quote c = String c EmptyString
  /\ Budget.repr_char Budget.dquote c = String c EmptyString.
Proof.
  destruct c as [[] [] [] [] [] [] [] []]; vm_compute; intros H;
    try discriminate H; split; reflexivity.
Qed.

Lemma startswith_repr (q : ascii) (w s : string) :
  q = Budget.quote \/ q = Budget.dquote ->
  all_in word_char_lower w = true ->
  startswith w (lower s) = true ->
  startswith w (lower (Budget.repr_body q s)) = true.
Proof.
  intros Hq. revert s. induction w as [|d w IH]; intros s Hw H; [reflexivity|].
  destruct s as [|c s]; [discriminate|].
  cbn [all_in] in Hw. apply andb_true_iff in Hw as [Hd Hw].
  cbn [lower startswith] in H. apply andb_true_iff in H as [Hc Hs].
  apply Ascii.eqb_eq in Hc. subst d.
  assert (Hrepr : Budget.repr_char q c = String c EmptyString).
  { destruct (word_char_repr c Hd) as [H1 H2]. now destruct Hq as [-> | ->]. }
  cbn [Budget.repr_body]. rewrite Hrepr. cbn [append lower startswith].
  rewrite Ascii.eqb_refl. cbn [andb]. now apply IH.
Qed.

Lemma str_in_repr_body (q : ascii) (w s : string) :
  q = Budget.quote \/ q = Budget.dquote ->
  all_in word_char_lower w = true ->
  str_in w (lower s) = true ->
  str_in w (lower (Budget.repr_body q s)) = true.
Proof.
  intros Hq Hw. induction s as [|c s IH]; intros H.
  - exact H.
  - cbn [lower str_in] in H. apply orb_true_iff in H as [H|H].
    + assert (Hs := startswith_repr q w (String c s) Hq Hw H).
      destruct (lower (Budget.repr_body q (String c s))) as [|e t]; cbn [str_in];
        now rewrite Hs.
    + cbn [Budget.repr_body]. rewrite lower_app. now apply str_in_app_r, IH.
Qed.

Lemma str_in_repr (w s : string) :
  all_in word_char_lower w = true ->
  str_in w (lower s) = true ->
  str_in w (lower (Budget.repr s)) = true.
Proof.
  intros Hw H. unfold Budget.repr.
  set (q := if has_char Budget.quote s && negb (has_char Budget.dquote s)
            then Budget.dquote else Budget.quote).
  assert (Hq : q = Budget.quote \/ q = Budget.dquote)
    by (unfold q; destruct (_ && _); auto).
  change (String q (Budget.repr_body q s ++ String q EmptyString))
    with (String q EmptyString ++ Budget.repr_body q s ++ String q EmptyString)%string.
  rewrite !lower_app. apply str_in_app_r, str_in_app_l.
  now apply str_in_repr_body.
Qed.

Lemma repr_items_parts (row : Budget.Row) (k v : string) :
  In (k, v) row ->
  part_of (Budget.repr k) (Budget.repr_items row)
  /\ part_of (Budget.repr v) (Budget.repr_items row).
Proof.
  induction row as [|[k0 v0] row IH]; [intros []|]. intros [[= -> ->]|Hin].
  - cbn [Budget.repr_items]. destruct row as [|kv row].
    + split; [apply part_of_app_l, part_of_refl|].
      apply part_of_app_r, part_of_app_r, part_of_refl.
    + split; [apply part_of_app_l, part_of_refl|].
      apply part_of_app_r, part_of_app_r, part_of_app_l, part_of_refl.
  - destruct (IH Hin) as [Hk Hv]. cbn [Budget.repr_items].
    destruct row as [|kv row]; [destruct Hin|].
    split; repeat apply part_of_app_r; assumption.
Qed.

(** X28.  A row is filed under detention as soon as one of the words detention,
    cleveland and west moreton occurs, in any case, in one of its cells or in
    one of its column headers: the category is read off the text of the whole
    dictionary, keys included. *)
Theorem header_word_decides_category (row : Budget.Row) (k v w : string) :
  In (k, v) row ->
  In w category_words ->
  str_in w (lower k) = true \/ str_in w (lower v) = true ->
  Budget.category_of (Budget.str_of_row row) = "detention".
Proof.
  intros Hin Hw Hword. unfold Budget.category_of.
  assert (Hsafe : all_in word_char_lower w = true).
  { destruct Hw as [<-|[<-|[<-|[]]]]; reflexivity. }
  assert (Hrow : str_in w (lower (Budget.str_of_row row)) = true).
  { destruct (repr_items_parts _ _ _ Hin) as [Hk Hv].
    unfold Budget.str_of_row.
    assert (Hpart : forall g, part_of g (Budget.repr_items row) ->
                              part_of (lower g)
                                      (lower ("{" ++ Budget.repr_items row ++ "}"))).
    { intros g Hg. apply part_of_lower, part_of_app_r, part_of_app_l, Hg. }
    destruct Hword as [H|H].
    - eapply part_of_str_in; [apply (str_in_repr _ _ Hsafe H) | apply Hpart, Hk].
    - eapply part_of_str_in; [apply (str_in_repr _ _ Hsafe H) | apply Hpart, Hv]. }
  assert (any_in ["detention"; "cleveland"; "west moreton"]
                 (lower (Budget.str_of_row row)) = true) as ->; [|reflexivity].
  apply existsb_exists. exists w. split; [exact Hw | exact Hrow].
Qed.

Lemma header_word_decides_category_witness :
  Budget.category_of
    (Budget.str_of_row [("Detention budget ($m)", "12"); ("Program", "Youth justice bail support")])
  = "detention".
Proof.
  apply (header_word_decides_category _ "Detention budget ($m)" "12" "detention").
  - now left.
  - now left.
  - left. reflexivity.
Defined.

(** ** The two stores of the budget scraper, and one batch of the Treasury writer *)

(** X29.  The Supabase copy receives every allocation whose own insert succeeds,
    one by one and whatever happens to the SQLite transaction: when the
    database refuses a row, SQLite keeps nothing of the batch while Supabase
    has all of it. *)
Theorem stores_can_diverge
        (E : Db.Engine) (supabase_raises : Supabase.record -> bool)
        (table rows : list Db.BudgetAllocation) (mirror : list Supabase.record)
        (batch : list Alloc.t) :
  budget_rows batch = Some rows ->
  forallb (insert_ok E) rows = false ->
  (forall r, supabase_raises r = false) ->
  let after :=
    Budget.save_to_database E supabase_raises
                            {| Budget.sqlite := table; Budget.supabase := Some mirror |}
                            batch in
  Budget.sqlite after = table
  /\ Budget.supabase after = Some (mirror ++ map mirror_record batch).
Proof.
  intros Hrows Hrefused Hmirror. cbn zeta. unfold Budget.save_to_database.
  cbn [Budget.supabase Budget.sqlite].
  rewrite mirror_fold, budget_save_result, Hrows, Hrefused.
  split; [reflexivity|]. rewrite filter_all_true; [reflexivity|].
  intros a _. now rewrite Hmirror.
Qed.

Lemma stores_can_diverge_witness :
  exists rows,
    budget_rows sample_batch = Some rows
    /\ forallb (insert_ok refusing) rows = false
    /\ Budget.sqlite
         (Budget.save_to_database refusing (fun _ => false)
                                  {| Budget.sqlite := []; Budget.supabase := Some [] |}
                                  sample_batch) = []
    /\ Budget.supabase
         (Budget.save_to_database refusing (fun _ => false)
                                  {| Budget.sqlite := []; Budget.supabase := Some [] |}
                                  sample_batch)
       = Some ([] ++ map mirror_record sample_batch).
Proof.
  eexists. split; [vm_compute; reflexivity|]. split; [reflexivity|].
  eapply (stores_can_diverge refusing (fun _ => false)); [vm_compute| |]; reflexivity.
Defined.

Lemma new_rows_app (table : list Db.BudgetAllocation) (b1 b2 : list Alloc.t) :
  new_rows table (b1 ++ b2) = new_rows table b1 ++ new_rows table b2.
Proof. unfold new_rows. now rewrite filter_app, map_app. Qed.

Lemma reliable_accepts (table : list Db.BudgetAllocation) (batch : list Alloc.t) :
  treasury_accepts Db.reliable table batch = true.
Proof.
  unfold treasury_accepts. apply andb_true_iff. split; apply forallb_forall; reflexivity.
Qed.

(** X30.  The Treasury writer compares a candidate with the table as it was
    before the call only, because the session does not flush before a query:
    what is saved of the second part of a batch does not depend on the first
    part, and a new key that occurs twice in one batch is saved twice. *)
Theorem duplicates_within_a_batch_are_saved
        (table : list Db.BudgetAllocation) (batch more : list Alloc.t) (a : Alloc.t) :
  is_new table a = true ->
  Treasury.save_to_database Db.reliable table (batch ++ more)
  = table ++ new_rows table batch ++ new_rows table more
  /\ Treasury.save_to_database Db.reliable table [a; a]
     = table ++ [Treasury.to_row a; Treasury.to_row a].
Proof.
  intros Hnew. rewrite !treasury_save_result, !reliable_accepts, new_rows_app.
  split; [reflexivity|]. unfold new_rows. cbn [filter]. now rewrite Hnew.
Qed.

Lemma duplicates_within_a_batch_are_saved_witness :
  Treasury.save_to_database
    Db.reliable [] ([allocation_of "detention" 100] ++ [allocation_of "detention" 100])
  = [] ++ new_rows [] [allocation_of "detention" 100]
       ++ new_rows [] [allocation_of "detention" 100]
  /\ Treasury.save_to_database
       Db.reliable [] [allocation_of "detention" 100; allocation_of "detention" 100]
     = [] ++ [Treasury.to_row (allocation_of "detention" 100);
              Treasury.to_row (allocation_of "detention" 100)].
Proof. apply duplicates_within_a_batch_are_saved. reflexivity. Defined.
